(** * Row-parity watermarking backend: embedding, extraction, verification

    A shallow embedding of [embed_backend.py], [extract_backend.py] and
    [verify_backend.py].

    Conventions.
    - A NumPy 2-D array is a list of rows ([plane]); an H x W x 3 image is a
      list of rows of pixel triples ([image]).  Rectangularity, which NumPy
      guarantees, is the predicate [rect].
    - Floating-point samples are modelled by exact rationals [Q]: every
      arithmetic step of the source is kept, its rounding is not.  A float
      that may be NaN is a [pyfloat].
    - Where rounding decides a result, which it does at the truncating
      8-bit cast that ends [recover_watermark_channel], the module [Ieee]
      repeats the two kernels in binary64 and binary32 arithmetic.
      Statements about the exact model are about shapes, failures and the
      float planes before that cast; 8-bit planes are compared only where
      rounding cannot move them.
    - Routines of OpenCV, scikit-image, NumPy and [math] that the source
      calls are fields of the classes [OpenCV] and [Metrics]; what the proofs
      need from them is stated in [OpenCVSpec] and [MetricsSpec].
      [cv2.normalize] is modelled concretely, since the recovery routine's
      result is decided by it. *)

From Stdlib Require Import String Bool ZArith QArith Qround Qabs Lia Lqa Setoid Morphisms List.
From Stdlib Require SpecFloat.
Import ListNotations.
Open Scope Q_scope.

(** ** NumPy arrays *)

Module Ndarray.

Definition plane (A : Type) := list (list A).
Definition pixel (A : Type) := (A * A * A)%type.
Definition image (A : Type) := list (list (pixel A)).

(** [a.shape] of a 2-D array, as (rows, columns). *)
Definition shape2 {A} (p : list (list A)) : nat * nat :=
  (length p, length (hd [] p)).

(** [a.shape] of an H x W x 3 array. *)
Definition shape3 {A} (img : image A) : nat * nat * nat :=
  (length img, length (hd [] img), 3%nat).

Definition rect {A} (w : nat) (p : list (list A)) : Prop :=
  Forall (fun r => length r = w) p.

Definition shape2_eqb (s t : nat * nat) : bool :=
  Nat.eqb (fst s) (fst t) && Nat.eqb (snd s) (snd t).

Definition shape3_eqb (s t : nat * nat * nat) : bool :=
  Nat.eqb (fst (fst s)) (fst (fst t)) && Nat.eqb (snd (fst s)) (snd (fst t))
  && Nat.eqb (snd s) (snd t).

(** A plane is a well-formed [h] x [w] array. *)
Definition has_shape {A} (h w : nat) (p : list (list A)) : Prop :=
  length p = h /\ rect w p.

(** [a[::2]] and [a[1::2]]. *)
Fixpoint evens {A} (l : list A) : list A :=
  match l with
  | [] => []
  | x :: t => x :: match t with [] => [] | _ :: t' => evens t' end
  end.

Definition odds {A} (l : list A) : list A := evens (tl l).

(** [a[:-1]]. *)
Definition drop_last {A} (l : list A) : list A := removelast l.

(** Rows [e0, o0, e1, o1, ...]: the array after [a[::2] = e; a[1::2] = o]
    when [a] has [2 * len e] rows and [len o = len e]. *)
Fixpoint interleave {A} (e o : list A) : list A :=
  match e, o with
  | x :: e', y :: o' => x :: y :: interleave e' o'
  | _, _ => []
  end.

Fixpoint map2 {A B C} (f : A -> B -> C) (l : list A) (m : list B) : list C :=
  match l, m with
  | x :: l', y :: m' => f x y :: map2 f l' m'
  | _, _ => []
  end.

Definition pmap {A B} (f : A -> B) (p : plane A) : plane B := map (map f) p.
Definition pmap2 {A B C} (f : A -> B -> C) (p : plane A) (q : plane B) : plane C :=
  map2 (map2 f) p q.

(** [a[i, j]]. *)
Definition get (p : plane Q) (i j : nat) : Q := nth j (nth i p []) 0.
Definition getz (p : plane Z) (i j : nat) : Z := nth j (nth i p []) 0%Z.

(** [img[:, :, k]] and [cv2.split] / [cv2.merge]. *)
Definition ch0 {A} (x : pixel A) : A := fst (fst x).
Definition ch1 {A} (x : pixel A) : A := snd (fst x).
Definition ch2 {A} (x : pixel A) : A := snd x.
Definition channel0 {A} (img : image A) : plane A := pmap ch0 img.
Definition channel1 {A} (img : image A) : plane A := pmap ch1 img.
Definition channel2 {A} (img : image A) : plane A := pmap ch2 img.

Definition merge3 {A} (a b c : plane A) : image A :=
  pmap2 (fun x yz => (x, fst yz, snd yz)) a (pmap2 pair b c).

(** [img[:, :, 0] = y] when [y.shape == img.shape[:2]]. *)
Definition set_channel0 {A} (img : image A) (y : plane A) : image A :=
  map2 (map2 (fun px v => (v, ch1 px, ch2 px))) img y.

(** Pointwise equality of rational planes. *)
Definition plane_equiv (p q : plane Q) : Prop := Forall2 (Forall2 Qeq) p q.

End Ndarray.
Import Ndarray.

(** ** Python floats that may be NaN *)

Inductive pyfloat : Type :=
| Fin (q : Q)
| NaN.

(** [x >= c] for a float [x] and a finite constant [c]; false on NaN. *)
Definition fge (x : pyfloat) (c : Q) : bool :=
  match x with
  | Fin q => Qle_bool c q
  | NaN => false
  end.

(** ** Library routines *)

(** The OpenCV routines the backends call.  [cv2_resize p (w, h)] is
    [cv2.resize(p, (w, h))] on one channel (OpenCV resizes the channels of
    an image independently); [GaussianBlur] is
    [cv2.GaussianBlur(. , (5, 5), 0)]; [cvtColor_YCrCb2BGR] returns [None]
    where OpenCV raises [cv2.error]. *)
Class OpenCV : Type := {
  cv2_resize : plane Q -> nat * nat -> plane Q;
  GaussianBlur : plane Q -> plane Q;
  cvtColor_BGR2YCrCb : image Z -> image Z;
  cvtColor_YCrCb2BGR : image Z -> option (image Z);
  cv2_resize_u8 : image Z -> nat * nat -> image Z
}.

(** The metric routines [verify_backend.py] calls: [math.log10],
    [skimage.metrics.structural_similarity(a, b, channel_axis=-1)]
    ([None] where it raises) and [np.corrcoef(x, y)[0, 1]]. *)
Class Metrics : Type := {
  log10 : Q -> Q;
  structural_similarity : image Z -> image Z -> option Q;
  corrcoef : list Z -> list Z -> pyfloat
}.

(** [a.astype(float)] of an integer array. *)
Definition to_float (p : plane Z) : plane Q := pmap inject_Z p.
Definition to_float_img (img : image Z) : image Q :=
  pmap (fun px => (inject_Z (ch0 px), inject_Z (ch1 px), inject_Z (ch2 px))) img.

(** C cast of a float to an integer: truncation towards zero. *)
Definition Qtrunc (q : Q) : Z := if Qle_bool 0 q then Qfloor q else Qceiling q.

(** [.astype(np.uint8)] of a float sample (exact on the range 0..255). *)
Definition astype_uint8 (q : Q) : Z := (Qtrunc q) mod 256.

Definition qmin (a b : Q) : Q := if Qle_bool a b then a else b.
Definition qmax (a b : Q) : Q := if Qle_bool a b then b else a.

(** ** embed_backend.py *)

Module EmbedBackend.

Definition ALLOWED_COVER_DIMENSIONS : list (nat * nat * nat) := [(512, 512, 3)]%nat.
Definition ALLOWED_WATERMARK_DIMENSIONS : list (nat * nat * nat) := [(32, 32, 3)]%nat.
Definition ALPHA : Q := 7 # 100.

(** [image_array.shape in allowed_dimensions]. *)
Definition is_valid_image {A} (image_array : image A)
    (allowed_dimensions : list (nat * nat * nat)) : bool :=
  existsb (shape3_eqb (shape3 image_array)) allowed_dimensions.

Definition matrix3 := pixel (pixel Q).

Definition forward_matrix : matrix3 :=
  ((299 # 1000, 587 # 1000, 114 # 1000),
   (- (168736 # 1000000), - (331264 # 1000000), 5 # 10),
   (5 # 10, - (418688 # 1000000), - (81312 # 1000000))).

Definition inverse_matrix : matrix3 :=
  ((1, 0, 1402 # 1000),
   (1, - (344136 # 1000000), - (714136 # 1000000)),
   (1, 1772 # 1000, 0)).

Definition dot3 (x row : pixel Q) : Q :=
  ch0 x * ch0 row + ch1 x * ch1 row + ch2 x * ch2 row.

(** One pixel of [np.dot(img, matrix.T)]: entry [k] is the dot product of
    the pixel with row [k] of [matrix]. *)
Definition dot_T (m : matrix3) (x : pixel Q) : pixel Q :=
  (dot3 x (ch0 m), dot3 x (ch1 m), dot3 x (ch2 m)).

Definition rgb_to_ycbcr_lossless (img_bgr : image Q) : image Q :=
  pmap (dot_T forward_matrix) img_bgr.

Definition ycbcr_to_rgb_lossless (img_ycrcb : image Q) : image Q :=
  pmap (dot_T inverse_matrix) img_ycrcb.

(** The matrix product [a . b], for stating that one matrix inverts another. *)
Definition col (k : pixel Q -> Q) (m : matrix3) : pixel Q :=
  (k (ch0 m), k (ch1 m), k (ch2 m)).
Definition matmul (a b : matrix3) : matrix3 :=
  let row r := (dot3 r (col ch0 b), dot3 r (col ch1 b), dot3 r (col ch2 b)) in
  (row (ch0 a), row (ch1 a), row (ch2 a)).
Definition identity3 : matrix3 := ((1, 0, 0), (0, 1, 0), (0, 0, 1)).
Definition pixel_eq (x y : pixel Q) : Prop :=
  ch0 x == ch0 y /\ ch1 x == ch1 y /\ ch2 x == ch2 y.
Definition matrix_eq (a b : matrix3) : Prop :=
  pixel_eq (ch0 a) (ch0 b) /\ pixel_eq (ch1 a) (ch1 b) /\ pixel_eq (ch2 a) (ch2 b).

(** [np.clip(x, 0, 255).astype(np.uint8)] of one sample. *)
Definition clip_uint8 (q : Q) : Z := astype_uint8 (qmin (qmax q 0) 255).

Inductive response : Type :=
| SendPng (embedded_image : image Z)
| Error400 (msg : string)
| Raised400.   (* the [except] branch: [str(e), 400] *)

Section WithOpenCV.
Context {cv : OpenCV}.

(** The payload after the optional resize and the blur, before scaling. *)
Definition smoothed_payload (COVER WATERMARK : plane Q) : plane Q :=
  let even := evens COVER in
  let WATERMARK :=
    if negb (shape2_eqb (shape2 even) (shape2 WATERMARK))
    then cv2_resize WATERMARK (snd (shape2 even), fst (shape2 even))
    else WATERMARK in
  GaussianBlur WATERMARK.

(** [embedd_matrix(COVER, WATERMARK, alpha)].  [None] is the exception NumPy
    raises when the operands of [+] / [-] or of the slice assignments do not
    have the shape of [COVER[::2]]. *)
Definition embedd_matrix (COVER WATERMARK : plane Q) (alpha : Q) : option (plane Q) :=
  let even := evens COVER in
  let odd := odds COVER in
  let WATERMARK := smoothed_payload COVER WATERMARK in
  let WATERMARK := pmap (fun v => v * alpha) WATERMARK in
  if shape2_eqb (shape2 even) (shape2 odd)
     && shape2_eqb (shape2 even) (shape2 WATERMARK)
  then
    let Aeven := pmap2 Qplus (pmap2 (fun e o => (e + o) / 2) even odd) WATERMARK in
    let Aodd := pmap2 Qminus (pmap2 (fun e o => (e + o) / 2) even odd) WATERMARK in
    Some (interleave Aeven Aodd)
  else None.

(** [ycbcr_image] after line 107 of the route: the forward transform of the
    cover with its channel 0 replaced by the embedded plane. *)
Definition embedded_ycbcr (image_np watermark_np : image Z) : option (image Q) :=
  let watermark_resized_0 :=
    cv2_resize (to_float (channel0 watermark_np))
               (snd (fst (shape3 image_np)), fst (fst (shape3 image_np))) in
  let ycbcr_image := rgb_to_ycbcr_lossless (to_float_img image_np) in
  match embedd_matrix (channel0 ycbcr_image) watermark_resized_0 ALPHA with
  | Some y =>
      if shape2_eqb (shape2 y) (shape2 ycbcr_image)
      then Some (set_channel0 ycbcr_image y)
      else None
  | None => None
  end.

(** The [/embed] route on the two decoded RGB arrays. *)
Definition embed_watermark (image_np watermark_np : image Z) : response :=
  if negb (is_valid_image image_np ALLOWED_COVER_DIMENSIONS)
  then Error400 "Invalid cover image dimensions."
  else if negb (is_valid_image watermark_np ALLOWED_WATERMARK_DIMENSIONS)
  then Error400 "Invalid watermark dimensions."
  else
    match embedded_ycbcr image_np watermark_np with
    | Some ycbcr_image =>
        SendPng (pmap (fun px => (clip_uint8 (ch0 px), clip_uint8 (ch1 px), clip_uint8 (ch2 px)))
                      (ycbcr_to_rgb_lossless ycbcr_image))
    | None => Raised400
    end.

End WithOpenCV.
End EmbedBackend.

(** ** extract_backend.py *)

Module ExtractBackend.

Definition ALPHA : Q := 7 # 100.
Definition EXPECTED_WATERMARK_SHAPE : nat * nat := (32, 32)%nat.

(** C's [DBL_EPSILON]. *)
Definition DBL_EPSILON : Q := 1 # (2 ^ 52).

Definition min_of (l : list Q) : Q :=
  match l with [] => 0 | x :: t => fold_left qmin t x end.
Definition max_of (l : list Q) : Q :=
  match l with [] => 0 | x :: t => fold_left qmax t x end.

(** [cv2.normalize(src, None, a, b, cv2.NORM_MINMAX)], as OpenCV computes
    it: with [smin], [smax] the extrema of [src],
    [scale = (dmax - dmin) * (smax - smin > DBL_EPSILON ? 1 / (smax - smin) : 0)],
    [shift = dmin - smin * scale] and [dst = src * scale + shift]. *)
Definition normalize_minmax (src : plane Q) (a b : Q) : plane Q :=
  let smin := min_of (concat src) in
  let smax := max_of (concat src) in
  let dmin := qmin a b in
  let dmax := qmax a b in
  let scale :=
    (dmax - dmin) *
    (if Qle_bool (smax - smin) DBL_EPSILON then 0 else 1 / (smax - smin)) in
  let shift := dmin - smin * scale in
  pmap (fun v => v * scale + shift) src.

(** [channel_data] after the odd-height crop ([channel_data[:-1, :]]). *)
Definition cropped (channel_data : plane Q) : plane Q :=
  if Nat.odd (length channel_data) then drop_last channel_data else channel_data.

(** [wm_float = (even - odd) / (2 * alpha)]. *)
Definition wm_float (channel_data : plane Q) (alpha : Q) : plane Q :=
  pmap2 (fun e o => (e - o) / (2 * alpha))
        (evens (cropped channel_data)) (odds (cropped channel_data)).

(** [wm_normalized = cv2.normalize(wm_float, None, 0, 255, cv2.NORM_MINMAX)]:
    the float plane of line 58, before the cast to 8 bits. *)
Definition wm_normalized (channel_data : plane Q) (alpha : Q) : plane Q :=
  normalize_minmax (wm_float channel_data alpha) 0 255.

(** [recover_watermark_channel(channel_data, alpha)] on a 2-D array.  An
    array without rows, which no caller passes, is outside the model (it
    yields the empty plane here).  The arithmetic is exact: the source's
    [astype(np.float32)], its binary32 division and the binary32 scale and
    shift of [cv2.normalize] round, and the truncating cast can turn that
    rounding into a difference of one level in a sample;
    [Ieee.recover_watermark_channel] below has the rounding.  The shape of
    the result, and whether there is one, are the same in both. *)
Definition recover_watermark_channel (channel_data : plane Q) (alpha : Q)
    : option (plane Z) :=
  let h := length channel_data in
  if Nat.odd h && Nat.eqb (h - 1) 0 then None
  else
    let channel_data := cropped channel_data in
    let even := evens channel_data in
    let odd := odds channel_data in
    if negb (shape2_eqb (shape2 even) (shape2 odd)) then None
    else
      let wm_float := pmap2 (fun e o => (e - o) / (2 * alpha)) even odd in
      let wm_normalized := normalize_minmax wm_float 0 255 in
      Some (pmap astype_uint8 wm_normalized).

(** An uploaded file: its name and what [cv2.imdecode] makes of its bytes. *)
Record upload : Type := {
  filename : string;
  imdecode : option (image Z)
}.

Inductive response : Type :=
| SendColor (final_watermark : image Z)   (* extracted_watermark_rgb.png *)
| SendGray (watermark_y : plane Z)        (* extracted_watermark_gray.png *)
| Error400 (msg : string)
| Error500 (msg : string) (details : list string).

(** [if w is None: errors.append(msg)]. *)
Definition failed (w : option (plane Z)) (msg : string) : list string :=
  match w with None => [msg] | Some _ => [] end.

Section WithOpenCV.
Context {cv : OpenCV}.
(** [cv2.imencode(".png", .)[0]] for a colour and for a single-channel array. *)
Variable imencode_color : image Z -> bool.
Variable imencode_gray : plane Z -> bool.

(** The [/extract] route; [files_image] is [request.files.get('image')]. *)
Definition extract_watermark (files_image : option upload) : response :=
  match files_image with
  | None => Error400 "No image file uploaded"
  | Some image_file =>
    if String.eqb (filename image_file) "" then Error400 "No file selected"
    else
      match imdecode image_file with
      | None => Error400 "Invalid image format or unable to decode"
      | Some image_bgr =>
        let image_ycrcb := cvtColor_BGR2YCrCb image_bgr in
        let y_channel := channel0 image_ycrcb in
        let cr_channel := channel1 image_ycrcb in
        let cb_channel := channel2 image_ycrcb in
        let watermark_y := recover_watermark_channel (to_float y_channel) ALPHA in
        let watermark_cr := recover_watermark_channel (to_float cr_channel) ALPHA in
        let watermark_cb := recover_watermark_channel (to_float cb_channel) ALPHA in
        match watermark_y, watermark_cr, watermark_cb with
        | Some wy, Some wcr, Some wcb =>
          (* cv2.merge raises cv2.error on planes of different sizes *)
          if negb (shape2_eqb (shape2 wy) (shape2 wcr)
                   && shape2_eqb (shape2 wy) (shape2 wcb))
          then Error500 "Image processing error" []
          else
            let recovered_ycrcb := merge3 wy wcr wcb in
            match cvtColor_YCrCb2BGR recovered_ycrcb with
            | None =>
                if imencode_gray wy then SendGray wy
                else Error500 "Failed to encode fallback grayscale watermark" []
            | Some recovered_bgr =>
                let final_watermark :=
                  cv2_resize_u8 recovered_bgr
                    (snd EXPECTED_WATERMARK_SHAPE, fst EXPECTED_WATERMARK_SHAPE) in
                if imencode_color final_watermark then SendColor final_watermark
                else Error500 "Failed to encode extracted watermark" []
            end
        | _, _, _ =>
          Error500 "Failed to extract watermark."
            (failed watermark_y "Y channel recovery failed."
             ++ failed watermark_cr "Cr channel recovery failed."
             ++ failed watermark_cb "Cb channel recovery failed.")
        end
      end
  end.

End WithOpenCV.
End ExtractBackend.

(** ** verify_backend.py *)

Module VerifyBackend.

Inductive verdict : Type := Authentic | Tampered.

(** The metric fields of the JSON result. *)
Record result : Type := {
  psnr : Q;
  ssim : Q;
  correlation : pyfloat;
  status : verdict
}.

Inductive response : Type :=
| SendJson (r : result)
| Error400 (msg : string)
| Error500.   (* "Internal server error during verification." *)

Definition PIXEL_MAX : Q := 255.

(** [arr.flatten()] of an H x W x 3 array. *)
Definition flatten (img : image Z) : list Z :=
  concat (map (fun px => [ch0 px; ch1 px; ch2 px]) (concat img)).

Definition qsum (l : list Q) : Q := fold_right Qplus 0 l.

(** [np.mean((a.astype("float") - b.astype("float")) ** 2)], for two
    non-empty arrays of one shape (what [cv2.resize] establishes). *)
Definition mean_squared_error (a b : image Z) : Q :=
  let d := map2 (fun x y => (inject_Z x - inject_Z y) ^ 2) (flatten a) (flatten b) in
  qsum d / inject_Z (Z.of_nat (length d)).

(** The decision rule of line 72. *)
Definition decide (psnr_value ssim_value : Q) (correlation : pyfloat) : verdict :=
  if Qle_bool 30 psnr_value && Qle_bool (95 # 100) ssim_value
     && fge correlation (98 # 100)
  then Authentic else Tampered.

Section WithLibraries.
Context {cv : OpenCV} {mt : Metrics}.

(** What Flask hands over for one form field: [None] when the field is
    absent, else what [cv2.imdecode] makes of the bytes ([None] when they do
    not decode). *)
Definition file := option (option (image Z)).

(** The [/verify] route, up to the metrics and the status; the PDF report
    that follows does not change them. *)
Definition verify_watermarks (initial_watermark_file extracted_watermark_file : file)
    : response :=
  match initial_watermark_file, extracted_watermark_file with
  | Some initial, Some extracted =>
    match initial, extracted with
    | Some initial_watermark, Some extracted_watermark =>
      let extracted_watermark :=
        cv2_resize_u8 extracted_watermark
          (snd (fst (shape3 initial_watermark)), fst (fst (shape3 initial_watermark))) in
      let mse := mean_squared_error initial_watermark extracted_watermark in
      let psnr_value :=
        if Qeq_bool mse 0 then 99999 # 100
        else 10 * log10 (PIXEL_MAX ^ 2 / mse) in
      match structural_similarity initial_watermark extracted_watermark with
      | None => Error500
      | Some ssim_value =>
        let correlation :=
          corrcoef (flatten initial_watermark) (flatten extracted_watermark) in
        SendJson {| psnr := psnr_value;
                    ssim := ssim_value;
                    correlation := correlation;
                    status := decide psnr_value ssim_value correlation |}
      end
    | _, _ => Error400 "Error reading the images"
    end
  | _, _ => Error400 "Both watermark images are required"
  end.

End WithLibraries.
End VerifyBackend.

(** ** What the proofs use of the libraries *)

(** Shape contracts of the OpenCV routines on non-empty arrays. *)
Class OpenCVSpec (cv : OpenCV) : Prop := {
  resize_shape : forall p h0 w0 w h,
    has_shape h0 w0 p -> (0 < h0)%nat -> (0 < w0)%nat -> (0 < w)%nat -> (0 < h)%nat ->
    has_shape h w (cv2_resize p (w, h));
  blur_shape : forall p h w,
    has_shape h w p -> has_shape h w (GaussianBlur p);
  BGR2YCrCb_shape : forall img h w,
    has_shape h w img -> has_shape h w (cvtColor_BGR2YCrCb img);
  YCrCb2BGR_total : forall img h w,
    has_shape h w img -> (0 < h)%nat -> (0 < w)%nat ->
    exists out, cvtColor_YCrCb2BGR img = Some out /\ has_shape h w out;
  resize_u8_shape : forall img h0 w0 w h,
    has_shape h0 w0 img -> (0 < h0)%nat -> (0 < w0)%nat -> (0 < w)%nat -> (0 < h)%nat ->
    has_shape h w (cv2_resize_u8 img (w, h));
  resize_u8_same : forall img h w,
    has_shape h w img -> (0 < h)%nat -> (0 < w)%nat ->
    cv2_resize_u8 img (w, h) = img
}.

(** All samples of a flattened array are equal. *)
Definition constant (l : list Z) : Prop :=
  forall a b, In a l -> In b l -> a = b.

(** The metric routines on identical and on constant inputs: SSIM of an
    image with itself is 1 once the 7 x 7 window fits; Pearson correlation
    is 0 / 0 = NaN when a sequence has zero variance, and 1 for a
    non-constant sequence against itself. *)
Class MetricsSpec (mt : Metrics) : Prop := {
  ssim_self : forall img h w,
    has_shape h w img -> (7 <= h)%nat -> (7 <= w)%nat ->
    exists s, structural_similarity img img = Some s /\ s == 1;
  corrcoef_constant : forall x y,
    constant x -> corrcoef x y = NaN;
  corrcoef_self : forall x,
    ~ constant x -> exists c, corrcoef x x = Fin c /\ c == 1
}.

(** ** Executable instances of the library routines *)

Module Reference.

(** Nearest-neighbour resampling of a list to [n] entries. *)
Definition resample {A} (d : A) (l : list A) (n : nat) : list A :=
  map (fun i => nth (i * length l / n) l d) (seq 0 n).

Definition nearest_resize {A} (d : A) (p : list (list A)) (dsize : nat * nat)
    : list (list A) :=
  map (fun row => resample d row (fst dsize)) (resample [] p (snd dsize)).

(** Border index of OpenCV's default [BORDER_REFLECT_101]. *)
Definition reflect101 (n : nat) (i : Z) : nat :=
  let p := (2 * (Z.of_nat n - 1))%Z in
  if (p =? 0)%Z then 0%nat
  else let m := (i mod p)%Z in
       Z.to_nat (if (m <? Z.of_nat n)%Z then m else (p - m)%Z).

(** The 5-tap binomial kernel [1 4 6 4 1] / 16. *)
Definition tap5 (at_ : Z -> Q) (i : Z) : Q :=
  (at_ (i - 2)%Z + 4 * at_ (i - 1)%Z + 6 * at_ i + 4 * at_ (i + 1)%Z
   + at_ (i + 2)%Z) / 16.

Definition blur_rows (p : plane Q) : plane Q :=
  map (fun r =>
         map (fun j => tap5 (fun k => nth (reflect101 (length r) k) r 0) (Z.of_nat j))
             (seq 0 (length r))) p.

Definition blur_cols (p : plane Q) : plane Q :=
  map (fun i =>
         map (fun j => tap5 (fun k => get p (reflect101 (length p) k) j) (Z.of_nat i))
             (seq 0 (length (nth i p []))))
      (seq 0 (length p)).

Definition binomial_blur (p : plane Q) : plane Q := blur_cols (blur_rows p).

(** Round half up and saturate to 0..255. *)
Definition saturate_round (q : Q) : Z :=
  Z.max 0 (Z.min 255 (Qfloor (q + (1 # 2)))).

(** BT.601 luma / chroma of a (B, G, R) pixel, as (Y, Cr, Cb). *)
Definition bgr_to_ycrcb (px : pixel Z) : pixel Z :=
  let b := inject_Z (ch0 px) in
  let g := inject_Z (ch1 px) in
  let r := inject_Z (ch2 px) in
  let y := (299 # 1000) * r + (587 # 1000) * g + (114 # 1000) * b in
  (saturate_round y,
   saturate_round ((r - y) * (713 # 1000) + 128),
   saturate_round ((b - y) * (564 # 1000) + 128)).

Definition ycrcb_to_bgr (px : pixel Z) : pixel Z :=
  let y := inject_Z (ch0 px) in
  let cr := inject_Z (ch1 px) - 128 in
  let cb := inject_Z (ch2 px) - 128 in
  (saturate_round (y + (1773 # 1000) * cb),
   saturate_round (y - (714 # 1000) * cr - (344 # 1000) * cb),
   saturate_round (y + (1403 # 1000) * cr)).

Definition is_empty {A} (p : list (list A)) : bool :=
  Nat.eqb (length p) 0 || Nat.eqb (length (hd [] p)) 0.

#[export] Instance opencv : OpenCV := {
  cv2_resize := nearest_resize 0;
  GaussianBlur := binomial_blur;
  cvtColor_BGR2YCrCb := pmap bgr_to_ycrcb;
  cvtColor_YCrCb2BGR := fun img =>
    if is_empty img then None else Some (pmap ycrcb_to_bgr img);
  cv2_resize_u8 := nearest_resize (0, 0, 0)%Z
}.

(** Mean structural similarity with a 7 x 7 uniform window, sample
    covariance, K1 = 0.01, K2 = 0.03 and data range 255, averaged over the
    window positions inside the image and then over the channels. *)
Definition mean (l : list Q) : Q :=
  VerifyBackend.qsum l / inject_Z (Z.of_nat (length l)).

Definition window (p : plane Q) (i j : nat) : list Q :=
  concat (map (fun r => firstn 7 (skipn j r)) (firstn 7 (skipn i p))).

Definition ssim_C1 : Q := ((1 # 100) * 255) ^ 2.
Definition ssim_C2 : Q := ((3 # 100) * 255) ^ 2.
Definition cov_norm : Q := 49 # 48.

Definition ssim_window (wx wy : list Q) : Q :=
  let ux := mean wx in
  let uy := mean wy in
  let vx := cov_norm * (mean (map2 Qmult wx wx) - ux * ux) in
  let vy := cov_norm * (mean (map2 Qmult wy wy) - uy * uy) in
  let vxy := cov_norm * (mean (map2 Qmult wx wy) - ux * uy) in
  ((2 * ux * uy + ssim_C1) * (2 * vxy + ssim_C2))
  / ((ux * ux + uy * uy + ssim_C1) * (vx + vy + ssim_C2)).

Definition ssim_channel (x y : plane Q) : Q :=
  mean (flat_map
          (fun i => map (fun j => ssim_window (window x i j) (window y i j))
                        (seq 0 (length (hd [] x) - 6)))
          (seq 0 (length x - 6))).

Definition mean_ssim (a b : image Z) : option Q :=
  if negb (shape3_eqb (shape3 a) (shape3 b)) then None
  else if Nat.ltb (length a) 7 || Nat.ltb (length (hd [] a)) 7 then None
  else Some ((ssim_channel (to_float (channel0 a)) (to_float (channel0 b))
              + ssim_channel (to_float (channel1 a)) (to_float (channel1 b))
              + ssim_channel (to_float (channel2 a)) (to_float (channel2 b))) / 3).

Definition zsum (l : list Z) : Z := fold_right Z.add 0%Z l.

(** [n * sum(x * y) - sum x * sum y]: the covariance scaled by [n^2]. *)
Definition scaled_cov (x y : list Z) : Z :=
  (Z.of_nat (length x) * zsum (map2 Z.mul x y) - zsum x * zsum y)%Z.

(** Pearson correlation with the square root taken in fixed point (52
    fractional bits), clipped to [-1, 1] as NumPy does. *)
Definition pearson (x y : list Z) : pyfloat :=
  let vx := scaled_cov x x in
  let vy := scaled_cov y y in
  if (vx =? 0)%Z || (vy =? 0)%Z then NaN
  else
    let r := (scaled_cov x y * 2 ^ 52)%Z # Z.to_pos (Z.sqrt (vx * vy * 2 ^ 104)) in
    Fin (qmax (-1) (qmin 1 r)).

(** Base-2 logarithm in fixed point: [m / 2^62] lies in [1, 2); each round
    squares it and emits one fractional bit. *)
Fixpoint log2_bits (bits : nat) (m : Z) : Z :=
  match bits with
  | O => 0
  | S k =>
      let m2 := (m * m / 2 ^ 62)%Z in
      if (2 ^ 63 <=? m2)%Z
      then (2 ^ Z.of_nat k + log2_bits k (m2 / 2))%Z
      else log2_bits k m2
  end.

Definition log2_fixed (x : Q) : Q :=
  let t := Qfloor (x * inject_Z (2 ^ 64)) in
  if (t <=? 0)%Z then 0
  else
    let e := Z.log2 t in
    let m := (t * 2 ^ 62 / 2 ^ e)%Z in
    inject_Z (e - 64) + (log2_bits 32 m # 2 ^ 32).

Definition log10_fixed (x : Q) : Q := log2_fixed x / log2_fixed 10.

#[export] Instance metrics : Metrics := {
  log10 := log10_fixed;
  structural_similarity := mean_ssim;
  corrcoef := pearson
}.

(** A uniform image. *)
Definition solid {A} (h w : nat) (px : A) : list (list A) := repeat (repeat px w) h.

(** Sum of the squared distances to [a], and the length of a list as a
    rational; both serve the variance arguments. *)
Definition sq_dist (a : Z) (l : list Z) : Z :=
  zsum (map (fun x => (x - a) * (x - a))%Z l).

Definition qcount (l : list Q) : Q := inject_Z (Z.of_nat (length l)).

End Reference.

(** ** Vocabulary of the statements *)

(** Two pixels agree within [eps] on every channel. *)
Definition px_close (eps : Q) (x y : pixel Q) : Prop :=
  Qabs (ch0 x - ch0 y) <= eps /\ Qabs (ch1 x - ch1 y) <= eps
  /\ Qabs (ch2 x - ch2 y) <= eps.

Definition matrix_close (eps : Q) (a b : EmbedBackend.matrix3) : Prop :=
  px_close eps (ch0 a) (ch0 b) /\ px_close eps (ch1 a) (ch1 b)
  /\ px_close eps (ch2 a) (ch2 b).

(** Every channel of a pixel is in the 8-bit range. *)
Definition sample_range (x : pixel Q) : Prop :=
  (0 <= ch0 x <= 255) /\ (0 <= ch1 x <= 255) /\ (0 <= ch2 x <= 255).

(** The row-difference plane [even - odd] that [recover_watermark_channel]
    forms (after the odd-height crop), and the spread of its values. *)
Definition row_difference (channel_data : plane Q) : plane Q :=
  pmap2 Qminus (evens (ExtractBackend.cropped channel_data))
               (odds (ExtractBackend.cropped channel_data)).

Definition spread (p : plane Q) : Q :=
  ExtractBackend.max_of (concat p) - ExtractBackend.min_of (concat p).

(** Every sample of a plane equals [c]. *)
Definition all_equal (c : Q) (p : plane Q) : Prop :=
  Forall (Forall (fun v => v == c)) p.

(** An 8-bit sample in the middle of the range. *)
Definition mid_gray (v : Z) : Prop := (127 <= v <= 128)%Z.

(** Plane [q] is plane [p] scaled by [r], sample by sample. *)
Definition scaled_by (r : Q) (p q : plane Z) : Prop :=
  Forall2 (Forall2 (fun x y => inject_Z y == r * inject_Z x)) p q.

(** ** Sample inputs *)

Module Samples.

(** An image whose samples vary from pixel to pixel. *)
Definition ramp (h w : nat) : image Z :=
  map (fun i =>
         map (fun j => (Z.of_nat (i * w + j), Z.of_nat (i + j), Z.of_nat (2 * j)))
             (seq 0 w))
      (seq 0 h).

Definition gray8 : image Z := Reference.solid 8 8 (7, 7, 7)%Z.

Definition cover_a : plane Q := [[10; 20; 30]; [12; 18; 34]].
Definition cover_b : plane Q := [[200; 100; 0]; [50; 60; 70]].
Definition payload_1x3 : plane Q := [[0; 16; 32]].
Definition payload_2x2 : plane Q := [[0; 16]; [32; 48]].

Definition marked_png : ExtractBackend.upload :=
  {| ExtractBackend.filename := "marked.png";
     ExtractBackend.imdecode := Some (ramp 4 4) |}.

End Samples.

(** ** Requests and further vocabulary *)

(** [request.files] of Flask: the uploaded files by form key; a lookup
    returns the first file posted under the key. *)
Module Flask.

Fixpoint get {A} (key : string) (files : list (string * A)) : option A :=
  match files with
  | [] => None
  | (k, v) :: rest => if String.eqb k key then Some v else get key rest
  end.

End Flask.

(** The [/extract] route on the files of a request. *)
Definition extract_request {cv : OpenCV} (imencode_color : image Z -> bool)
    (imencode_gray : plane Z -> bool)
    (files : list (string * ExtractBackend.upload)) : ExtractBackend.response :=
  ExtractBackend.extract_watermark imencode_color imencode_gray
    (Flask.get "image" files).

(** The HTTP status of a response of the [/extract] route. *)
Definition status_code (r : ExtractBackend.response) : nat :=
  match r with
  | ExtractBackend.SendColor _ | ExtractBackend.SendGray _ => 200
  | ExtractBackend.Error400 _ => 400
  | ExtractBackend.Error500 _ _ => 500
  end.

(** The sum of all samples of a plane. *)
Definition plane_sum (p : plane Q) : Q := VerifyBackend.qsum (concat p).

(** A pixel with three equal channels. *)
Definition gray (x : pixel Q) : Prop := ch0 x == ch1 x /\ ch1 x == ch2 x.

(** The request of [test_integration.py] to [/extract]: one file, posted
    under the key ["embedded_image"]. *)
Definition integration_extract_files (watermarked : ExtractBackend.upload)
    : list (string * ExtractBackend.upload) :=
  [("embedded_image"%string, watermarked)].

(** The squared difference of two samples, as [mean_squared_error] forms it. *)
Definition sq_diff (x y : Z) : Q := (inject_Z x - inject_Z y) ^ 2.

(** The metrics of [/verify] on two decoded images, as lines 50 to 69 of
    [verify_backend.py] compute them: the extracted image is first resized
    to the reference's size. *)
Module Computed.
Section WithLibraries.
Context {cv : OpenCV} {mt : Metrics}.

Definition resized (initial_watermark extracted_watermark : image Z) : image Z :=
  cv2_resize_u8 extracted_watermark
    (snd (fst (shape3 initial_watermark)), fst (fst (shape3 initial_watermark))).

Definition mse (initial_watermark extracted_watermark : image Z) : Q :=
  VerifyBackend.mean_squared_error initial_watermark
    (resized initial_watermark extracted_watermark).

Definition psnr_value (initial_watermark extracted_watermark : image Z) : Q :=
  if Qeq_bool (mse initial_watermark extracted_watermark) 0 then 99999 # 100
  else 10 * log10 (VerifyBackend.PIXEL_MAX ^ 2 / mse initial_watermark extracted_watermark).

(** [None] where [structural_similarity] raises. *)
Definition ssim_value (initial_watermark extracted_watermark : image Z) : option Q :=
  structural_similarity initial_watermark
    (resized initial_watermark extracted_watermark).

Definition correlation (initial_watermark extracted_watermark : image Z) : pyfloat :=
  corrcoef (VerifyBackend.flatten initial_watermark)
           (VerifyBackend.flatten (resized initial_watermark extracted_watermark)).

(** The three thresholds of line 72 on these metrics. *)
Definition all_pass (initial_watermark extracted_watermark : image Z) (s : Q) : Prop :=
  30 <= psnr_value initial_watermark extracted_watermark
  /\ (95 # 100) <= s
  /\ exists c, correlation initial_watermark extracted_watermark = Fin c
               /\ (98 # 100) <= c.

End WithLibraries.
End Computed.

(** ** IEEE arithmetic of the embedding and recovery kernels

    The rational model above keeps every arithmetic step but not its
    rounding.  This module repeats the two kernels with the rounding the
    source has: binary64 for [embedd_matrix] ([np.float64]), binary32 for
    [recover_watermark_channel] ([astype(np.float32)]), each operation
    correctly rounded to nearest-even as specified by [SpecFloat].
    [cv2.normalize] multiplies and adds in binary32; OpenCV does so with or
    without a fused multiply-add, depending on the CPU, hence [fused]. *)

Module Ieee.

Definition float : Type := SpecFloat.spec_float.

Section Format.
Variables prec emax : Z.

(** The float of an integer. *)
Definition of_Z (z : Z) : float := SpecFloat.binary_normalize prec emax z 0 false.

(** A float of another format rounded to this one. *)
Definition convert (x : float) : float :=
  match x with
  | SpecFloat.S754_finite s m e =>
      SpecFloat.binary_normalize prec emax (SpecFloat.cond_Zopp s (Zpos m)) e s
  | _ => x
  end.

End Format.

Definition f64_add : float -> float -> float := SpecFloat.SFadd 53 1024.
Definition f64_sub : float -> float -> float := SpecFloat.SFsub 53 1024.
Definition f64_mul : float -> float -> float := SpecFloat.SFmul 53 1024.
Definition f64_div : float -> float -> float := SpecFloat.SFdiv 53 1024.
Definition f32_add : float -> float -> float := SpecFloat.SFadd 24 128.
Definition f32_sub : float -> float -> float := SpecFloat.SFsub 24 128.
Definition f32_mul : float -> float -> float := SpecFloat.SFmul 24 128.
Definition f32_div : float -> float -> float := SpecFloat.SFdiv 24 128.

Definition f64_of_Z : Z -> float := of_Z 53 1024.

(** The double nearest to a rational: a Python float literal, or
    [np.float64] of a sample. *)
Definition f64_of_Q (q : Q) : float :=
  f64_div (f64_of_Z (Qnum q)) (f64_of_Z (Zpos (Qden q))).

(** [astype(np.float32)] and C's [(float)x]; [(double)x] of a float. *)
Definition to_f32 : float -> float := convert 24 128.
Definition to_f64 : float -> float := convert 53 1024.

(** [x * y + z] in binary32 with a single rounding. *)
Definition f32_fma (x y z : float) : float :=
  match x, y, z with
  | SpecFloat.S754_finite sx mx ex, SpecFloat.S754_finite sy my ey,
    SpecFloat.S754_finite sz mz ez =>
      let ep := (ex + ey)%Z in
      let e := Z.min ep ez in
      SpecFloat.binary_normalize 24 128
        (SpecFloat.cond_Zopp (xorb sx sy) (Z.shiftl (Zpos (mx * my)) (ep - e))
         + SpecFloat.cond_Zopp sz (Z.shiftl (Zpos mz) (ez - e)))%Z
        e false
  | _, _, _ => f32_add (f32_mul x y) z
  end.

(** C cast of a float to an integer (truncation), then [np.uint8]. *)
Definition truncate (x : float) : Z :=
  match x with
  | SpecFloat.S754_finite s m e =>
      SpecFloat.cond_Zopp s
        (match e with
         | Zneg k => Z.shiftr (Zpos m) (Zpos k)
         | _ => Z.shiftl (Zpos m) e
         end)
  | _ => 0%Z
  end.

Definition astype_uint8 (x : float) : Z := (truncate x) mod 256.

Definition fmin (a b : float) : float := if SpecFloat.SFleb a b then a else b.
Definition fmax (a b : float) : float := if SpecFloat.SFleb a b then b else a.
Definition min_of (l : list float) : float :=
  match l with [] => SpecFloat.S754_zero false | x :: t => fold_left fmin t x end.
Definition max_of (l : list float) : float :=
  match l with [] => SpecFloat.S754_zero false | x :: t => fold_left fmax t x end.

Definition DBL_EPSILON : float := f64_div (f64_of_Z 1) (f64_of_Z (2 ^ 52)).

(** [cv2.normalize(src, None, a, b, cv2.NORM_MINMAX)] on a binary32 array:
    the extrema and the scale are doubles, [scale] and [shift] are then
    rounded to binary32 and [dst = src * scale + shift] is formed in
    binary32. *)
Definition normalize_minmax (fused : bool) (src : plane float) (a b : float)
    : plane float :=
  let smin := to_f64 (min_of (concat src)) in
  let smax := to_f64 (max_of (concat src)) in
  let dmin := fmin a b in
  let dmax := fmax a b in
  let scale :=
    f64_mul (f64_sub dmax dmin)
      (if SpecFloat.SFltb DBL_EPSILON (f64_sub smax smin)
       then f64_div (f64_of_Z 1) (f64_sub smax smin)
       else SpecFloat.S754_zero false) in
  let scale := to_f32 scale in
  let shift := f32_sub (to_f32 dmin) (to_f32 (f64_mul smin (to_f64 scale))) in
  pmap (fun v => if fused then f32_fma v scale shift
                 else f32_add (f32_mul v scale) shift) src.

(** [recover_watermark_channel(channel_data, alpha)] with its roundings;
    [alpha] is the Python float. *)
Definition recover_watermark_channel (fused : bool) (channel_data : plane float)
    (alpha : float) : option (plane Z) :=
  let h := length channel_data in
  if Nat.odd h && Nat.eqb (h - 1) 0 then None
  else
    let channel_data := if Nat.odd h then drop_last channel_data else channel_data in
    let channel_data_float := pmap to_f32 channel_data in
    let even := evens channel_data_float in
    let odd := odds channel_data_float in
    if negb (shape2_eqb (shape2 even) (shape2 odd)) then None
    else
      let wm_float :=
        pmap2 (fun e o => f32_div (f32_sub e o) (to_f32 (f64_mul (f64_of_Z 2) alpha)))
              even odd in
      let wm_normalized :=
        normalize_minmax fused wm_float (f64_of_Z 0) (f64_of_Z 255) in
      Some (pmap astype_uint8 wm_normalized).

(** [embedd_matrix(COVER, WATERMARK, alpha)] on a binary64 cover plane. *)
Definition embedd_matrix {cv : OpenCV} (COVER : plane float) (WATERMARK : plane Q)
    (alpha : float) : option (plane float) :=
  let even := evens COVER in
  let odd := odds COVER in
  let WATERMARK :=
    if negb (shape2_eqb (shape2 even) (shape2 WATERMARK))
    then cv2_resize WATERMARK (snd (shape2 even), fst (shape2 even))
    else WATERMARK in
  let WATERMARK := GaussianBlur WATERMARK in
  let WATERMARK := pmap (fun v => f64_mul (f64_of_Q v) alpha) WATERMARK in
  if shape2_eqb (shape2 even) (shape2 odd)
     && shape2_eqb (shape2 even) (shape2 WATERMARK)
  then
    let base := pmap2 (fun e o => f64_div (f64_add e o) (f64_of_Z 2)) even odd in
    Some (interleave (pmap2 f64_add base WATERMARK) (pmap2 f64_sub base WATERMARK))
  else None.

(** An integer plane as a float plane. *)
Definition plane_of_Z (p : plane Z) : plane float := pmap f64_of_Z p.

End Ieee.

(** Sample inputs of the float kernels, and embedding followed by recovery
    with one alpha. *)
Module FloatSamples.

Definition alpha_007 : Ieee.float := Ieee.f64_of_Q (7 # 100).
Definition alpha_half : Ieee.float := Ieee.f64_of_Q (1 # 2).
Definition alpha_quarter : Ieee.float := Ieee.f64_of_Q (1 # 4).

Definition payload_1x4 : plane Q := [[0; 0; 0; 16]].
Definition cover_zero : plane Z := [[0; 0; 0; 0]; [0; 0; 0; 0]]%Z.
Definition cover_c : plane Z := [[209; 82; 56; 44]; [123; 52; 51; 10]]%Z.
Definition cover_huge : plane Z :=
  [[2 ^ 30; 2 ^ 30; 2 ^ 30; 2 ^ 30]; [2 ^ 30; 2 ^ 30; 2 ^ 30; 2 ^ 30]]%Z.
Definition cover_a : plane Z := [[10; 20; 30]; [12; 18; 34]]%Z.
Definition rows_a : plane Z := [[0; 0; 0]; [55; 53; 52]]%Z.
Definition rows_b : plane Z := [[0; 0; 0]; [9; 8; 4]]%Z.

Definition round_trip (fused : bool) (COVER : plane Z) (WATERMARK : plane Q)
    (alpha : Ieee.float) : option (plane Z) :=
  match Ieee.embedd_matrix (cv := Reference.opencv) (Ieee.plane_of_Z COVER)
          WATERMARK alpha with
  | Some embedded => Ieee.recover_watermark_channel fused embedded alpha
  | None => None
  end.

End FloatSamples.

(** An integer that binary32 holds exactly: at most 24 significant bits. *)
Definition float32_exact (v : Z) : Prop := (Z.abs v <= 2 ^ 24)%Z.

(** * Properties *)

(** ** Lists and arrays *)

Module NdarrayFacts.

Lemma evens_cons2 {A} (x y : A) l : evens (x :: y :: l) = x :: evens l.
Proof. reflexivity. Qed.

Lemma odds_cons2 {A} (x y : A) l : odds (x :: y :: l) = y :: odds l.
Proof. destruct l; reflexivity. Qed.

(** Induction two elements at a time. *)
Lemma list_ind2 {A} (P : list A -> Prop) :
  P [] -> (forall x, P [x]) -> (forall x y l, P l -> P (x :: y :: l)) ->
  forall l, P l.
Proof.
  intros H0 H1 H2 l.
  assert (H : P l /\ forall x, P (x :: l)).
  { induction l as [|a l [IH1 IH2]]; split; auto. }
  apply H.
Qed.

Lemma nth_evens {A} (d : A) l : forall i, nth i (evens l) d = nth (2 * i) l d.
Proof.
  induction l as [| x | x y l IH] using list_ind2; intros i.
  - destruct i; reflexivity.
  - destruct i as [|i]; [reflexivity|].
    simpl evens. replace (2 * S i)%nat with (S (S (2 * i))) by lia.
    destruct i; reflexivity.
  - rewrite evens_cons2. destruct i as [|i]; [reflexivity|].
    replace (2 * S i)%nat with (S (S (2 * i))) by lia. simpl nth at 1 2.
    apply IH.
Qed.

Lemma nth_odds {A} (d : A) l i : nth i (odds l) d = nth (2 * i + 1) l d.
Proof.
  unfold odds. rewrite nth_evens. destruct l as [|x l].
  - destruct (2 * i)%nat; destruct (2 * i + 1)%nat; reflexivity.
  - replace (2 * i + 1)%nat with (S (2 * i)) by lia. reflexivity.
Qed.

Lemma length_evens_odds {A} (l : list A) k :
  length l = (2 * k)%nat -> length (evens l) = k /\ length (odds l) = k.
Proof.
  revert k. induction l as [| x | x y l IH] using list_ind2; intros k Hk.
  - simpl in Hk. assert (k = 0%nat) by lia. subst. split; reflexivity.
  - simpl in Hk. lia.
  - destruct k as [|k]; [simpl in Hk; lia|].
    rewrite evens_cons2, odds_cons2. simpl in *.
    destruct (IH k) as [He Ho]; [lia|]. split; f_equal; assumption.
Qed.

Lemma Forall_evens {A} (P : A -> Prop) l : Forall P l -> Forall P (evens l).
Proof.
  induction l as [| x | x y l IH] using list_ind2; intros H.
  - constructor.
  - assumption.
  - rewrite evens_cons2. inversion H as [|? ? Hx Hr]; subst.
    inversion Hr; subst. constructor; auto.
Qed.

Lemma Forall_odds {A} (P : A -> Prop) l : Forall P l -> Forall P (odds l).
Proof.
  intros H. unfold odds. apply Forall_evens.
  destruct l; [constructor | now inversion H].
Qed.

Lemma has_shape_evens {A} (p : list (list A)) k w :
  has_shape (2 * k) w p -> has_shape k w (evens p).
Proof.
  intros [Hl Hr]. split; [apply (length_evens_odds p k Hl) | now apply Forall_evens].
Qed.

Lemma has_shape_odds {A} (p : list (list A)) k w :
  has_shape (2 * k) w p -> has_shape k w (odds p).
Proof.
  intros [Hl Hr]. split; [apply (length_evens_odds p k Hl) | now apply Forall_odds].
Qed.

Lemma shape2_has_shape {A} (p : list (list A)) h w :
  has_shape h w p -> (0 < h)%nat -> shape2 p = (h, w).
Proof.
  intros [Hl Hr] Hh. unfold shape2. destruct p as [|r p]; simpl in *; [lia|].
  inversion Hr; subst. reflexivity.
Qed.

Lemma shape2_eqb_refl s : shape2_eqb s s = true.
Proof. unfold shape2_eqb. now rewrite !Nat.eqb_refl. Qed.

Lemma shape2_eqb_eq s t : shape2_eqb s t = true <-> s = t.
Proof.
  destruct s, t. unfold shape2_eqb. simpl.
  rewrite andb_true_iff, !Nat.eqb_eq. split; [intros []; congruence | intros [= -> ->]; auto].
Qed.

Lemma shape3_eqb_eq s t : shape3_eqb s t = true <-> s = t.
Proof.
  destruct s as [[a b] c], t as [[a' b'] c']. unfold shape3_eqb. simpl.
  rewrite !andb_true_iff, !Nat.eqb_eq.
  split; [intros [[] ?]; congruence | intros [= -> -> ->]; auto].
Qed.

Lemma length_map2 {A B C} (f : A -> B -> C) l m :
  length (map2 f l m) = Nat.min (length l) (length m).
Proof.
  revert m. induction l as [|x l IH]; intros [|y m]; simpl; auto.
Qed.

Lemma nth_map2 {A B C} (f : A -> B -> C) l m i da db dc :
  (i < length l)%nat -> (i < length m)%nat ->
  nth i (map2 f l m) dc = f (nth i l da) (nth i m db).
Proof.
  revert m i. induction l as [|x l IH]; intros [|y m] [|i] Hl Hm; simpl in *; try lia; auto.
  apply IH; lia.
Qed.

Lemma rect_nth {A} (p : list (list A)) w i :
  rect w p -> (i < length p)%nat -> length (nth i p []) = w.
Proof.
  intros Hr Hi. unfold rect in Hr. rewrite Forall_forall in Hr.
  apply Hr. now apply nth_In.
Qed.

Lemma has_shape_pmap {A B} (f : A -> B) p h w :
  has_shape h w p -> has_shape h w (pmap f p).
Proof.
  intros [Hl Hr]. split; unfold pmap.
  - now rewrite length_map.
  - unfold rect in *. rewrite Forall_map.
    eapply Forall_impl; [|exact Hr]. intros r Hw. simpl. now rewrite length_map.
Qed.

Lemma has_shape_pmap2 {A B C} (f : A -> B -> C) p q h w :
  has_shape h w p -> has_shape h w q -> has_shape h w (pmap2 f p q).
Proof.
  intros [Hl Hr] [Hl' Hr']. unfold pmap2. split.
  - rewrite length_map2. lia.
  - subst h. clear Hl'. revert q Hr'.
    induction Hr as [|r p Hrw Hr IH]; intros [|r' q] Hq; simpl; try constructor.
    + inversion Hq; subst. rewrite length_map2. lia.
    + inversion Hq; subst. now apply IH.
Qed.

Lemma get_pmap (f : Q -> Q) p i j h w :
  has_shape h w p -> (i < h)%nat -> (j < w)%nat ->
  get (pmap f p) i j = f (get p i j).
Proof.
  intros [Hl Hr] Hi Hj. unfold get, pmap.
  rewrite (nth_indep _ [] (map f [])) by (rewrite length_map; lia).
  rewrite map_nth.
  rewrite (nth_indep _ 0 (f 0)).
  - now rewrite map_nth.
  - rewrite length_map. rewrite (rect_nth p w i); auto; lia.
Qed.

Lemma get_pmap2 (f : Q -> Q -> Q) p q i j h w :
  has_shape h w p -> has_shape h w q -> (i < h)%nat -> (j < w)%nat ->
  get (pmap2 f p q) i j = f (get p i j) (get q i j).
Proof.
  intros [Hl Hr] [Hl' Hr'] Hi Hj. unfold get, pmap2.
  rewrite (nth_map2 _ p q i [] [] []) by lia.
  apply nth_map2.
  - rewrite (rect_nth p w i); auto; lia.
  - rewrite (rect_nth q w i); auto; lia.
Qed.

Lemma get_evens p i j : get (evens p) i j = get p (2 * i) j.
Proof. unfold get. now rewrite nth_evens. Qed.

Lemma get_odds p i j : get (odds p) i j = get p (2 * i + 1) j.
Proof. unfold get. now rewrite nth_odds. Qed.

Lemma length_interleave {A} (e o : list A) :
  length e = length o -> length (interleave e o) = (2 * length e)%nat.
Proof.
  revert o. induction e as [|x e IH]; intros [|y o] H; simpl in *; try lia.
  rewrite IH; lia.
Qed.

Lemma nth_interleave {A} (d : A) e o : length e = length o ->
  forall i, nth (2 * i) (interleave e o) d = nth i e d
            /\ nth (2 * i + 1) (interleave e o) d = nth i o d.
Proof.
  revert o. induction e as [|x e IH]; intros [|y o] H i; simpl in H; try lia.
  - simpl. destruct (2 * i)%nat, (2 * i + 1)%nat, i; auto.
  - destruct i as [|i]; [split; reflexivity|].
    replace (2 * S i)%nat with (S (S (2 * i))) by lia.
    replace (S (S (2 * i)) + 1)%nat with (S (S (2 * i + 1))) by lia.
    simpl. apply IH. lia.
Qed.

Lemma has_shape_interleave {A} (e o : list (list A)) k w :
  has_shape k w e -> has_shape k w o -> has_shape (2 * k) w (interleave e o).
Proof.
  intros [Hl Hr] [Hl' Hr']. split.
  - rewrite length_interleave; lia.
  - subst k. revert o Hl' Hr'.
    induction Hr as [|r e Hrw Hr IH]; intros [|r' o] Hl' Hr'; simpl in *; try lia.
    + constructor.
    + inversion Hr'; subst. do 2 (constructor; [auto|]).
      apply IH; [lia | assumption].
Qed.

(** Shape goals are closed from these lemmas. *)
Create HintDb shape.
#[export] Hint Resolve has_shape_evens has_shape_odds has_shape_pmap
  has_shape_pmap2 has_shape_interleave : shape.

(** The shape of a plane written out as a literal. *)
Ltac literal_shape := split; [reflexivity | repeat constructor].

End NdarrayFacts.
Import NdarrayFacts.

(** ** The row-parity embedding kernel *)

Module EmbedFacts.
Import EmbedBackend.

Section WithOpenCV.
Context {cv : OpenCV} {cvs : OpenCVSpec cv}.

(** The payload the kernel adds has the shape of [COVER[::2]]. *)
Lemma smoothed_payload_shape COVER WATERMARK k w h' w' :
  has_shape (2 * k) w COVER -> (0 < k)%nat -> (0 < w)%nat ->
  has_shape h' w' WATERMARK -> (0 < h')%nat -> (0 < w')%nat ->
  has_shape k w (smoothed_payload COVER WATERMARK).
Proof.
  intros HC Hk Hw HW Hh' Hw'. unfold smoothed_payload.
  apply blur_shape.
  rewrite (shape2_has_shape _ k w (has_shape_evens _ _ _ HC) Hk).
  rewrite (shape2_has_shape _ h' w' HW Hh'). simpl fst; simpl snd.
  destruct (shape2_eqb (k, w) (h', w')) eqn:E; simpl.
  - apply shape2_eqb_eq in E. injection E as -> ->. assumption.
  - eapply resize_shape; eauto.
Qed.

(** The value [embedd_matrix] returns on an even-height cover. *)
Lemma embedd_matrix_eq COVER WATERMARK alpha k w h' w' :
  has_shape (2 * k) w COVER -> (0 < k)%nat -> (0 < w)%nat ->
  has_shape h' w' WATERMARK -> (0 < h')%nat -> (0 < w')%nat ->
  let base := pmap2 (fun e o => (e + o) / 2) (evens COVER) (odds COVER) in
  let signal := pmap (fun v => v * alpha) (smoothed_payload COVER WATERMARK) in
  embedd_matrix COVER WATERMARK alpha
  = Some (interleave (pmap2 Qplus base signal) (pmap2 Qminus base signal)).
Proof.
  intros HC Hk Hw HW Hh' Hw' base signal. unfold embedd_matrix.
  pose proof (smoothed_payload_shape _ _ _ _ _ _ HC Hk Hw HW Hh' Hw') as HB.
  rewrite (shape2_has_shape _ k w (has_shape_evens _ _ _ HC) Hk).
  rewrite (shape2_has_shape _ k w (has_shape_odds _ _ _ HC) Hk).
  rewrite (shape2_has_shape _ k w (has_shape_pmap _ _ _ _ HB) Hk).
  rewrite shape2_eqb_refl. reflexivity.
Qed.

End WithOpenCV.
End EmbedFacts.

(** C2. On an even-height cover plane [embedd_matrix] returns a plane of
    the cover's shape in which every row pair (2i, 2i+1) keeps the average
    of the cover's pair, and whose difference of the two rows is
    [2 * alpha] times row [i] of the blurred (and, if its shape differed,
    resized) payload. *)
Theorem embedd_matrix_pair_average_and_difference
    {cv : OpenCV} {cvs : OpenCVSpec cv}
    (COVER WATERMARK : plane Q) (alpha : Q) (k w h' w' : nat) :
  has_shape (2 * k) w COVER -> (0 < k)%nat -> (0 < w)%nat ->
  has_shape h' w' WATERMARK -> (0 < h')%nat -> (0 < w')%nat ->
  exists out,
    EmbedBackend.embedd_matrix COVER WATERMARK alpha = Some out
    /\ has_shape (2 * k) w out
    /\ forall i j, (i < k)%nat -> (j < w)%nat ->
         (get out (2 * i) j + get out (2 * i + 1) j) / 2
           == (get COVER (2 * i) j + get COVER (2 * i + 1) j) / 2
         /\ get out (2 * i) j - get out (2 * i + 1) j
           == 2 * alpha * get (EmbedBackend.smoothed_payload COVER WATERMARK) i j.
Proof.
  intros HC Hk Hw HW Hh' Hw'.
  pose proof (EmbedFacts.smoothed_payload_shape _ _ _ _ _ _ HC Hk Hw HW Hh' Hw') as HB.
  pose proof (has_shape_evens _ _ _ HC) as He.
  pose proof (has_shape_odds _ _ _ HC) as Ho.
  set (B := EmbedBackend.smoothed_payload COVER WATERMARK) in *.
  set (base := pmap2 (fun e o => (e + o) / 2) (evens COVER) (odds COVER)).
  set (signal := pmap (fun v => v * alpha) B).
  assert (Hbase : has_shape k w base) by now apply has_shape_pmap2.
  assert (Hsig : has_shape k w signal) by now apply has_shape_pmap.
  exists (interleave (pmap2 Qplus base signal) (pmap2 Qminus base signal)).
  split; [now apply (EmbedFacts.embedd_matrix_eq _ _ _ k w h' w')|].
  split; [apply has_shape_interleave; now apply has_shape_pmap2|].
  intros i j Hi Hj.
  assert (Hlen : length (pmap2 Qplus base signal) = length (pmap2 Qminus base signal)).
  { unfold pmap2. now rewrite !length_map2. }
  destruct (nth_interleave [] _ _ Hlen i) as [E0 E1].
  unfold get at 1 2 5 6. rewrite E0, E1.
  change (nth j (nth i (pmap2 Qplus base signal) []) 0)
    with (get (pmap2 Qplus base signal) i j).
  change (nth j (nth i (pmap2 Qminus base signal) []) 0)
    with (get (pmap2 Qminus base signal) i j).
  rewrite (get_pmap2 Qplus base signal i j k w), (get_pmap2 Qminus base signal i j k w) by assumption.
  unfold base, signal.
  rewrite (get_pmap2 _ (evens COVER) (odds COVER) i j k w) by assumption.
  rewrite (get_pmap _ B i j k w) by assumption.
  rewrite get_evens, get_odds.
  split; field.
Qed.

(** ** The reference routines meet the library contracts *)

Module ReferenceFacts.
Import Reference.

Lemma length_resample {A} (d : A) l n : length (resample d l n) = n.
Proof. unfold resample. now rewrite length_map, length_seq. Qed.

Lemma map_nth_seq {A} (d : A) l : map (fun i => nth i l d) (seq 0 (length l)) = l.
Proof.
  apply (nth_ext _ _ d d).
  - now rewrite length_map, length_seq.
  - intros n Hn. rewrite length_map, length_seq in Hn.
    rewrite (nth_indep _ d (nth 0 l d)) by (now rewrite length_map, length_seq).
    rewrite (map_nth (fun i => nth i l d) (seq 0 (length l)) 0%nat n).
    now rewrite seq_nth.
Qed.

Lemma resample_same {A} (d : A) l : resample d l (length l) = l.
Proof.
  unfold resample. transitivity (map (fun i => nth i l d) (seq 0 (length l))).
  - apply map_ext_in. intros i Hi. apply in_seq in Hi.
    rewrite Nat.div_mul by lia. reflexivity.
  - apply map_nth_seq.
Qed.

Lemma nearest_resize_shape {A} (d : A) p w h : has_shape h w (nearest_resize d p (w, h)).
Proof.
  unfold nearest_resize. simpl. split.
  - now rewrite length_map, length_resample.
  - unfold rect. rewrite Forall_map. apply Forall_forall. intros r _.
    apply length_resample.
Qed.

Lemma nearest_resize_same {A} (d : A) p h w :
  has_shape h w p -> nearest_resize d p (w, h) = p.
Proof.
  intros [Hl Hr]. unfold nearest_resize. simpl. subst h. rewrite resample_same.
  rewrite <- (map_id p) at 2. apply map_ext_in. intros r Hin.
  unfold rect in Hr. rewrite Forall_forall in Hr. rewrite <- (Hr r Hin).
  apply resample_same.
Qed.

Lemma blur_rows_shape p h w : has_shape h w p -> has_shape h w (blur_rows p).
Proof.
  intros [Hl Hr]. unfold blur_rows. split.
  - now rewrite length_map.
  - unfold rect in *. rewrite Forall_map. eapply Forall_impl; [|exact Hr].
    intros r Hw. simpl. now rewrite length_map, length_seq.
Qed.

Lemma blur_cols_shape p h w : has_shape h w p -> has_shape h w (blur_cols p).
Proof.
  intros [Hl Hr]. unfold blur_cols. split.
  - now rewrite length_map, length_seq.
  - unfold rect. rewrite Forall_map. apply Forall_forall. intros i Hi.
    apply in_seq in Hi. rewrite length_map, length_seq.
    apply rect_nth; [assumption | lia].
Qed.

#[export] Instance opencv_spec : OpenCVSpec opencv.
Proof.
  constructor.
  - intros. apply nearest_resize_shape.
  - intros p h w H. apply blur_cols_shape, blur_rows_shape, H.
  - intros img h w H. now apply has_shape_pmap.
  - intros img h w H Hh Hw. simpl. unfold is_empty.
    pose proof (shape2_has_shape _ _ _ H Hh) as E. unfold shape2 in E.
    injection E as E1 E2. rewrite E1, E2.
    destruct h, w; try lia. simpl.
    eexists; split; [reflexivity | now apply has_shape_pmap].
  - intros. apply nearest_resize_shape.
  - intros img h w H _ _. now apply nearest_resize_same.
Qed.

End ReferenceFacts.

(** ** The colour transforms of the embedding path *)

Module ColourFacts.
Import EmbedBackend.

Lemma roundtrip_pmap img :
  ycbcr_to_rgb_lossless (rgb_to_ycbcr_lossless img)
  = pmap (fun x => dot_T inverse_matrix (dot_T forward_matrix x)) img.
Proof.
  unfold ycbcr_to_rgb_lossless, rgb_to_ycbcr_lossless, pmap.
  rewrite map_map. apply map_ext. intros r. now rewrite map_map.
Qed.

Lemma Forall2_pmap_self {A} (R : A -> A -> Prop) (P : A -> Prop) (f : A -> A) p :
  (forall x, P x -> R (f x) x) ->
  Forall (Forall P) p -> Forall2 (Forall2 R) (pmap f p) p.
Proof.
  intros H Hp. induction Hp as [|r p Hr _ IH]; simpl; constructor; auto.
  induction Hr; simpl; constructor; auto.
Qed.

Lemma roundtrip_pixel_close x :
  sample_range x ->
  px_close (15 # 100000) (dot_T inverse_matrix (dot_T forward_matrix x)) x.
Proof.
  destruct x as [[r g] b].
  unfold sample_range, px_close, dot_T, dot3, forward_matrix, inverse_matrix.
  cbv [ch0 ch1 ch2 fst snd].
  intros (Hr & Hg & Hb).
  split; [|split]; apply Qabs_Qle_condition; lra.
Qed.

End ColourFacts.

(** C4, as stated, fails: the product of the two matrices is not the
    identity, and the round trip of the pixel (0, 255, 0) misses its first
    channel by more than 10^-4, far beyond binary64 rounding. *)
Lemma lossless_matrices_not_inverse :
  ~ EmbedBackend.matrix_eq
      (EmbedBackend.matmul EmbedBackend.inverse_matrix EmbedBackend.forward_matrix)
      EmbedBackend.identity3
  /\ (let x := (0, 255, 0) in
      match EmbedBackend.ycbcr_to_rgb_lossless (EmbedBackend.rgb_to_ycbcr_lossless [[x]]) with
      | [[y]] => ~ EmbedBackend.pixel_eq y x /\ (1 # 10000) < Qabs (ch0 y - ch0 x)
      | _ => False
      end).
Proof.
  split.
  - intros [[_ [H _]] _]. vm_compute in H. discriminate.
  - cbn. split.
    + intros [H _]. vm_compute in H. discriminate.
    + vm_compute. reflexivity.
Qed.

(** C4, amended. The inverse matrix inverts the forward matrix up to 10^-6
    in every entry, and on an image with samples in 0..255 the round trip
    [ycbcr_to_rgb_lossless (rgb_to_ycbcr_lossless img)] returns every
    channel of every pixel within 1.5 * 10^-4 of the input. *)
Theorem lossless_roundtrip_within_tolerance :
  matrix_close (1 # 1000000)
    (EmbedBackend.matmul EmbedBackend.inverse_matrix EmbedBackend.forward_matrix)
    EmbedBackend.identity3
  /\ forall img : image Q,
       Forall (Forall sample_range) img ->
       Forall2 (Forall2 (px_close (15 # 100000)))
         (EmbedBackend.ycbcr_to_rgb_lossless (EmbedBackend.rgb_to_ycbcr_lossless img))
         img.
Proof.
  split.
  - repeat split; vm_compute; intros H; discriminate H.
  - intros img Himg. rewrite ColourFacts.roundtrip_pmap.
    apply (ColourFacts.Forall2_pmap_self _ sample_range); [|assumption].
    apply ColourFacts.roundtrip_pixel_close.
Qed.

(** ** The embedding route *)

Module RouteFacts.
Import EmbedBackend.

Lemma map2_fst_only {A B C} (f : A -> C) (l : list A) (m : list B) :
  length l = length m -> map2 (fun x _ => f x) l m = map f l.
Proof.
  revert m. induction l as [|x l IH]; intros [|y m] H; simpl in *; try lia; auto.
  f_equal. apply IH. lia.
Qed.

Lemma map2_snd_only {A B C} (f : B -> C) (l : list A) (m : list B) :
  length l = length m -> map2 (fun _ y => f y) l m = map f m.
Proof.
  revert m. induction l as [|x l IH]; intros [|y m] H; simpl in *; try lia; auto.
  f_equal. apply IH. lia.
Qed.

Lemma map_map2 {A B C D} (g : C -> D) (f : A -> B -> C) l m :
  map g (map2 f l m) = map2 (fun x y => g (f x y)) l m.
Proof.
  revert m. induction l as [|x l IH]; intros [|y m]; simpl; auto. now rewrite IH.
Qed.

Lemma map2_ext_in2 {A B C} (f g : A -> B -> C) l m :
  (forall x y, In x l -> In y m -> f x y = g x y) -> map2 f l m = map2 g l m.
Proof.
  revert m. induction l as [|x l IH]; intros [|y m] H; simpl; auto.
  f_equal; [apply H; now left | apply IH; intros; apply H; now right].
Qed.

(** Writing channel 0 leaves the other two channels as they were and stores
    the plane as given. *)
Lemma set_channel0_channels {A} (img : image A) (y : plane A) h w :
  has_shape h w img -> has_shape h w y ->
  channel0 (set_channel0 img y) = y
  /\ channel1 (set_channel0 img y) = channel1 img
  /\ channel2 (set_channel0 img y) = channel2 img.
Proof.
  intros [Hl Hr] [Hl' Hr'].
  unfold channel0, channel1, channel2, set_channel0, pmap.
  rewrite !map_map2.
  unfold rect in *. rewrite Forall_forall in Hr, Hr'.
  repeat split.
  - rewrite (map2_ext_in2 _ (fun _ r' => id r')).
    + rewrite map2_snd_only by lia. apply map_id.
    + intros r r' Hin Hin'. rewrite map_map2. cbn.
      rewrite map2_snd_only by (rewrite Hr, Hr'; auto). apply map_id.
  - rewrite (map2_ext_in2 _ (fun r _ => map ch1 r)).
    + apply map2_fst_only. lia.
    + intros r r' Hin Hin'. rewrite map_map2. cbn.
      apply map2_fst_only. rewrite Hr, Hr'; auto.
  - rewrite (map2_ext_in2 _ (fun r _ => map ch2 r)).
    + apply map2_fst_only. lia.
    + intros r r' Hin Hin'. rewrite map_map2. cbn.
      apply map2_fst_only. rewrite Hr, Hr'; auto.
Qed.

Lemma has_shape_set_channel0 {A} (img : image A) (y : plane A) h w :
  has_shape h w img -> has_shape h w y -> has_shape h w (set_channel0 img y).
Proof. intros. unfold set_channel0. now apply (has_shape_pmap2 _ img y). Qed.

Section WithOpenCV.
Context {cv : OpenCV} {cvs : OpenCVSpec cv}.

Lemma embedd_matrix_some_shape COVER WATERMARK alpha k w h' w' :
  has_shape (2 * k) w COVER -> (0 < k)%nat -> (0 < w)%nat ->
  has_shape h' w' WATERMARK -> (0 < h')%nat -> (0 < w')%nat ->
  exists y, embedd_matrix COVER WATERMARK alpha = Some y /\ has_shape (2 * k) w y.
Proof.
  intros HC Hk Hw HW Hh' Hw'.
  eexists. split; [now apply (EmbedFacts.embedd_matrix_eq _ _ _ k w h' w')|].
  pose proof (EmbedFacts.smoothed_payload_shape _ _ _ _ _ _ HC Hk Hw HW Hh' Hw').
  auto 7 with shape.
Qed.

(** On an even-height cover and a non-empty watermark the luma plane is
    embedded and written back. *)
Lemma embedded_ycbcr_eq image_np watermark_np k w h' w' :
  has_shape (2 * k) w image_np -> (0 < k)%nat -> (0 < w)%nat ->
  has_shape h' w' watermark_np -> (0 < h')%nat -> (0 < w')%nat ->
  let ycbcr_image := rgb_to_ycbcr_lossless (to_float_img image_np) in
  exists y,
    embedd_matrix (channel0 ycbcr_image)
      (cv2_resize (to_float (channel0 watermark_np)) (w, (2 * k)%nat)) ALPHA = Some y
    /\ has_shape (2 * k) w y
    /\ embedded_ycbcr image_np watermark_np = Some (set_channel0 ycbcr_image y).
Proof.
  intros HI Hk Hw HW Hh' Hw' ycbcr_image.
  assert (HY : has_shape (2 * k) w ycbcr_image).
  { unfold ycbcr_image, rgb_to_ycbcr_lossless, to_float_img. now do 2 apply has_shape_pmap. }
  assert (HC : has_shape (2 * k) w (channel0 ycbcr_image)) by now apply has_shape_pmap.
  assert (HP : has_shape (2 * k) w
                 (cv2_resize (to_float (channel0 watermark_np)) (w, (2 * k)%nat))).
  { apply (resize_shape _ h' w'); try lia. unfold to_float, channel0.
    now do 2 apply has_shape_pmap. }
  destruct (embedd_matrix_some_shape _ _ ALPHA k w _ _ HC Hk Hw HP ltac:(lia) Hw)
    as (y & E & Hy).
  exists y. split; [exact E|]. split; [exact Hy|].
  unfold embedded_ycbcr. fold ycbcr_image.
  replace (shape3 image_np) with ((2 * k)%nat, w, 3%nat).
  2:{ unfold shape3. pose proof (shape2_has_shape _ _ _ HI ltac:(lia)) as S2.
      unfold shape2 in S2. injection S2 as -> ->. reflexivity. }
  cbn [fst snd]. rewrite E.
  rewrite (shape2_has_shape _ _ _ Hy ltac:(lia)).
  rewrite (shape2_has_shape _ _ _ HY ltac:(lia)).
  now rewrite shape2_eqb_refl.
Qed.

End WithOpenCV.
End RouteFacts.

(** C6. [embed_watermark] answers with the shape error, and no image,
    whenever the cover's shape is not (512, 512, 3) or the watermark's is
    not (32, 32, 3); a (256, 256, 3) cover and a (16, 16, 3) watermark are
    rejected; the answer is fixed before any image routine runs (it is the
    same for every implementation of the OpenCV routines); and exactly these
    two shapes pass both checks and reach the embedding. *)
Theorem embed_watermark_shape_validation {cv : OpenCV} (image_np watermark_np : image Z) :
  (shape3 image_np <> (512, 512, 3)%nat ->
     EmbedBackend.embed_watermark image_np watermark_np
     = EmbedBackend.Error400 "Invalid cover image dimensions.")
  /\ (shape3 image_np = (512, 512, 3)%nat -> shape3 watermark_np <> (32, 32, 3)%nat ->
     EmbedBackend.embed_watermark image_np watermark_np
     = EmbedBackend.Error400 "Invalid watermark dimensions.")
  /\ (shape3 image_np = (256, 256, 3)%nat ->
     EmbedBackend.embed_watermark image_np watermark_np
     = EmbedBackend.Error400 "Invalid cover image dimensions.")
  /\ (shape3 image_np = (512, 512, 3)%nat -> shape3 watermark_np = (16, 16, 3)%nat ->
     EmbedBackend.embed_watermark image_np watermark_np
     = EmbedBackend.Error400 "Invalid watermark dimensions.")
  /\ (shape3 image_np <> (512, 512, 3)%nat \/ shape3 watermark_np <> (32, 32, 3)%nat ->
     forall cv' : OpenCV,
       EmbedBackend.embed_watermark (cv := cv') image_np watermark_np
       = EmbedBackend.embed_watermark (cv := cv) image_np watermark_np
       /\ forall out, EmbedBackend.embed_watermark image_np watermark_np
                      <> EmbedBackend.SendPng out)
  /\ (shape3 image_np = (512, 512, 3)%nat -> shape3 watermark_np = (32, 32, 3)%nat ->
     EmbedBackend.is_valid_image image_np EmbedBackend.ALLOWED_COVER_DIMENSIONS = true
     /\ EmbedBackend.is_valid_image watermark_np EmbedBackend.ALLOWED_WATERMARK_DIMENSIONS = true
     /\ forall msg, EmbedBackend.embed_watermark image_np watermark_np
                    <> EmbedBackend.Error400 msg).
Proof.
  assert (Hc : forall cv0 : OpenCV, shape3 image_np <> (512, 512, 3)%nat ->
     EmbedBackend.embed_watermark (cv := cv0) image_np watermark_np
     = EmbedBackend.Error400 "Invalid cover image dimensions.").
  { intros cv0 H. unfold EmbedBackend.embed_watermark, EmbedBackend.is_valid_image.
    simpl existsb. rewrite orb_false_r.
    destruct (shape3_eqb (shape3 image_np) (512, 512, 3)%nat) eqn:E; [|reflexivity].
    apply shape3_eqb_eq in E. contradiction. }
  assert (Hw : forall cv0 : OpenCV, shape3 image_np = (512, 512, 3)%nat ->
     shape3 watermark_np <> (32, 32, 3)%nat ->
     EmbedBackend.embed_watermark (cv := cv0) image_np watermark_np
     = EmbedBackend.Error400 "Invalid watermark dimensions.").
  { intros cv0 H H'. unfold EmbedBackend.embed_watermark, EmbedBackend.is_valid_image.
    simpl existsb. rewrite !orb_false_r.
    apply shape3_eqb_eq in H. rewrite H. simpl.
    destruct (shape3_eqb (shape3 watermark_np) (32, 32, 3)%nat) eqn:E; [|reflexivity].
    apply shape3_eqb_eq in E. contradiction. }
  split; [apply Hc|]. split; [apply Hw|].
  split; [intros H; apply Hc; rewrite H; discriminate|].
  split; [intros H H'; apply Hw; [assumption | rewrite H'; discriminate]|].
  split.
  - intros H cv'.
    destruct (shape3_eqb (shape3 image_np) (512, 512, 3)%nat) eqn:E.
    + apply shape3_eqb_eq in E. destruct H as [H|H]; [contradiction|].
      rewrite (Hw cv' E H), (Hw cv E H). split; [reflexivity | discriminate].
    + assert (E' : shape3 image_np <> (512, 512, 3)%nat).
      { intros C. apply shape3_eqb_eq in C. congruence. }
      rewrite (Hc cv' E'), (Hc cv E'). split; [reflexivity | discriminate].
  - intros H H'. unfold EmbedBackend.embed_watermark, EmbedBackend.is_valid_image.
    simpl existsb. rewrite !orb_false_r.
    apply shape3_eqb_eq in H, H'. rewrite H, H'. simpl.
    repeat split. intros msg.
    destruct (EmbedBackend.embedded_ycbcr image_np watermark_np); discriminate.
Qed.

(** C8. For a valid cover (512 x 512 x 3) and watermark (32 x 32 x 3) the
    array handed to the inverse colour transform has the cover's forward
    transform in channels 1 and 2, unchanged; only channel 0 is replaced,
    by the plane [embedd_matrix] returns. *)
Theorem embed_watermark_changes_luma_only {cv : OpenCV} {cvs : OpenCVSpec cv}
    (image_np watermark_np : image Z) :
  has_shape 512 512 image_np -> has_shape 32 32 watermark_np ->
  let forward := EmbedBackend.rgb_to_ycbcr_lossless (to_float_img image_np) in
  exists ycbcr_image y,
    EmbedBackend.embedded_ycbcr image_np watermark_np = Some ycbcr_image
    /\ EmbedBackend.embed_watermark image_np watermark_np
       = EmbedBackend.SendPng
           (pmap (fun px => (EmbedBackend.clip_uint8 (ch0 px),
                             EmbedBackend.clip_uint8 (ch1 px),
                             EmbedBackend.clip_uint8 (ch2 px)))
                 (EmbedBackend.ycbcr_to_rgb_lossless ycbcr_image))
    /\ channel1 ycbcr_image = channel1 forward
    /\ channel2 ycbcr_image = channel2 forward
    /\ EmbedBackend.embedd_matrix (channel0 forward)
         (cv2_resize (to_float (channel0 watermark_np)) (512, 512)%nat)
         EmbedBackend.ALPHA = Some y
    /\ channel0 ycbcr_image = y.
Proof.
  intros HI HW forward.
  destruct (RouteFacts.embedded_ycbcr_eq image_np watermark_np 256 512 32 32)
    as (y & Ey & Hy & E); try assumption; try lia.
  fold forward in Ey, E. change (2 * 256)%nat with 512%nat in *.
  assert (HF : has_shape 512 512 forward).
  { unfold forward, EmbedBackend.rgb_to_ycbcr_lossless, to_float_img.
    now do 2 apply has_shape_pmap. }
  destruct (RouteFacts.set_channel0_channels forward y 512 512 HF Hy) as (E0 & E1 & E2).
  exists (set_channel0 forward y), y.
  split; [exact E|]. split.
  - unfold EmbedBackend.embed_watermark, EmbedBackend.is_valid_image.
    assert (S1 : shape3 image_np = (512, 512, 3)%nat).
    { unfold shape3. pose proof (shape2_has_shape _ _ _ HI ltac:(lia)) as S2.
      unfold shape2 in S2. injection S2 as -> ->. reflexivity. }
    assert (S2 : shape3 watermark_np = (32, 32, 3)%nat).
    { unfold shape3. pose proof (shape2_has_shape _ _ _ HW ltac:(lia)) as S2.
      unfold shape2 in S2. injection S2 as -> ->. reflexivity. }
    rewrite S1, S2. simpl existsb. simpl negb. cbv iota. now rewrite E.
  - repeat split; assumption.
Qed.

(** ** Min-max normalisation *)

Module NormalizeFacts.
Import ExtractBackend.

Lemma qmin_comp a a' b b' : a == a' -> b == b' -> qmin a b == qmin a' b'.
Proof.
  intros Ha Hb. unfold qmin. rewrite (Qleb_comp a a' Ha b b' Hb).
  now destruct (Qle_bool a' b').
Qed.

Lemma qmax_comp a a' b b' : a == a' -> b == b' -> qmax a b == qmax a' b'.
Proof.
  intros Ha Hb. unfold qmax. rewrite (Qleb_comp a a' Ha b b' Hb).
  now destruct (Qle_bool a' b').
Qed.

Lemma Qle_bool_scale a b c : 0 < c -> Qle_bool (a * c) (b * c) = Qle_bool a b.
Proof.
  intros Hc. apply eq_true_iff_eq. rewrite !Qle_bool_iff.
  split; intros H; [now apply Qmult_le_r in H | now apply Qmult_le_r].
Qed.

Lemma qmin_scale a b c : 0 < c -> qmin (a * c) (b * c) == qmin a b * c.
Proof.
  intros Hc. unfold qmin. rewrite Qle_bool_scale by assumption.
  now destruct (Qle_bool a b).
Qed.

Lemma qmax_scale a b c : 0 < c -> qmax (a * c) (b * c) == qmax a b * c.
Proof.
  intros Hc. unfold qmax. rewrite Qle_bool_scale by assumption.
  now destruct (Qle_bool a b).
Qed.

Section Fold.
Variable op : Q -> Q -> Q.
Hypothesis op_comp : forall a a' b b', a == a' -> b == b' -> op a b == op a' b'.

Lemma fold_comp l l' : Forall2 Qeq l l' ->
  forall a a', a == a' -> fold_left op l a == fold_left op l' a'.
Proof.
  induction 1 as [|x x' l l' Hx _ IH]; intros a a' Ha; simpl; [assumption|].
  apply IH. now apply op_comp.
Qed.

Lemma fold_scale c : (forall a b, op (a * c) (b * c) == op a b * c) ->
  forall l a, fold_left op (map (fun v => v * c) l) (a * c) == fold_left op l a * c.
Proof.
  intros Hop. induction l as [|x l IH]; intros a; simpl; [reflexivity|].
  rewrite <- IH. apply fold_comp; [|apply Hop].
  clear. induction l; constructor; [reflexivity | assumption].
Qed.

Lemma fold_all_equal k : op k k == k ->
  forall l a, Forall (fun v => v == k) l -> a == k -> fold_left op l a == k.
Proof.
  intros Hk. induction l as [|x l IH]; intros a Hl Ha; simpl; [assumption|].
  inversion Hl; subst. apply IH; [assumption|].
  transitivity (op k k); [now apply op_comp | exact Hk].
Qed.

End Fold.

Lemma min_of_comp l l' : Forall2 Qeq l l' -> min_of l == min_of l'.
Proof.
  intros H. destruct H; simpl; [reflexivity|].
  now apply (fold_comp qmin qmin_comp).
Qed.

Lemma max_of_comp l l' : Forall2 Qeq l l' -> max_of l == max_of l'.
Proof.
  intros H. destruct H; simpl; [reflexivity|].
  now apply (fold_comp qmax qmax_comp).
Qed.

Lemma min_of_scale l c : 0 < c -> min_of (map (fun v => v * c) l) == min_of l * c.
Proof.
  intros Hc. destruct l as [|x l]; simpl; [ring|].
  apply (fold_scale qmin qmin_comp). intros; now apply qmin_scale.
Qed.

Lemma max_of_scale l c : 0 < c -> max_of (map (fun v => v * c) l) == max_of l * c.
Proof.
  intros Hc. destruct l as [|x l]; simpl; [ring|].
  apply (fold_scale qmax qmax_comp). intros; now apply qmax_scale.
Qed.

Lemma qmin_idem k : qmin k k == k.
Proof. unfold qmin. now destruct (Qle_bool k k). Qed.

Lemma qmax_idem k : qmax k k == k.
Proof. unfold qmax. now destruct (Qle_bool k k). Qed.

(** On a list of equal values both extrema coincide. *)
Lemma extrema_all_equal l k : Forall (fun v => v == k) l ->
  max_of l - min_of l == 0.
Proof.
  intros H. destruct H as [|x l Hx Hl]; simpl; [ring|].
  rewrite (fold_all_equal qmax qmax_comp k (qmax_idem k) l x Hl Hx).
  rewrite (fold_all_equal qmin qmin_comp k (qmin_idem k) l x Hl Hx).
  ring.
Qed.

Lemma Forall2_concat {A B} (R : A -> B -> Prop) p q :
  Forall2 (Forall2 R) p q -> Forall2 R (concat p) (concat q).
Proof.
  induction 1; simpl; [constructor | now apply Forall2_app].
Qed.

Lemma Forall_concat {A} (P : A -> Prop) p :
  Forall (Forall P) p -> Forall P (concat p).
Proof.
  induction 1; simpl; [constructor | now apply Forall_app].
Qed.

Lemma Qtrunc_comp x y : x == y -> Qtrunc x = Qtrunc y.
Proof.
  intros H. unfold Qtrunc. rewrite (Qleb_comp 0 0 (Qeq_refl 0) x y H).
  destruct (Qle_bool 0 y); [now apply Qfloor_comp | now apply Qceiling_comp].
Qed.

Lemma astype_uint8_comp x y : x == y -> astype_uint8 x = astype_uint8 y.
Proof. intros H. unfold astype_uint8. now rewrite (Qtrunc_comp x y H). Qed.

Lemma astype_uint8_range x : (0 <= astype_uint8 x < 256)%Z.
Proof. unfold astype_uint8. apply Z.mod_pos_bound. lia. Qed.

(** Planes that agree sample by sample get the same 8-bit conversion. *)
Lemma pmap_astype_comp p q :
  plane_equiv p q -> pmap astype_uint8 p = pmap astype_uint8 q.
Proof.
  induction 1 as [|r r' p q Hr _ IH]; simpl; [reflexivity|]. f_equal; [|exact IH].
  induction Hr; simpl; [reflexivity|]. f_equal; [now apply astype_uint8_comp | assumption].
Qed.

Lemma plane_equiv_pmap (f g : Q -> Q) p q :
  (forall x y, x == y -> f x == g y) -> plane_equiv p q ->
  plane_equiv (pmap f p) (pmap g q).
Proof.
  intros Hfg. induction 1 as [|r r' p q Hr _ IH]; simpl; constructor; [|exact IH].
  induction Hr; simpl; constructor; auto.
Qed.

Lemma plane_equiv_refl p : plane_equiv p p.
Proof. induction p as [|r p IH]; constructor; [|exact IH]. induction r; constructor; auto. reflexivity. Qed.

(** [cv2.normalize] followed by the 8-bit cast sees planes up to [==]. *)
Lemma normalize_comp p q a b :
  plane_equiv p q -> plane_equiv (normalize_minmax p a b) (normalize_minmax q a b).
Proof.
  intros H. unfold normalize_minmax.
  pose proof (min_of_comp _ _ (Forall2_concat _ _ _ H)) as Hmin.
  pose proof (max_of_comp _ _ (Forall2_concat _ _ _ H)) as Hmax.
  assert (Hg : Qle_bool (max_of (concat p) - min_of (concat p)) DBL_EPSILON
               = Qle_bool (max_of (concat q) - min_of (concat q)) DBL_EPSILON).
  { apply Qleb_comp; [now rewrite Hmin, Hmax | reflexivity]. }
  rewrite Hg. apply plane_equiv_pmap; [|exact H].
  intros x y Hxy.
  destruct (Qle_bool (max_of (concat q) - min_of (concat q)) DBL_EPSILON);
    now rewrite Hxy, Hmin, ?Hmax.
Qed.

(** A plane of equal values is normalised to the lower bound of the target
    range: the guarded scale is 0. *)
Lemma normalize_all_equal p k :
  all_equal k p -> all_equal 0 (normalize_minmax p 0 255).
Proof.
  intros H. unfold normalize_minmax.
  assert (Hs : Qle_bool (max_of (concat p) - min_of (concat p)) DBL_EPSILON = true).
  { apply Qle_bool_iff. rewrite (extrema_all_equal _ k (Forall_concat _ _ H)).
    unfold DBL_EPSILON. unfold Qle. simpl. lia. }
  rewrite Hs. unfold all_equal, pmap in *. rewrite Forall_map.
  eapply Forall_impl; [|exact H]. intros r _. rewrite Forall_map.
  apply Forall_forall. intros v _. simpl.
  change (qmin 0 255) with 0. change (qmax 0 255) with 255. ring.
Qed.

End NormalizeFacts.

(** ** The recovery kernel *)

Module RecoverFacts.
Import ExtractBackend NormalizeFacts.

Lemma Forall2_nth_intro {A} (R : A -> A -> Prop) d l l' :
  length l = length l' ->
  (forall i, (i < length l)%nat -> R (nth i l d) (nth i l' d)) ->
  Forall2 R l l'.
Proof.
  revert l'. induction l as [|x l IH]; intros [|y l'] Hlen H; simpl in Hlen; try lia.
  - constructor.
  - constructor.
    + apply (H 0%nat). simpl. lia.
    + apply IH; [lia|]. intros i Hi. apply (H (S i)). simpl. lia.
Qed.

(** Planes of one shape that agree at every index are equivalent. *)
Lemma plane_equiv_get p q h w :
  has_shape h w p -> has_shape h w q ->
  (forall i j, (i < h)%nat -> (j < w)%nat -> get p i j == get q i j) ->
  plane_equiv p q.
Proof.
  intros [Hl Hr] [Hl' Hr'] H.
  apply (Forall2_nth_intro _ []); [lia|]. intros i Hi.
  apply (Forall2_nth_intro _ 0).
  - rewrite (rect_nth p w i), (rect_nth q w i); auto; lia.
  - intros j Hj. rewrite (rect_nth p w i) in Hj by (auto; lia).
    apply H; lia.
Qed.

Lemma evens_interleave {A} (e o : list A) :
  length e = length o -> evens (interleave e o) = e /\ odds (interleave e o) = o.
Proof.
  revert o. induction e as [|x e IH]; intros [|y o] H; simpl in H; try lia.
  - split; reflexivity.
  - simpl interleave. rewrite evens_cons2, odds_cons2.
    destruct (IH o) as [-> ->]; [lia|]. split; reflexivity.
Qed.

Lemma odd_double k : Nat.odd (2 * k) = false.
Proof.
  rewrite <- Nat.negb_even. replace (2 * k)%nat with (0 + 2 * k)%nat by lia.
  now rewrite Nat.even_add_mul_2.
Qed.

Lemma has_shape_removelast {A} (p : list (list A)) h w :
  has_shape (S h) w p -> has_shape h w (removelast p).
Proof.
  intros [Hl Hr]. split.
  - destruct p as [|r p]; [simpl in Hl; lia|].
    assert (Hne : r :: p <> []) by discriminate.
    pose proof (app_removelast_last r Hne) as E.
    apply (f_equal (@length _)) in E. rewrite length_app in E. simpl in E, Hl |- *.
    simpl in E. lia.
  - unfold rect in *. rewrite Forall_forall in *. intros r Hin. apply Hr.
    clear - Hin. induction p as [|x p IH]; [contradiction|].
    destruct p as [|y p]; [contradiction|].
    simpl in Hin. destruct Hin as [<-|Hin]; [now left | right; now apply IH].
Qed.

(** After the crop the plane has an even number [2 * (h / 2)] of rows. *)
Lemma has_shape_cropped p h w :
  has_shape h w p -> has_shape (2 * (h / 2)) w (cropped p).
Proof.
  intros H. pose proof H as [Hl _]. unfold cropped, drop_last. rewrite Hl.
  destruct (Nat.odd h) eqn:E.
  - apply Nat.odd_spec in E. destruct E as [m ->].
    replace ((2 * m + 1) / 2)%nat with m.
    2:{ apply (Nat.div_unique _ 2 m 1); lia. }
    apply has_shape_removelast. now replace (S (2 * m)) with (2 * m + 1)%nat by lia.
  - assert (Ev : Nat.even h = true) by (rewrite <- Nat.negb_odd, E; reflexivity).
    apply Nat.even_spec in Ev. destruct Ev as [m ->].
    replace (2 * m / 2)%nat with m; [assumption|].
    apply (Nat.div_unique _ 2 m 0); lia.
Qed.

Lemma pmap_pmap2 {A B C D} (g : C -> D) (f : A -> B -> C) p q :
  pmap g (pmap2 f p q) = pmap2 (fun x y => g (f x y)) p q.
Proof.
  unfold pmap, pmap2. rewrite RouteFacts.map_map2.
  apply RouteFacts.map2_ext_in2. intros. apply RouteFacts.map_map2.
Qed.

Lemma pmap_pmap {A B C} (g : B -> C) (f : A -> B) p :
  pmap g (pmap f p) = pmap (fun x => g (f x)) p.
Proof.
  unfold pmap. rewrite map_map. apply map_ext. intros r. apply map_map.
Qed.

(** [wm_float] is the row difference divided by [2 * alpha]. *)
Lemma wm_float_row_difference p alpha :
  wm_float p alpha = pmap (fun d => d * / (2 * alpha)) (row_difference p).
Proof. unfold wm_float, row_difference. now rewrite pmap_pmap2. Qed.

Lemma has_shape_row_difference p h w :
  has_shape h w p -> has_shape (h / 2) w (row_difference p).
Proof.
  intros H. apply has_shape_cropped in H. unfold row_difference.
  apply has_shape_pmap2; [now apply has_shape_evens | now apply has_shape_odds].
Qed.

Lemma shape2_rect_length {A} (p q : list (list A)) w :
  rect w p -> rect w q -> length p = length q -> shape2 p = shape2 q.
Proof.
  intros Hp Hq Hl. unfold shape2. rewrite Hl. f_equal.
  destruct p, q; simpl in *; try lia; try reflexivity.
  inversion Hp; inversion Hq; subst. congruence.
Qed.

(** What recovery returns on a well-formed plane of height other than 1:
    the normalised, 8-bit [wm_float], of half the height. *)
Lemma recover_some p alpha h w :
  has_shape h w p -> h <> 1%nat ->
  recover_watermark_channel p alpha
  = Some (pmap astype_uint8 (normalize_minmax (wm_float p alpha) 0 255))
  /\ has_shape (h / 2) w
       (pmap astype_uint8 (normalize_minmax (wm_float p alpha) 0 255)).
Proof.
  intros H Hh. pose proof H as [Hl _]. split.
  - unfold recover_watermark_channel. rewrite Hl.
    assert (G : Nat.odd h && Nat.eqb (h - 1) 0 = false).
    { destruct (Nat.odd h) eqn:E; [|reflexivity]. simpl. apply Nat.eqb_neq.
      destruct h as [|[|h]]; [discriminate E | lia | lia]. }
    rewrite G.
    pose proof (has_shape_cropped p h w H) as Hc.
    pose proof (has_shape_evens _ _ _ Hc) as [He1 He2].
    pose proof (has_shape_odds _ _ _ Hc) as [Ho1 Ho2].
    rewrite (shape2_rect_length _ (odds (cropped p)) w He2 Ho2) by lia.
    now rewrite shape2_eqb_refl.
  - apply has_shape_pmap. unfold normalize_minmax. apply has_shape_pmap.
    rewrite wm_float_row_difference. apply has_shape_pmap.
    now apply has_shape_row_difference.
Qed.

Lemma recover_none p alpha :
  length p = 1%nat -> recover_watermark_channel p alpha = None.
Proof. intros H. unfold recover_watermark_channel. now rewrite H. Qed.

(** Normalisation does not see a positive scale of its input.  When the
    spread is 0 the guarded scale is 0 and every sample maps to 0 ... *)
Lemma normalize_scaled_degenerate D c :
  0 < c -> spread D == 0 ->
  plane_equiv (normalize_minmax (pmap (fun v => v * c) D) 0 255) (pmap (fun _ => 0) D).
Proof.
  intros Hc Hs. unfold normalize_minmax.
  assert (G : Qle_bool (max_of (concat (pmap (fun v => v * c) D))
                        - min_of (concat (pmap (fun v => v * c) D))) DBL_EPSILON = true).
  { apply Qle_bool_iff. unfold pmap. rewrite <- concat_map.
    rewrite min_of_scale, max_of_scale by assumption.
    unfold spread in Hs.
    setoid_replace (max_of (concat D) * c - min_of (concat D) * c)
      with ((max_of (concat D) - min_of (concat D)) * c) by ring.
    rewrite Hs. unfold DBL_EPSILON, Qle. simpl. lia. }
  rewrite G, pmap_pmap. apply plane_equiv_pmap; [|apply plane_equiv_refl].
  intros x y _. change (qmin 0 255) with 0. change (qmax 0 255) with 255. ring.
Qed.

(** ... and when the scaled spread passes the guard every sample [d] maps
    to [(d - min) * 255 / spread], whatever the scale. *)
Lemma normalize_scaled_stretch D c :
  0 < c -> DBL_EPSILON < spread D * c ->
  plane_equiv (normalize_minmax (pmap (fun v => v * c) D) 0 255)
              (pmap (fun d => (d - min_of (concat D)) * 255 / spread D) D).
Proof.
  intros Hc Hs. unfold normalize_minmax.
  assert (Hmin : min_of (concat (pmap (fun v => v * c) D)) == min_of (concat D) * c).
  { unfold pmap. rewrite <- concat_map. now apply min_of_scale. }
  assert (Hmax : max_of (concat (pmap (fun v => v * c) D)) == max_of (concat D) * c).
  { unfold pmap. rewrite <- concat_map. now apply max_of_scale. }
  assert (Hsp : 0 < spread D).
  { apply (Qmult_lt_r _ _ c Hc). rewrite Qmult_0_l.
    eapply Qlt_trans; [|exact Hs]. reflexivity. }
  assert (G : Qle_bool (max_of (concat (pmap (fun v => v * c) D))
                        - min_of (concat (pmap (fun v => v * c) D))) DBL_EPSILON = false).
  { apply not_true_is_false. rewrite Qle_bool_iff, Hmin, Hmax. intros C.
    apply (Qlt_not_le _ _ Hs). unfold spread.
    setoid_replace ((max_of (concat D) - min_of (concat D)) * c)
      with (max_of (concat D) * c - min_of (concat D) * c) by ring.
    exact C. }
  rewrite G, pmap_pmap. apply plane_equiv_pmap; [|apply plane_equiv_refl].
  intros x y Hxy. rewrite Hxy, Hmin, Hmax.
  change (qmin 0 255) with 0. change (qmax 0 255) with 255.
  unfold spread in *.
  setoid_replace (max_of (concat D) * c - min_of (concat D) * c)
    with ((max_of (concat D) - min_of (concat D)) * c) by ring.
  field. split; intros E; [rewrite E in Hsp; now apply Qlt_irrefl in Hsp
                          | rewrite E in Hc; now apply Qlt_irrefl in Hc].
Qed.

End RecoverFacts.

(** ** Pointwise equality is an equivalence *)

Module PlaneEquiv.

Lemma Forall2_sym {A} (R : A -> A -> Prop) :
  (forall x y, R x y -> R y x) -> forall l l', Forall2 R l l' -> Forall2 R l' l.
Proof. intros HR l l' H. induction H; constructor; auto. Qed.

Lemma Forall2_trans {A} (R : A -> A -> Prop) :
  (forall x y z, R x y -> R y z -> R x z) ->
  forall l l' l'', Forall2 R l l' -> Forall2 R l' l'' -> Forall2 R l l''.
Proof.
  intros HR l l' l'' H. revert l''.
  induction H; intros l'' H'; inversion H'; subst; constructor; eauto.
Qed.

#[export] Instance plane_equiv_equivalence : Equivalence plane_equiv.
Proof.
  split.
  - exact NormalizeFacts.plane_equiv_refl.
  - intros p q. apply Forall2_sym. apply Forall2_sym. intros x y. apply Qeq_sym.
  - intros p q r. apply Forall2_trans. apply Forall2_trans. intros x y z. apply Qeq_trans.
Qed.

End PlaneEquiv.
Import PlaneEquiv.

(** C7, as stated, fails: on a plane whose even and odd rows are identical
    the row difference is constant and recovery returns an 8-bit plane, but
    its samples are 0 (black), not mid-gray. *)
Lemma constant_difference_recovers_black :
  let channel_data := [[5; 5]; [5; 5]] in
  all_equal 0 (row_difference channel_data)
  /\ exists out,
       ExtractBackend.recover_watermark_channel channel_data ExtractBackend.ALPHA = Some out
       /\ out = [[0; 0]]%Z
       /\ ~ Forall (Forall mid_gray) out.
Proof.
  split.
  - repeat constructor.
  - exists [[0; 0]]%Z. split; [vm_compute; reflexivity|]. split; [reflexivity|].
    intros H. inversion H as [|? ? Hr _]; subst. inversion Hr as [|? ? Hv _]; subst.
    unfold mid_gray in Hv. lia.
Qed.

(** C7, amended. When the row-difference plane is constant, recovery of a
    plane of height at least 2 with a non-zero alpha does not fail: it
    returns an 8-bit plane of half the height and the same width whose
    every sample is 0, the lower end of the normalisation range. *)
Theorem recover_constant_difference_is_zero
    (channel_data : plane Q) (alpha c : Q) (h w : nat) :
  has_shape h w channel_data -> (2 <= h)%nat -> ~ alpha == 0 ->
  all_equal c (row_difference channel_data) ->
  exists out,
    ExtractBackend.recover_watermark_channel channel_data alpha = Some out
    /\ has_shape (h / 2) w out
    /\ Forall (Forall (fun v => v = 0%Z /\ (0 <= v <= 255)%Z)) out.
Proof.
  intros H Hh Ha Hc.
  destruct (RecoverFacts.recover_some channel_data alpha h w H ltac:(lia)) as [E S].
  eexists. split; [exact E|]. split; [exact S|].
  assert (Hw : all_equal (c * / (2 * alpha)) (ExtractBackend.wm_float channel_data alpha)).
  { rewrite RecoverFacts.wm_float_row_difference. unfold all_equal, pmap in *.
    rewrite Forall_map. eapply Forall_impl; [|exact Hc]. intros r Hr.
    rewrite Forall_map. eapply Forall_impl; [|exact Hr]. intros v Hv. simpl.
    now rewrite Hv. }
  apply NormalizeFacts.normalize_all_equal in Hw.
  unfold all_equal, pmap in *. rewrite Forall_map.
  eapply Forall_impl; [|exact Hw]. intros r Hr. rewrite Forall_map.
  eapply Forall_impl; [|exact Hr]. intros v Hv. simpl.
  rewrite (NormalizeFacts.astype_uint8_comp v 0 Hv). vm_compute. intuition discriminate.
Qed.

(** The guard of [cv2.normalize] on a spread divided by [2 * a]. *)
Lemma guard_scaled (S a : Q) :
  0 < a -> 2 * a * ExtractBackend.DBL_EPSILON < S ->
  ExtractBackend.DBL_EPSILON < S * / (2 * a).
Proof.
  intros Ha H.
  setoid_replace ExtractBackend.DBL_EPSILON
    with (2 * a * ExtractBackend.DBL_EPSILON * / (2 * a)) by (field; lra).
  apply Qmult_lt_r; [apply Qinv_lt_0_compat; lra | exact H].
Qed.

(** ** The recovery kernel in binary32 arithmetic *)

Module IeeeFacts.
Import Ieee.

Lemma has_shape_crop {A} (p : list (list A)) h w :
  has_shape h w p ->
  has_shape (2 * (h / 2)) w (if Nat.odd h then drop_last p else p).
Proof.
  intros H. unfold drop_last.
  destruct (Nat.odd h) eqn:E.
  - apply Nat.odd_spec in E. destruct E as [m ->].
    replace ((2 * m + 1) / 2)%nat with m.
    2:{ apply (Nat.div_unique _ 2 m 1); lia. }
    apply RecoverFacts.has_shape_removelast.
    now replace (S (2 * m)) with (2 * m + 1)%nat by lia.
  - assert (Ev : Nat.even h = true) by (rewrite <- Nat.negb_odd, E; reflexivity).
    apply Nat.even_spec in Ev. destruct Ev as [m ->].
    replace (2 * m / 2)%nat with m; [assumption|].
    apply (Nat.div_unique _ 2 m 0); lia.
Qed.

(** Rounding changes neither whether recovery returns a plane nor the
    shape of that plane. *)
Lemma float_recover_some_shape fused (p : plane float) alpha h w :
  has_shape h w p -> h <> 1%nat ->
  exists out,
    recover_watermark_channel fused p alpha = Some out /\ has_shape (h / 2) w out.
Proof.
  intros H Hh. pose proof H as [Hl _].
  unfold recover_watermark_channel. rewrite Hl.
  assert (G : Nat.odd h && Nat.eqb (h - 1) 0 = false).
  { destruct (Nat.odd h) eqn:E; [|reflexivity]. simpl. apply Nat.eqb_neq.
    destruct h as [|[|h]]; [discriminate E | lia | lia]. }
  rewrite G.
  pose proof (has_shape_crop p h w H) as Hc.
  set (c := if Nat.odd h then drop_last p else p) in *.
  assert (Hf : has_shape (2 * (h / 2)) w (pmap to_f32 c)) by auto with shape.
  pose proof (has_shape_evens _ _ _ Hf) as He.
  pose proof (has_shape_odds _ _ _ Hf) as Ho.
  rewrite (RecoverFacts.shape2_rect_length (evens (pmap to_f32 c))
             (odds (pmap to_f32 c)) w (proj2 He) (proj2 Ho))
    by (destruct He as [-> _]; now destruct Ho as [-> _]).
  rewrite shape2_eqb_refl. cbn [negb].
  eexists. split; [reflexivity|].
  apply has_shape_pmap. unfold normalize_minmax. apply has_shape_pmap.
  now apply has_shape_pmap2.
Qed.

Lemma float_recover_none fused (p : plane float) alpha :
  length p = 1%nat -> recover_watermark_channel fused p alpha = None.
Proof. intros H. unfold recover_watermark_channel. now rewrite H. Qed.

(** The exact kernel and the binary32 kernel fail on the same shapes. *)
Lemma float_recover_fails_alike fused (F : plane float) (p : plane Q) a alpha h w :
  has_shape h w F -> has_shape h w p ->
  recover_watermark_channel fused F a = None
  <-> ExtractBackend.recover_watermark_channel p alpha = None.
Proof.
  intros HF Hp. destruct (Nat.eq_dec h 1) as [->|Hn].
  - rewrite float_recover_none by apply HF.
    rewrite RecoverFacts.recover_none by apply Hp. tauto.
  - destruct (float_recover_some_shape fused F a h w HF Hn) as (out & -> & _).
    destruct (RecoverFacts.recover_some p alpha h w Hp Hn) as [-> _].
    split; discriminate.
Qed.

(** What rounding does to the 8-bit plane.  The row difference
    [[55 53 52]] is recovered with alpha = 0.07 to [[0 169 255]] (to
    [[0 169 254]] with a fused multiply-add) and with alpha = 0.5 to
    [[0 170 255]], which is also what exact arithmetic gives for both. *)
Lemma recover_rounding_depends_on_alpha :
  recover_watermark_channel false (plane_of_Z FloatSamples.rows_a) FloatSamples.alpha_007
  = Some [[0; 169; 255]]%Z
  /\ recover_watermark_channel true (plane_of_Z FloatSamples.rows_a) FloatSamples.alpha_007
     = Some [[0; 169; 254]]%Z
  /\ recover_watermark_channel false (plane_of_Z FloatSamples.rows_a) FloatSamples.alpha_half
     = Some [[0; 170; 255]]%Z
  /\ recover_watermark_channel true (plane_of_Z FloatSamples.rows_a) FloatSamples.alpha_half
     = Some [[0; 170; 255]]%Z
  /\ ExtractBackend.recover_watermark_channel (to_float FloatSamples.rows_a) (7 # 100)
     = Some [[0; 170; 255]]%Z
  /\ ExtractBackend.recover_watermark_channel (to_float FloatSamples.rows_a) (1 # 2)
     = Some [[0; 170; 255]]%Z.
Proof. repeat split; vm_compute; reflexivity. Qed.

(** With alpha = 1/4 and alpha' = 1/2 every step is exact in binary
    arithmetic: the plane embedded with alpha is recovered to [[0 127 255]]
    with either value, in floats as in the exact model. *)
Lemma recover_alpha_mismatch_in_floats :
  exists embedded,
    embedd_matrix (cv := Reference.opencv) (plane_of_Z FloatSamples.cover_a)
      Samples.payload_1x3 FloatSamples.alpha_quarter = Some embedded
    /\ recover_watermark_channel false embedded FloatSamples.alpha_quarter
       = Some [[0; 127; 255]]%Z
    /\ recover_watermark_channel true embedded FloatSamples.alpha_quarter
       = Some [[0; 127; 255]]%Z
    /\ recover_watermark_channel false embedded FloatSamples.alpha_half
       = Some [[0; 127; 255]]%Z
    /\ recover_watermark_channel true embedded FloatSamples.alpha_half
       = Some [[0; 127; 255]]%Z.
Proof.
  eexists. split; [vm_compute; reflexivity|].
  repeat split; vm_compute; reflexivity.
Qed.

(** The row difference [[9 8 4]] with alpha = 0.07: exact arithmetic
    stretches it to [[0 51 255]]; in binary32 the two upper samples fall
    just short of 51 and 255, and the cast truncates them to 50 and 254. *)
Lemma recover_rounding_below_exact :
  recover_watermark_channel false (plane_of_Z FloatSamples.rows_b) FloatSamples.alpha_007
  = Some [[0; 50; 254]]%Z
  /\ recover_watermark_channel true (plane_of_Z FloatSamples.rows_b) FloatSamples.alpha_007
     = Some [[0; 50; 254]]%Z
  /\ ExtractBackend.recover_watermark_channel (to_float FloatSamples.rows_b) (7 # 100)
     = Some [[0; 51; 255]]%Z.
Proof. repeat split; vm_compute; reflexivity. Qed.

(** A cover of samples 2^30 swallows the payload in binary32: the recovered
    plane is black. *)
Lemma recover_huge_cover_is_black :
  FloatSamples.round_trip false FloatSamples.cover_huge FloatSamples.payload_1x4
    FloatSamples.alpha_007 = Some [[0; 0; 0; 0]]%Z.
Proof. vm_compute. reflexivity. Qed.

End IeeeFacts.

(** C3, as stated, fails: a plane embedded with alpha = 1/4 is recovered to
    the same 8-bit plane with alpha = 1/4 and with alpha' = 1/2; the second
    is not the first scaled by alpha / alpha'. *)
Lemma recovery_ignores_alpha_mismatch :
  let COVER := [[10; 20; 30]; [12; 18; 34]] in
  let WATERMARK := [[0; 16; 32]] in
  let alpha := 1 # 4 in
  let alpha' := 1 # 2 in
  exists E out out',
    EmbedBackend.embedd_matrix (cv := Reference.opencv) COVER WATERMARK alpha = Some E
    /\ ExtractBackend.recover_watermark_channel E alpha = Some out
    /\ ExtractBackend.recover_watermark_channel E alpha' = Some out'
    /\ plane_equiv E [[14; 23; 37]; [8; 15; 27]]
    /\ out = [[0; 127; 255]]%Z
    /\ out' = out
    /\ ~ scaled_by (alpha / alpha') out out'.
Proof.
  cbv zeta. eexists. exists [[0; 127; 255]]%Z, [[0; 127; 255]]%Z.
  split; [vm_compute; reflexivity|].
  split; [vm_compute; reflexivity|].
  split; [vm_compute; reflexivity|].
  split; [repeat constructor|].
  split; [reflexivity|]. split; [reflexivity|].
  intros H. inversion H as [|? ? ? ? Hr _]; subst.
  inversion Hr as [|? ? ? ? _ Hr']; subst.
  inversion Hr' as [|? ? ? ? Hv _]; subst.
  vm_compute in Hv. discriminate Hv.
Qed.

(** C3, amended. For positive alpha and alpha' the un-normalised signal
    [wm_float] scales by alpha / alpha'.  The min-max normalisation that
    follows cancels the factor: in exact arithmetic the normalised plane
    [wm_normalized], the float plane before the 8-bit cast, is the same for
    both (as long as both scaled spreads are on the same side of the
    [DBL_EPSILON] guard).  So the plane [recover_watermark_channel] returns
    is not scaled by alpha / alpha': recovery succeeds with both values and
    returns 8-bit planes of one shape, which agree up to what the rounding
    of the binary32 arithmetic does at the truncating cast. *)
Theorem recovered_signal_scales_normalised_plane_does_not
    (channel_data : plane Q) (alpha alpha' : Q) (h w : nat) :
  has_shape h w channel_data -> (2 <= h)%nat -> 0 < alpha -> 0 < alpha' ->
  (spread (row_difference channel_data) == 0
   \/ (2 * alpha * ExtractBackend.DBL_EPSILON < spread (row_difference channel_data)
       /\ 2 * alpha' * ExtractBackend.DBL_EPSILON < spread (row_difference channel_data))) ->
  plane_equiv (ExtractBackend.wm_float channel_data alpha')
              (pmap (Qmult (alpha / alpha')) (ExtractBackend.wm_float channel_data alpha))
  /\ plane_equiv (ExtractBackend.wm_normalized channel_data alpha')
                 (ExtractBackend.wm_normalized channel_data alpha)
  /\ exists out out',
       ExtractBackend.recover_watermark_channel channel_data alpha = Some out
       /\ ExtractBackend.recover_watermark_channel channel_data alpha' = Some out'
       /\ has_shape (h / 2) w out /\ has_shape (h / 2) w out'.
Proof.
  intros H Hh Ha Ha' Hs.
  assert (Hc : forall a, 0 < a -> 0 < / (2 * a)).
  { intros a Hp. apply Qinv_lt_0_compat. lra. }
  split; [|split].
  - rewrite !RecoverFacts.wm_float_row_difference, RecoverFacts.pmap_pmap.
    apply NormalizeFacts.plane_equiv_pmap; [|apply NormalizeFacts.plane_equiv_refl].
    intros x y Hxy. rewrite Hxy. field. split; lra.
  - unfold ExtractBackend.wm_normalized.
    rewrite !RecoverFacts.wm_float_row_difference.
    destruct Hs as [Hs|[Hs Hs']].
    + etransitivity; [apply RecoverFacts.normalize_scaled_degenerate; auto|].
      symmetry. apply RecoverFacts.normalize_scaled_degenerate; auto.
    + etransitivity; [apply RecoverFacts.normalize_scaled_stretch; auto|].
      * now apply guard_scaled.
      * symmetry. apply RecoverFacts.normalize_scaled_stretch; auto.
        now apply guard_scaled.
  - destruct (RecoverFacts.recover_some channel_data alpha h w H ltac:(lia)) as [E S].
    destruct (RecoverFacts.recover_some channel_data alpha' h w H ltac:(lia)) as [E' S'].
    eexists. eexists. split; [exact E|]. split; [exact E'|]. split; assumption.
Qed.

(** ** Embedding followed by recovery *)

Module RoundTripFacts.
Import EmbedBackend ExtractBackend.

Section WithOpenCV.
Context {cv : OpenCV} {cvs : OpenCVSpec cv}.

(** The smoothed payload depends on the cover only through its shape. *)
Lemma smoothed_payload_shape_only C1 C2 P k w :
  has_shape (2 * k) w C1 -> has_shape (2 * k) w C2 -> (0 < k)%nat ->
  smoothed_payload C1 P = smoothed_payload C2 P.
Proof.
  intros H1 H2 Hk. unfold smoothed_payload.
  rewrite (shape2_has_shape _ k w (has_shape_evens _ _ _ H1) Hk).
  rewrite (shape2_has_shape _ k w (has_shape_evens _ _ _ H2) Hk).
  reflexivity.
Qed.

(** The un-normalised signal of an embedded plane, recovered with the
    embedding alpha: the smoothed payload, whatever the cover. *)
Lemma embedded_signal COVER WATERMARK alpha k w h' w' :
  has_shape (2 * k) w COVER -> (0 < k)%nat -> (0 < w)%nat ->
  has_shape h' w' WATERMARK -> (0 < h')%nat -> (0 < w')%nat -> 0 < alpha ->
  exists E,
    embedd_matrix COVER WATERMARK alpha = Some E
    /\ has_shape (2 * k) w E
    /\ plane_equiv (wm_float E alpha) (smoothed_payload COVER WATERMARK).
Proof.
  intros HC Hk Hw HW Hh' Hw' Ha.
  pose proof (EmbedFacts.embedd_matrix_eq _ _ alpha k w _ _ HC Hk Hw HW Hh' Hw') as E.
  cbv zeta in E.
  pose proof (EmbedFacts.smoothed_payload_shape _ _ _ _ _ _ HC Hk Hw HW Hh' Hw') as HB.
  set (B := smoothed_payload COVER WATERMARK) in *.
  set (base := pmap2 (fun e o => (e + o) / 2) (evens COVER) (odds COVER)) in *.
  set (signal := pmap (fun v => v * alpha) B) in *.
  assert (Hbase : has_shape k w base) by (unfold base; auto with shape).
  assert (Hsig : has_shape k w signal) by (unfold signal; auto with shape).
  assert (Hp : has_shape k w (pmap2 Qplus base signal)) by auto with shape.
  assert (Hm : has_shape k w (pmap2 Qminus base signal)) by auto with shape.
  eexists. split; [exact E|].
  set (EMB := interleave (pmap2 Qplus base signal) (pmap2 Qminus base signal)).
  assert (HE : has_shape (2 * k) w EMB) by now apply has_shape_interleave.
  split; [exact HE|].
  assert (Hcrop : cropped EMB = EMB).
  { unfold cropped. destruct HE as [-> _]. now rewrite RecoverFacts.odd_double. }
  unfold wm_float. rewrite Hcrop.
  destruct (RecoverFacts.evens_interleave (pmap2 Qplus base signal)
              (pmap2 Qminus base signal)) as [Ee Eo].
  { destruct Hp as [-> _]. now destruct Hm as [-> _]. }
  unfold EMB. rewrite Ee, Eo.
  apply (RecoverFacts.plane_equiv_get _ _ k w); [now apply has_shape_pmap2 | exact HB |].
  intros i j Hi Hj.
  rewrite (get_pmap2 _ _ _ i j k w) by assumption.
  rewrite (get_pmap2 Qplus base signal i j k w), (get_pmap2 Qminus base signal i j k w)
    by assumption.
  unfold signal. rewrite (get_pmap _ B i j k w) by assumption.
  field. lra.
Qed.

End WithOpenCV.
End RoundTripFacts.

(** C9, as stated, fails in the arithmetic of the code (binary64 embedding,
    binary32 recovery, truncating cast): with alpha = 0.07 and the payload
    [[0 0 0 16]], which the blur turns into [[0 1 4 6]], the all-zero cover
    is recovered to [[0 42 170 255]] and the cover
    [[209 82 56 44] [123 52 51 10]] to [[0 42 169 255]], with or without a
    fused multiply-add in the normalisation. *)
Lemma recovered_plane_depends_on_cover :
  plane_equiv (GaussianBlur (OpenCV := Reference.opencv) FloatSamples.payload_1x4)
              [[0; 1; 4; 6]]
  /\ FloatSamples.round_trip false FloatSamples.cover_zero FloatSamples.payload_1x4
       FloatSamples.alpha_007 = Some [[0; 42; 170; 255]]%Z
  /\ FloatSamples.round_trip true FloatSamples.cover_zero FloatSamples.payload_1x4
       FloatSamples.alpha_007 = Some [[0; 42; 170; 255]]%Z
  /\ FloatSamples.round_trip false FloatSamples.cover_c FloatSamples.payload_1x4
       FloatSamples.alpha_007 = Some [[0; 42; 169; 255]]%Z
  /\ FloatSamples.round_trip true FloatSamples.cover_c FloatSamples.payload_1x4
       FloatSamples.alpha_007 = Some [[0; 42; 169; 255]]%Z
  /\ FloatSamples.round_trip false FloatSamples.cover_zero FloatSamples.payload_1x4
       FloatSamples.alpha_007
     <> FloatSamples.round_trip false FloatSamples.cover_c FloatSamples.payload_1x4
          FloatSamples.alpha_007
  /\ FloatSamples.round_trip true FloatSamples.cover_zero FloatSamples.payload_1x4
       FloatSamples.alpha_007
     <> FloatSamples.round_trip true FloatSamples.cover_c FloatSamples.payload_1x4
          FloatSamples.alpha_007.
Proof.
  split; [repeat constructor|].
  split; [vm_compute; reflexivity|].
  split; [vm_compute; reflexivity|].
  split; [vm_compute; reflexivity|].
  split; [vm_compute; reflexivity|].
  split; intros H; vm_compute in H; discriminate H.
Qed.

(** C9, amended. For two even-height covers of one shape, a payload and a
    positive alpha, embedding succeeds on both and recovery with the same
    alpha succeeds on both, with planes of the shape of the payload as
    embedded.  In exact arithmetic the signal that recovery reads is the
    same for both covers: [wm_float] is the blurred and resized payload and
    [wm_normalized], the float plane before the 8-bit cast, is its min-max
    normalisation.  The 8-bit planes returned agree up to the rounding of
    the float arithmetic, which depends on the cover. *)
Theorem recovered_signal_independent_of_cover {cv : OpenCV} {cvs : OpenCVSpec cv}
    (COVER1 COVER2 WATERMARK : plane Q) (alpha : Q) (k w h' w' : nat) :
  has_shape (2 * k) w COVER1 -> has_shape (2 * k) w COVER2 ->
  (0 < k)%nat -> (0 < w)%nat ->
  has_shape h' w' WATERMARK -> (0 < h')%nat -> (0 < w')%nat -> 0 < alpha ->
  exists E1 E2 out1 out2,
    EmbedBackend.embedd_matrix COVER1 WATERMARK alpha = Some E1
    /\ EmbedBackend.embedd_matrix COVER2 WATERMARK alpha = Some E2
    /\ plane_equiv (ExtractBackend.wm_float E1 alpha)
                   (EmbedBackend.smoothed_payload COVER1 WATERMARK)
    /\ plane_equiv (ExtractBackend.wm_float E2 alpha)
                   (EmbedBackend.smoothed_payload COVER1 WATERMARK)
    /\ plane_equiv (ExtractBackend.wm_normalized E1 alpha)
         (ExtractBackend.normalize_minmax
            (EmbedBackend.smoothed_payload COVER1 WATERMARK) 0 255)
    /\ plane_equiv (ExtractBackend.wm_normalized E2 alpha)
         (ExtractBackend.normalize_minmax
            (EmbedBackend.smoothed_payload COVER1 WATERMARK) 0 255)
    /\ ExtractBackend.recover_watermark_channel E1 alpha = Some out1
    /\ ExtractBackend.recover_watermark_channel E2 alpha = Some out2
    /\ has_shape k w out1 /\ has_shape k w out2.
Proof.
  intros H1 H2 Hk Hw HW Hh' Hw' Ha.
  destruct (RoundTripFacts.embedded_signal COVER1 WATERMARK alpha k w h' w')
    as (E1 & Ee1 & S1 & R1); try assumption.
  destruct (RoundTripFacts.embedded_signal COVER2 WATERMARK alpha k w h' w')
    as (E2 & Ee2 & S2 & R2); try assumption.
  rewrite (RoundTripFacts.smoothed_payload_shape_only COVER2 COVER1 _ k w) in R2
    by assumption.
  destruct (RecoverFacts.recover_some E1 alpha (2 * k) w S1 ltac:(lia)) as [O1 T1].
  destruct (RecoverFacts.recover_some E2 alpha (2 * k) w S2 ltac:(lia)) as [O2 T2].
  replace (2 * k / 2)%nat with k in T1, T2
    by (now rewrite Nat.mul_comm, Nat.div_mul).
  exists E1, E2. eexists. eexists.
  split; [exact Ee1|]. split; [exact Ee2|].
  split; [exact R1|]. split; [exact R2|].
  split; [now apply NormalizeFacts.normalize_comp|].
  split; [now apply NormalizeFacts.normalize_comp|].
  split; [exact O1|]. split; [exact O2|]. split; assumption.
Qed.

(** ** The extraction route *)

Module ExtractFacts.
Import ExtractBackend.

Lemma has_shape_merge3 {A} (a b c : plane A) h w :
  has_shape h w a -> has_shape h w b -> has_shape h w c ->
  has_shape h w (merge3 a b c).
Proof.
  intros Ha Hb Hc. unfold merge3.
  apply has_shape_pmap2; [assumption | now apply has_shape_pmap2].
Qed.

Lemma has_shape_unique_shape {A} (p q : list (list A)) h w :
  has_shape h w p -> has_shape h w q -> shape2 p = shape2 q.
Proof.
  intros [Hl Hr] [Hl' Hr']. apply (RecoverFacts.shape2_rect_length p q w); auto. lia.
Qed.

End ExtractFacts.

(** C10. For a decoded image (h x w, both positive): whenever the three
    channel recoveries succeed the three planes have the shape
    (h / 2, w), the route never answers with the grayscale plane, every
    colour answer has shape (32, 32, 3), and when the height is at least 2
    and the PNG encoder succeeds the answer is the colour image. *)
Theorem extract_never_falls_back_to_gray {cv : OpenCV} {cvs : OpenCVSpec cv}
    (imencode_color : image Z -> bool) (imencode_gray : plane Z -> bool)
    (image_file : ExtractBackend.upload) (image_bgr : image Z) (h w : nat) :
  ExtractBackend.imdecode image_file = Some image_bgr ->
  ExtractBackend.filename image_file <> ""%string ->
  has_shape h w image_bgr -> (0 < h)%nat -> (0 < w)%nat ->
  let image_ycrcb := cvtColor_BGR2YCrCb image_bgr in
  let answer :=
    ExtractBackend.extract_watermark imencode_color imencode_gray (Some image_file) in
  (forall wy wcr wcb,
      ExtractBackend.recover_watermark_channel
        (to_float (channel0 image_ycrcb)) ExtractBackend.ALPHA = Some wy ->
      ExtractBackend.recover_watermark_channel
        (to_float (channel1 image_ycrcb)) ExtractBackend.ALPHA = Some wcr ->
      ExtractBackend.recover_watermark_channel
        (to_float (channel2 image_ycrcb)) ExtractBackend.ALPHA = Some wcb ->
      has_shape (h / 2) w wy /\ has_shape (h / 2) w wcr /\ has_shape (h / 2) w wcb
      /\ shape2 wy = shape2 wcr /\ shape2 wy = shape2 wcb)
  /\ (forall g, answer <> ExtractBackend.SendGray g)
  /\ (forall out, answer = ExtractBackend.SendColor out ->
        has_shape 32 32 out /\ shape3 out = (32, 32, 3)%nat)
  /\ ((2 <= h)%nat -> (forall img, imencode_color img = true) ->
        exists out, answer = ExtractBackend.SendColor out).
Proof.
  intros Hdec Hname HI Hh Hw image_ycrcb answer.
  assert (HY : has_shape h w image_ycrcb) by now apply BGR2YCrCb_shape.
  assert (H0 : has_shape h w (to_float (channel0 image_ycrcb)))
    by (unfold to_float, channel0; now do 2 apply has_shape_pmap).
  assert (H1 : has_shape h w (to_float (channel1 image_ycrcb)))
    by (unfold to_float, channel1; now do 2 apply has_shape_pmap).
  assert (H2 : has_shape h w (to_float (channel2 image_ycrcb)))
    by (unfold to_float, channel2; now do 2 apply has_shape_pmap).
  assert (Hans : answer =
    match ExtractBackend.recover_watermark_channel
            (to_float (channel0 image_ycrcb)) ExtractBackend.ALPHA,
          ExtractBackend.recover_watermark_channel
            (to_float (channel1 image_ycrcb)) ExtractBackend.ALPHA,
          ExtractBackend.recover_watermark_channel
            (to_float (channel2 image_ycrcb)) ExtractBackend.ALPHA with
    | Some wy, Some wcr, Some wcb =>
        if negb (shape2_eqb (shape2 wy) (shape2 wcr)
                 && shape2_eqb (shape2 wy) (shape2 wcb))
        then ExtractBackend.Error500 "Image processing error" []
        else
          match cvtColor_YCrCb2BGR (merge3 wy wcr wcb) with
          | None =>
              if imencode_gray wy then ExtractBackend.SendGray wy
              else ExtractBackend.Error500
                     "Failed to encode fallback grayscale watermark" []
          | Some recovered_bgr =>
              if imencode_color (cv2_resize_u8 recovered_bgr (32, 32)%nat)
              then ExtractBackend.SendColor (cv2_resize_u8 recovered_bgr (32, 32)%nat)
              else ExtractBackend.Error500 "Failed to encode extracted watermark" []
          end
    | wy, wcr, wcb =>
        ExtractBackend.Error500 "Failed to extract watermark."
          (ExtractBackend.failed wy "Y channel recovery failed."
           ++ ExtractBackend.failed wcr "Cr channel recovery failed."
           ++ ExtractBackend.failed wcb "Cb channel recovery failed.")
    end).
  { unfold answer, ExtractBackend.extract_watermark. rewrite Hdec.
    destruct (String.eqb_spec (ExtractBackend.filename image_file) "");
      [contradiction|]. fold image_ycrcb.
    destruct (ExtractBackend.recover_watermark_channel
                (to_float (channel0 image_ycrcb)) ExtractBackend.ALPHA);
    destruct (ExtractBackend.recover_watermark_channel
                (to_float (channel1 image_ycrcb)) ExtractBackend.ALPHA);
    destruct (ExtractBackend.recover_watermark_channel
                (to_float (channel2 image_ycrcb)) ExtractBackend.ALPHA);
    reflexivity. }
  destruct (Nat.eq_dec h 1) as [Hone|Hone].
  - (* a single row: every recovery returns None *)
    rewrite !RecoverFacts.recover_none in Hans by (destruct H0, H1, H2; lia).
    rewrite !RecoverFacts.recover_none by (destruct H0, H1, H2; lia).
    split; [|split; [|split]].
    + intros ? ? ? E. discriminate E.
    + intros g. rewrite Hans. discriminate.
    + intros out E. rewrite Hans in E. discriminate E.
    + intros. lia.
  - destruct (RecoverFacts.recover_some _ ExtractBackend.ALPHA h w H0 Hone) as [R0 S0].
    destruct (RecoverFacts.recover_some _ ExtractBackend.ALPHA h w H1 Hone) as [R1 S1].
    destruct (RecoverFacts.recover_some _ ExtractBackend.ALPHA h w H2 Hone) as [R2 S2].
    rewrite R0, R1, R2 in Hans. rewrite R0, R1, R2. cbv zeta in Hans.
    set (wy := pmap astype_uint8 (ExtractBackend.normalize_minmax
           (ExtractBackend.wm_float (to_float (channel0 image_ycrcb)) _) 0 255)) in *.
    set (wcr := pmap astype_uint8 (ExtractBackend.normalize_minmax
           (ExtractBackend.wm_float (to_float (channel1 image_ycrcb)) _) 0 255)) in *.
    set (wcb := pmap astype_uint8 (ExtractBackend.normalize_minmax
           (ExtractBackend.wm_float (to_float (channel2 image_ycrcb)) _) 0 255)) in *.
    rewrite <- (ExtractFacts.has_shape_unique_shape wy wcr _ _ S0 S1) in Hans.
    rewrite <- (ExtractFacts.has_shape_unique_shape wy wcb _ _ S0 S2) in Hans.
    rewrite !shape2_eqb_refl in Hans. simpl negb in Hans. cbv iota in Hans.
    assert (Hpos : (0 < h / 2)%nat).
    { apply Nat.div_str_pos. lia. }
    destruct (YCrCb2BGR_total (merge3 wy wcr wcb) (h / 2) w
                (ExtractFacts.has_shape_merge3 _ _ _ _ _ S0 S1 S2) Hpos Hw)
      as (bgr & Ebgr & Sbgr).
    rewrite Ebgr in Hans.
    pose proof (resize_u8_shape bgr (h / 2) w 32 32 Sbgr Hpos Hw ltac:(lia) ltac:(lia))
      as Sfinal.
    split; [|split; [|split]].
    + intros ? ? ? [= <-] [= <-] [= <-]. repeat split; try apply S0; try apply S1;
        try apply S2; now apply (ExtractFacts.has_shape_unique_shape _ _ (h / 2) w).
    + intros g. rewrite Hans.
      destruct (imencode_color (cv2_resize_u8 bgr (32, 32)%nat)); discriminate.
    + intros out E. rewrite Hans in E.
      destruct (imencode_color (cv2_resize_u8 bgr (32, 32)%nat)); [|discriminate].
      injection E as <-. split; [exact Sfinal|].
      unfold shape3. pose proof (shape2_has_shape _ _ _ Sfinal ltac:(lia)) as S.
      unfold shape2 in S. injection S as -> ->. reflexivity.
    + intros _ Henc. rewrite Hans, Henc. eexists. reflexivity.
Qed.

(** ** The verifier *)

Module VerifyFacts.
Import VerifyBackend.

Lemma fge_iff x c : fge x c = true <-> exists q, x = Fin q /\ c <= q.
Proof.
  destruct x as [q|]; simpl.
  - rewrite Qle_bool_iff. split; [intros H; now exists q | intros (q' & [= <-] & H); exact H].
  - split; [discriminate | intros (q & H & _); discriminate].
Qed.

(** The decision rule, as a proposition. *)
Lemma decide_authentic p s c :
  decide p s c = Authentic
  <-> 30 <= p /\ (95 # 100) <= s /\ exists q, c = Fin q /\ (98 # 100) <= q.
Proof.
  unfold decide. rewrite <- fge_iff, <- !Qle_bool_iff.
  destruct (Qle_bool 30 p), (Qle_bool (95 # 100) s), (fge c (98 # 100)); simpl;
    intuition discriminate.
Qed.

Lemma decide_tampered p s c :
  decide p s c = Tampered <-> decide p s c <> Authentic.
Proof. destruct (decide p s c); split; congruence. Qed.

Lemma qsum_zero l : Forall (fun v => v == 0) l -> qsum l == 0.
Proof.
  induction 1 as [|x l Hx _ IH]; simpl; [reflexivity|]. rewrite Hx, IH. ring.
Qed.

(** The mean squared error of an image against itself is 0. *)
Lemma mean_squared_error_self img : mean_squared_error img img == 0.
Proof.
  unfold mean_squared_error.
  rewrite qsum_zero.
  - unfold Qdiv. ring.
  - generalize (flatten img). intros l. induction l as [|x l IH]; simpl; constructor; [|exact IH].
    ring.
Qed.

End VerifyFacts.

(** C1, as stated, fails at a pair of decoded 6 x 6 images: the 7 x 7
    window of the similarity routine does not fit, the routine raises, and
    the route answers 500 with no verdict at all. *)
Lemma verify_small_pair_gets_no_verdict :
  VerifyBackend.verify_watermarks (cv := Reference.opencv) (mt := Reference.metrics)
    (Some (Some (Samples.ramp 6 6))) (Some (Some (Samples.ramp 6 6)))
  = VerifyBackend.Error500.
Proof. vm_compute. reflexivity. Qed.

(** C1, amended. For every pair of decoded images: when the similarity
    routine raises, the route answers 500 and gives no verdict; otherwise
    the JSON result carries the psnr, ssim and correlation computed from the
    reference and the resized extracted image, and its verdict is Authentic
    exactly when psnr >= 30, ssim >= 0.95 and correlation >= 0.98 all hold
    of these computed values, and Tampered in every other case; one metric
    below its threshold, or a NaN correlation, is enough for Tampered. *)
Theorem verify_verdict_from_computed_metrics {cv : OpenCV} {mt : Metrics}
    (initial_watermark extracted_watermark : image Z) :
  let answer :=
    VerifyBackend.verify_watermarks (Some (Some initial_watermark))
                                    (Some (Some extracted_watermark)) in
  let p := Computed.psnr_value initial_watermark extracted_watermark in
  let c := Computed.correlation initial_watermark extracted_watermark in
  match Computed.ssim_value initial_watermark extracted_watermark with
  | None => answer = VerifyBackend.Error500
  | Some s =>
      exists r,
        answer = VerifyBackend.SendJson r
        /\ VerifyBackend.psnr r = p
        /\ VerifyBackend.ssim r = s
        /\ VerifyBackend.correlation r = c
        /\ (VerifyBackend.status r = VerifyBackend.Authentic
            <-> Computed.all_pass initial_watermark extracted_watermark s)
        /\ (VerifyBackend.status r = VerifyBackend.Tampered
            <-> ~ Computed.all_pass initial_watermark extracted_watermark s)
        /\ (p < 30 -> VerifyBackend.status r = VerifyBackend.Tampered)
        /\ (s < (95 # 100) -> VerifyBackend.status r = VerifyBackend.Tampered)
        /\ (forall q, c = Fin q -> q < (98 # 100) ->
              VerifyBackend.status r = VerifyBackend.Tampered)
        /\ (c = NaN -> VerifyBackend.status r = VerifyBackend.Tampered)
  end.
Proof.
  cbv zeta.
  unfold VerifyBackend.verify_watermarks, Computed.ssim_value, Computed.all_pass,
    Computed.psnr_value, Computed.correlation, Computed.mse, Computed.resized.
  destruct (structural_similarity _ _) as [s|]; [|reflexivity].
  eexists. split; [reflexivity|]. cbn [VerifyBackend.status VerifyBackend.psnr
    VerifyBackend.ssim VerifyBackend.correlation].
  set (p := if Qeq_bool _ 0 then _ else _).
  set (c := corrcoef _ _).
  pose proof (VerifyFacts.decide_authentic p s c) as A.
  pose proof (VerifyFacts.decide_tampered p s c) as T.
  rewrite A in T.
  split; [reflexivity|]. split; [reflexivity|]. split; [reflexivity|].
  split; [exact A|]. split; [exact T|].
  repeat split.
  - intros H. apply T. intros (H1 & _). lra.
  - intros H. apply T. intros (_ & H1 & _). lra.
  - intros q Hq H. apply T. intros (_ & _ & q' & E & H1). rewrite Hq in E.
    injection E as <-. lra.
  - intros Hq. apply T. intros (_ & _ & q' & E & _). rewrite Hq in E. discriminate.
Qed.

(** ** The reference metrics meet the metric contracts *)

Module PearsonFacts.
Import Reference.

Lemma map2_diag {A B} (f : A -> A -> B) l : map2 f l l = map (fun x => f x x) l.
Proof. induction l as [|x l IH]; simpl; [reflexivity | now rewrite IH]. Qed.

Lemma sq_dist_expand a l :
  sq_dist a l
  = (zsum (map (fun x => x * x) l) - 2 * a * zsum l + Z.of_nat (length l) * a * a)%Z.
Proof.
  unfold sq_dist. induction l as [|x l IH]; [simpl; ring|].
  simpl map. simpl zsum. simpl length. rewrite IH, Nat2Z.inj_succ. ring.
Qed.

Lemma sq_dist_nonneg a l : (0 <= sq_dist a l)%Z.
Proof.
  unfold sq_dist. induction l as [|x l IH]; simpl; [lia|].
  pose proof (Z.square_nonneg (x - a)). lia.
Qed.

Lemma sq_dist_zero a l : sq_dist a l = 0%Z -> Forall (fun x => x = a) l.
Proof.
  unfold sq_dist. induction l as [|x l IH]; simpl; intros H; constructor.
  - pose proof (Z.square_nonneg (x - a)). pose proof (sq_dist_nonneg a l) as Hn.
    unfold sq_dist in Hn. assert (E : ((x - a) * (x - a) = 0)%Z) by lia.
    apply Z.mul_eq_0 in E. lia.
  - apply IH. pose proof (Z.square_nonneg (x - a)). pose proof (sq_dist_nonneg a l) as Hn.
    unfold sq_dist in Hn. lia.
Qed.

(** The scaled variance grows by the squared distances to a new sample. *)
Lemma scaled_cov_cons a l :
  scaled_cov (a :: l) (a :: l) = (scaled_cov l l + sq_dist a l)%Z.
Proof.
  unfold scaled_cov. rewrite !map2_diag, sq_dist_expand.
  simpl map. simpl zsum. simpl length. rewrite Nat2Z.inj_succ. ring.
Qed.

Lemma scaled_cov_nonneg l : (0 <= scaled_cov l l)%Z.
Proof.
  induction l as [|a l IH]; [unfold scaled_cov; simpl; lia|].
  rewrite scaled_cov_cons. pose proof (sq_dist_nonneg a l). lia.
Qed.

Lemma constant_cons a l : constant (a :: l) <-> Forall (fun x => x = a) l.
Proof.
  unfold constant. rewrite Forall_forall. split.
  - intros H x Hx. apply H; [now right | now left].
  - intros H x y [<-|Hx] [<-|Hy]; auto.
    + symmetry. now apply H.
    + rewrite (H x Hx). symmetry. now apply H.
Qed.

(** Zero variance is the same as being constant. *)
Lemma scaled_cov_zero_iff l : scaled_cov l l = 0%Z <-> constant l.
Proof.
  induction l as [|a l IH].
  - split; [intros _ x y [] | reflexivity].
  - rewrite scaled_cov_cons, constant_cons.
    pose proof (scaled_cov_nonneg l). pose proof (sq_dist_nonneg a l). split.
    + intros E. apply sq_dist_zero. lia.
    + intros Hc. assert (E : sq_dist a l = 0%Z).
      { unfold sq_dist. clear - Hc. induction Hc as [|x l -> _ IH]; simpl; [reflexivity|].
        rewrite IH. ring. }
      rewrite E, Z.add_0_r. apply IH.
      destruct l as [|b l]; [intros x y []|].
      apply constant_cons. inversion Hc; subst. assumption.
Qed.

Lemma pearson_constant x y : constant x -> pearson x y = NaN.
Proof.
  intros H. apply scaled_cov_zero_iff in H. unfold pearson. now rewrite H.
Qed.

Lemma pearson_self x : ~ constant x -> pearson x x = Fin 1.
Proof.
  intros H. unfold pearson.
  pose proof (scaled_cov_nonneg x) as Hn.
  assert (Hv : scaled_cov x x <> 0%Z) by (intros E; apply H; now apply scaled_cov_zero_iff).
  set (v := scaled_cov x x) in *.
  destruct (Z.eqb_spec v 0) as [E|_]; [contradiction|]. cbn [orb].
  replace (v * v * 2 ^ 104)%Z with ((v * 2 ^ 52) * (v * 2 ^ 52))%Z by ring.
  rewrite Z.sqrt_square by lia.
  assert (E1 : (v * 2 ^ 52 # Z.to_pos (v * 2 ^ 52)) == 1).
  { unfold Qeq. simpl. rewrite Z2Pos.id by lia. lia. }
  unfold qmin. rewrite (Qleb_comp 1 1 (Qeq_refl 1) _ 1 E1). reflexivity.
Qed.

End PearsonFacts.

Module SsimFacts.
Import Reference VerifyBackend.

Lemma qcount_cons a l : qcount (a :: l) == qcount l + 1.
Proof.
  unfold qcount. simpl length. rewrite Nat2Z.inj_succ. unfold Z.succ.
  now rewrite inject_Z_plus.
Qed.

Lemma qcount_nonneg l : 0 <= qcount l.
Proof.
  unfold qcount. change 0 with (inject_Z 0). rewrite <- Zle_Qle. lia.
Qed.

Lemma qsum_squares_nonneg (f : Q -> Q) l : 0 <= qsum (map (fun x => f x * f x) l).
Proof.
  induction l as [|x l IH]; simpl; [lra|].
  assert (0 <= f x * f x) by nra.
  lra.
Qed.

Lemma qsq_dist_expand a l :
  qsum (map (fun x => (x - a) * (x - a)) l)
  == qsum (map (fun x => x * x) l) - 2 * a * qsum l + qcount l * a * a.
Proof.
  induction l as [|x l IH].
  - unfold qcount. simpl. ring.
  - rewrite qcount_cons. simpl map. simpl qsum. rewrite IH. ring.
Qed.

(** [(sum l)^2 <= n * sum of squares]. *)
Lemma sum_square_bound l :
  qsum l * qsum l <= qcount l * qsum (map (fun x => x * x) l).
Proof.
  induction l as [|a l IH].
  - unfold qcount. simpl. lra.
  - rewrite qcount_cons. simpl map. simpl qsum.
    pose proof (qsum_squares_nonneg (fun x => x - a) l) as Hd.
    rewrite qsq_dist_expand in Hd.
    set (s := qsum l) in *. set (q := qsum (map (fun x => x * x) l)) in *.
    set (n := qcount l) in *. nra.
Qed.

(** The windowed variance is not negative. *)
Lemma mean_square_bound l : mean l * mean l <= mean (map2 Qmult l l).
Proof.
  unfold mean. rewrite PearsonFacts.map2_diag, length_map. fold (qcount l).
  pose proof (sum_square_bound l) as H. pose proof (qcount_nonneg l) as Hn.
  set (s := qsum l) in *. set (q := qsum (map (fun x => x * x) l)) in *.
  set (n := qcount l) in *.
  destruct (Qeq_dec n 0) as [E|E].
  - rewrite E. unfold Qdiv. change (/ 0) with 0. lra.
  - assert (Hp : 0 < n) by lra.
    setoid_replace (s / n * (s / n)) with (s * s * / (n * n)) by (field; exact E).
    setoid_replace (q / n) with (n * q * / (n * n)) by (field; exact E).
    apply Qmult_le_r; [|exact H]. apply Qinv_lt_0_compat. nra.
Qed.

(** A window compared with itself scores 1. *)
Lemma ssim_window_self wx : ssim_window wx wx == 1.
Proof.
  unfold ssim_window. pose proof (mean_square_bound wx) as H.
  set (u := mean wx) in *. set (m := mean (map2 Qmult wx wx)) in *.
  assert (H1 : 0 < ssim_C1) by reflexivity.
  assert (H2 : 0 < ssim_C2) by reflexivity.
  assert (Hc : 0 < cov_norm) by reflexivity.
  assert (Hv : 0 <= cov_norm * (m - u * u)) by (apply Qmult_le_0_compat; lra).
  assert (Hu : 0 <= u * u) by nra.
  set (v := cov_norm * (m - u * u)) in *.
  field. split; lra.
Qed.

Lemma qsum_ones l : Forall (fun v => v == 1) l -> qsum l == qcount l.
Proof.
  induction 1 as [|x l Hx _ IH]; [reflexivity|].
  rewrite qcount_cons. simpl. rewrite Hx, IH. ring.
Qed.

Lemma mean_ones l : l <> [] -> Forall (fun v => v == 1) l -> mean l == 1.
Proof.
  intros Hne H. unfold mean. rewrite (qsum_ones l H). fold (qcount l).
  assert (Hp : 0 < qcount l).
  { destruct l as [|x l]; [contradiction|]. rewrite qcount_cons.
    pose proof (qcount_nonneg l). lra. }
  field. lra.
Qed.

Lemma ssim_channel_self x h w :
  has_shape h w x -> (7 <= h)%nat -> (7 <= w)%nat -> ssim_channel x x == 1.
Proof.
  intros H Hh Hw. unfold ssim_channel.
  pose proof (shape2_has_shape _ _ _ H ltac:(lia)) as S. unfold shape2 in S.
  injection S as -> ->. apply mean_ones.
  - destruct h as [|h]; [lia|]. destruct w as [|w]; [lia|].
    replace (S h - 6)%nat with (S (h - 6)) by lia.
    replace (S w - 6)%nat with (S (w - 6)) by lia.
    rewrite <- !cons_seq. simpl. discriminate.
  - apply Forall_forall. intros v Hv. apply in_flat_map in Hv.
    destruct Hv as (i & _ & Hv). apply in_map_iff in Hv.
    destruct Hv as (j & <- & _). apply ssim_window_self.
Qed.

Lemma mean_ssim_self img h w :
  has_shape h w img -> (7 <= h)%nat -> (7 <= w)%nat ->
  exists s, mean_ssim img img = Some s /\ s == 1.
Proof.
  intros H Hh Hw. unfold mean_ssim.
  assert (E3 : shape3_eqb (shape3 img) (shape3 img) = true) by now apply shape3_eqb_eq.
  rewrite E3. simpl negb. cbv iota.
  pose proof (shape2_has_shape _ _ _ H ltac:(lia)) as S. unfold shape2 in S.
  injection S as S1 S2. rewrite S1, S2.
  assert (L1 : Nat.ltb h 7 = false) by (apply Nat.ltb_ge; lia).
  assert (L2 : Nat.ltb w 7 = false) by (apply Nat.ltb_ge; lia).
  rewrite L1, L2. simpl orb. cbv iota.
  eexists. split; [reflexivity|].
  rewrite (ssim_channel_self (to_float (channel0 img)) h w),
          (ssim_channel_self (to_float (channel1 img)) h w),
          (ssim_channel_self (to_float (channel2 img)) h w);
    try assumption;
    try (unfold to_float, channel0, channel1, channel2; now do 2 apply has_shape_pmap).
  reflexivity.
Qed.

#[export] Instance metrics_spec : MetricsSpec metrics.
Proof.
  constructor.
  - exact mean_ssim_self.
  - exact PearsonFacts.pearson_constant.
  - intros x H. exists 1. split; [now apply PearsonFacts.pearson_self | reflexivity].
Qed.

End SsimFacts.

(** ** Verification of identical images *)

Module IdenticalFacts.
Import VerifyBackend.

Section WithLibraries.
Context {cv : OpenCV} {cvs : OpenCVSpec cv} {mt : Metrics} {mts : MetricsSpec mt}.

Lemma shape3_has_shape {A} (img : image A) h w :
  has_shape h w img -> (0 < h)%nat -> shape3 img = (h, w, 3%nat).
Proof.
  intros H Hh. unfold shape3. pose proof (shape2_has_shape _ _ _ H Hh) as S.
  unfold shape2 in S. injection S as -> ->. reflexivity.
Qed.

(** The route on an image and itself, once the 7 x 7 window fits. *)
Lemma verify_self_eq img h w :
  has_shape h w img -> (7 <= h)%nat -> (7 <= w)%nat ->
  exists s, s == 1 /\
    verify_watermarks (Some (Some img)) (Some (Some img))
    = SendJson {| psnr := 99999 # 100;
                  ssim := s;
                  correlation := corrcoef (flatten img) (flatten img);
                  status := decide (99999 # 100) s (corrcoef (flatten img) (flatten img)) |}.
Proof.
  intros H Hh Hw. unfold verify_watermarks.
  rewrite (shape3_has_shape img h w H ltac:(lia)). cbn [fst snd].
  rewrite (resize_u8_same img h w H ltac:(lia) ltac:(lia)).
  destruct (ssim_self img h w H Hh Hw) as (s & Es & Hs). rewrite Es.
  rewrite (Qeq_eq_bool _ _ (VerifyFacts.mean_squared_error_self img)).
  exists s. split; [exact Hs | reflexivity].
Qed.

(** A constant image compared with itself is declared Tampered: its
    correlation is NaN. *)
Lemma verify_constant_image_tampered img h w :
  has_shape h w img -> (7 <= h)%nat -> (7 <= w)%nat -> constant (flatten img) ->
  exists r, verify_watermarks (Some (Some img)) (Some (Some img)) = SendJson r
            /\ correlation r = NaN /\ status r = Tampered.
Proof.
  intros H Hh Hw Hc. destruct (verify_self_eq img h w H Hh Hw) as (s & _ & E).
  eexists. split; [exact E|]. cbn [correlation status].
  rewrite (corrcoef_constant _ _ Hc). split; [reflexivity|].
  unfold decide. cbn [fge]. now rewrite andb_false_r.
Qed.

End WithLibraries.
End IdenticalFacts.



(** ** The theorems at sample inputs *)

Lemma has_shape_solid {A} (h w : nat) (px : A) : has_shape h w (Reference.solid h w px).
Proof.
  unfold Reference.solid. split; [apply repeat_length|].
  unfold rect. apply Forall_forall. intros r Hr. apply repeat_spec in Hr. subst.
  apply repeat_length.
Qed.

Lemma has_shape_ramp (h w : nat) : has_shape h w (Samples.ramp h w).
Proof.
  unfold Samples.ramp. split; [now rewrite length_map, length_seq|].
  unfold rect. rewrite Forall_map. apply Forall_forall. intros i _.
  now rewrite length_map, length_seq.
Qed.

Lemma verify_verdict_from_computed_metrics_witness :
  exists r,
    VerifyBackend.verify_watermarks (cv := Reference.opencv) (mt := Reference.metrics)
      (Some (Some (Samples.ramp 8 8))) (Some (Some Samples.gray8))
    = VerifyBackend.SendJson r
    /\ VerifyBackend.psnr r
       = Computed.psnr_value (cv := Reference.opencv) (mt := Reference.metrics)
           (Samples.ramp 8 8) Samples.gray8
    /\ VerifyBackend.correlation r = NaN
    /\ VerifyBackend.status r = VerifyBackend.Tampered.
Proof.
  pose proof (verify_verdict_from_computed_metrics (cv := Reference.opencv)
                (mt := Reference.metrics) (Samples.ramp 8 8) Samples.gray8) as H.
  cbv zeta in H.
  destruct (Computed.ssim_value (Samples.ramp 8 8) Samples.gray8) as [s|] eqn:E;
    [|vm_compute in E; discriminate E].
  destruct H as (r & Hr & Hp & _ & Hc & _ & _ & _ & _ & _ & Hnan).
  assert (C : Computed.correlation (cv := Reference.opencv) (mt := Reference.metrics)
                (Samples.ramp 8 8) Samples.gray8 = NaN) by (vm_compute; reflexivity).
  exists r. split; [exact Hr|]. split; [exact Hp|].
  split; [now rewrite Hc | exact (Hnan C)].
Defined.

Lemma embedd_matrix_pair_witness :
  has_shape (2 * 1) 3 Samples.cover_a
  /\ exists out,
       EmbedBackend.embedd_matrix (cv := Reference.opencv)
         Samples.cover_a Samples.payload_2x2 EmbedBackend.ALPHA = Some out
       /\ has_shape (2 * 1) 3 out.
Proof.
  assert (HC : has_shape (2 * 1) 3 Samples.cover_a)
    by literal_shape.
  assert (HW : has_shape 2 2 Samples.payload_2x2)
    by literal_shape.
  split; [exact HC|].
  destruct (embedd_matrix_pair_average_and_difference
              (cv := Reference.opencv) (cvs := ReferenceFacts.opencv_spec)
              Samples.cover_a Samples.payload_2x2 EmbedBackend.ALPHA 1 3 2 2
              HC ltac:(lia) ltac:(lia) HW ltac:(lia) ltac:(lia))
    as (out & E & S & _).
  exists out. split; assumption.
Defined.

Lemma recovered_signal_scales_normalised_plane_does_not_witness :
  0 < (7 # 100) /\ 0 < (14 # 100)
  /\ plane_equiv (ExtractBackend.wm_float [[4; 0; 3]; [0; 0; 1]] (14 # 100))
                 (pmap (Qmult ((7 # 100) / (14 # 100)))
                       (ExtractBackend.wm_float [[4; 0; 3]; [0; 0; 1]] (7 # 100)))
  /\ plane_equiv (ExtractBackend.wm_normalized [[4; 0; 3]; [0; 0; 1]] (14 # 100))
                 (ExtractBackend.wm_normalized [[4; 0; 3]; [0; 0; 1]] (7 # 100)).
Proof.
  split; [reflexivity|]. split; [reflexivity|].
  destruct (recovered_signal_scales_normalised_plane_does_not
              [[4; 0; 3]; [0; 0; 1]] (7 # 100) (14 # 100) 2 3) as (A & B & _).
  - literal_shape.
  - lia.
  - reflexivity.
  - reflexivity.
  - right. split; reflexivity.
  - split; assumption.
Defined.

Lemma lossless_roundtrip_within_tolerance_witness :
  Forall (Forall sample_range) [[(0, 255, 0)]]
  /\ Forall2 (Forall2 (px_close (15 # 100000)))
       (EmbedBackend.ycbcr_to_rgb_lossless
          (EmbedBackend.rgb_to_ycbcr_lossless [[(0, 255, 0)]]))
       [[(0, 255, 0)]].
Proof.
  assert (H : Forall (Forall sample_range) [[(0, 255, 0)]]).
  { repeat constructor; vm_compute; discriminate. }
  split; [exact H|].
  exact (proj2 lossless_roundtrip_within_tolerance [[(0, 255, 0)]] H).
Defined.


Lemma embed_watermark_shape_validation_witness :
  shape3 (Reference.solid 256 256 (0, 0, 0)%Z) = (256, 256, 3)%nat
  /\ EmbedBackend.embed_watermark (cv := Reference.opencv)
       (Reference.solid 256 256 (0, 0, 0)%Z) (Reference.solid 32 32 (9, 9, 9)%Z)
     = EmbedBackend.Error400 "Invalid cover image dimensions.".
Proof.
  assert (S : shape3 (Reference.solid 256 256 (0, 0, 0)%Z) = (256, 256, 3)%nat)
    by (vm_compute; reflexivity).
  split; [exact S|].
  destruct (embed_watermark_shape_validation (cv := Reference.opencv)
              (Reference.solid 256 256 (0, 0, 0)%Z) (Reference.solid 32 32 (9, 9, 9)%Z))
    as (_ & _ & H256 & _).
  exact (H256 S).
Defined.

Lemma recover_constant_difference_is_zero_witness :
  all_equal 0 (row_difference [[5; 5]; [5; 5]])
  /\ exists out,
       ExtractBackend.recover_watermark_channel [[5; 5]; [5; 5]] ExtractBackend.ALPHA
       = Some out
       /\ Forall (Forall (fun v => v = 0%Z /\ (0 <= v <= 255)%Z)) out.
Proof.
  assert (H : all_equal 0 (row_difference [[5; 5]; [5; 5]])) by repeat constructor.
  split; [exact H|].
  destruct (recover_constant_difference_is_zero
              [[5; 5]; [5; 5]] ExtractBackend.ALPHA 0 2 2) as (out & E & _ & Z0).
  - literal_shape.
  - lia.
  - vm_compute. discriminate.
  - exact H.
  - exists out. split; assumption.
Defined.

Lemma embed_watermark_changes_luma_only_witness :
  exists ycbcr_image,
    EmbedBackend.embedded_ycbcr (cv := Reference.opencv)
      (Reference.solid 512 512 (10, 20, 30)%Z) (Reference.solid 32 32 (9, 9, 9)%Z)
    = Some ycbcr_image
    /\ channel1 ycbcr_image
       = channel1 (EmbedBackend.rgb_to_ycbcr_lossless
                     (to_float_img (Reference.solid 512 512 (10, 20, 30)%Z))).
Proof.
  destruct (embed_watermark_changes_luma_only
              (cvs := ReferenceFacts.opencv_spec)
              (Reference.solid 512 512 (10, 20, 30)%Z) (Reference.solid 32 32 (9, 9, 9)%Z)
              (has_shape_solid 512 512 _) (has_shape_solid 32 32 _))
    as (y & _ & E & _ & C1 & _).
  exists y. split; assumption.
Defined.

Lemma recovered_signal_independent_of_cover_witness :
  0 < EmbedBackend.ALPHA
  /\ exists E1 E2,
       EmbedBackend.embedd_matrix (cv := Reference.opencv)
         Samples.cover_a Samples.payload_2x2 EmbedBackend.ALPHA = Some E1
       /\ EmbedBackend.embedd_matrix (cv := Reference.opencv)
            Samples.cover_b Samples.payload_2x2 EmbedBackend.ALPHA = Some E2
       /\ plane_equiv (ExtractBackend.wm_normalized E1 EmbedBackend.ALPHA)
            (ExtractBackend.normalize_minmax
               (EmbedBackend.smoothed_payload (cv := Reference.opencv)
                  Samples.cover_a Samples.payload_2x2) 0 255)
       /\ plane_equiv (ExtractBackend.wm_normalized E2 EmbedBackend.ALPHA)
            (ExtractBackend.normalize_minmax
               (EmbedBackend.smoothed_payload (cv := Reference.opencv)
                  Samples.cover_a Samples.payload_2x2) 0 255).
Proof.
  split; [reflexivity|].
  destruct (recovered_signal_independent_of_cover
              (cvs := ReferenceFacts.opencv_spec)
              Samples.cover_a Samples.cover_b Samples.payload_2x2 EmbedBackend.ALPHA 1 3 2 2)
    as (E1 & E2 & out1 & out2 & H1 & H2 & _ & _ & N1 & N2 & _);
    try lia; try reflexivity; try literal_shape.
  exists E1, E2. repeat split; assumption.
Defined.

Lemma extract_never_falls_back_to_gray_witness :
  ExtractBackend.imdecode Samples.marked_png = Some (Samples.ramp 4 4)
  /\ exists out,
       ExtractBackend.extract_watermark (cv := Reference.opencv)
         (fun _ => true) (fun _ => true) (Some Samples.marked_png)
       = ExtractBackend.SendColor out.
Proof.
  split; [reflexivity|].
  apply (extract_never_falls_back_to_gray
           (cvs := ReferenceFacts.opencv_spec) (fun _ => true) (fun _ => true)
           Samples.marked_png (Samples.ramp 4 4) 4 4);
    try reflexivity; try lia; try discriminate.
  - apply has_shape_ramp.
Defined.

(** * Further properties of the code *)

(** ** The embedding kernel *)

Module KernelFacts.
Import EmbedBackend VerifyBackend.

Lemma length_evens_odds_odd {A} (l : list A) k :
  length l = (2 * k + 1)%nat ->
  length (evens l) = S k /\ length (odds l) = k.
Proof.
  revert k. induction l as [| x | x y l IH] using list_ind2; intros k Hk.
  - simpl in Hk. lia.
  - simpl in Hk. assert (k = 0%nat) by lia. subst. split; reflexivity.
  - destruct k as [|k]; [simpl in Hk; lia|].
    rewrite evens_cons2, odds_cons2. simpl in *.
    destruct (IH k) as [He Ho]; [lia|]. split; f_equal; assumption.
Qed.

Lemma plane_equiv_interleave a a' b b' :
  plane_equiv a a' -> plane_equiv b b' ->
  plane_equiv (interleave a b) (interleave a' b').
Proof.
  intros Ha. revert b b'.
  induction Ha as [|r r' a a' Hr _ IH]; intros b b' Hb; [constructor|].
  destruct Hb as [|s s' b b' Hs Hb]; [constructor|].
  simpl. constructor; [exact Hr|]. constructor; [exact Hs|]. now apply IH.
Qed.

Lemma plane_equiv_pmap2 (f : Q -> Q -> Q) a a' b b' :
  (forall x x' y y', x == x' -> y == y' -> f x y == f x' y') ->
  plane_equiv a a' -> plane_equiv b b' ->
  plane_equiv (pmap2 f a b) (pmap2 f a' b').
Proof.
  intros Hf Ha. revert b b'.
  induction Ha as [|r r' a a' Hr _ IH]; intros b b' Hb; [constructor|].
  destruct Hb as [|s s' b b' Hs Hb]; [constructor|].
  simpl. constructor; [|now apply IH].
  clear - Hf Hr Hs. revert s s' Hs.
  induction Hr as [|x x' r r' Hx _ IHr]; intros s s' Hs; [constructor|].
  destruct Hs as [|y y' s s' Hy Hs]; [constructor|].
  simpl. constructor; [now apply Hf | now apply IHr].
Qed.

Lemma qsum_app l m : qsum (l ++ m) == qsum l + qsum m.
Proof. induction l as [|x l IH]; simpl; [ring | rewrite IH; ring]. Qed.

Lemma plane_sum_cons r p : plane_sum (r :: p) == qsum r + plane_sum p.
Proof. unfold plane_sum. simpl. apply qsum_app. Qed.

Lemma plane_sum_evens_odds p :
  plane_sum p == plane_sum (evens p) + plane_sum (odds p).
Proof.
  induction p as [| r | r s p IH] using list_ind2.
  - unfold plane_sum. simpl. ring.
  - unfold odds. simpl. rewrite !plane_sum_cons. unfold plane_sum. simpl. ring.
  - rewrite evens_cons2, odds_cons2, !plane_sum_cons, IH. ring.
Qed.

Lemma plane_sum_interleave a b :
  length a = length b ->
  plane_sum (interleave a b) == plane_sum a + plane_sum b.
Proof.
  revert b. induction a as [|r a IH]; intros [|s b] H; simpl in H; try lia.
  - unfold plane_sum. simpl. ring.
  - simpl interleave. rewrite !plane_sum_cons, IH by lia. ring.
Qed.

Lemma qsum_map2_linear (f : Q -> Q -> Q) c1 c2 r s :
  (forall x y, f x y == c1 * x + c2 * y) -> length r = length s ->
  qsum (map2 f r s) == c1 * qsum r + c2 * qsum s.
Proof.
  intros Hf. revert s. induction r as [|x r IH]; intros [|y s] H; simpl in H; try lia.
  - simpl. ring.
  - simpl. rewrite Hf, IH by lia. ring.
Qed.

(** The sum of a sample-wise linear combination of two planes of one shape. *)
Lemma plane_sum_pmap2_linear (f : Q -> Q -> Q) c1 c2 a b h w :
  (forall x y, f x y == c1 * x + c2 * y) ->
  has_shape h w a -> has_shape h w b ->
  plane_sum (pmap2 f a b) == c1 * plane_sum a + c2 * plane_sum b.
Proof.
  intros Hf [Hl Hr] [Hl' Hr']. subst h. revert b Hl' Hr'.
  induction Hr as [|r a Hrw _ IH]; intros [|s b] Hl' Hr'; simpl in Hl'; try lia.
  - unfold plane_sum. simpl. ring.
  - inversion Hr'; subst. unfold pmap2. simpl map2. fold (pmap2 f a b).
    rewrite !plane_sum_cons, IH by (auto; lia).
    rewrite (qsum_map2_linear f c1 c2) by (auto; lia). ring.
Qed.

End KernelFacts.

(** X1. A cover plane with an odd number of rows is not embedded:
    [embedd_matrix] raises (its even and odd row blocks differ in height). *)
Theorem embedd_matrix_odd_height_raises {cv : OpenCV}
    (COVER WATERMARK : plane Q) (alpha : Q) :
  Nat.odd (length COVER) = true ->
  EmbedBackend.embedd_matrix COVER WATERMARK alpha = None.
Proof.
  intros H. apply Nat.odd_spec in H. destruct H as [k Hk].
  destruct (KernelFacts.length_evens_odds_odd COVER k Hk) as [He Ho].
  unfold EmbedBackend.embedd_matrix, shape2_eqb, shape2. cbn [fst snd].
  rewrite He, Ho.
  replace (Nat.eqb (S k) k) with false by (symmetry; apply Nat.eqb_neq; lia).
  reflexivity.
Qed.

Lemma embedd_matrix_odd_height_raises_witness :
  EmbedBackend.embedd_matrix (cv := Reference.opencv)
    [[1; 2]; [3; 4]; [5; 6]] Samples.payload_2x2 EmbedBackend.ALPHA = None.
Proof.
  apply (embedd_matrix_odd_height_raises (cv := Reference.opencv)). reflexivity.
Defined.

(** X2. Embedding overwrites an earlier embedding: embedding a second
    payload into an already embedded plane gives, sample by sample, the
    plane that embedding the second payload into the original cover gives.
    The kernel keeps of its input only the averages of the row pairs. *)
Theorem embedd_matrix_overwrites_earlier_embedding
    {cv : OpenCV} {cvs : OpenCVSpec cv}
    (COVER P1 P2 : plane Q) (alpha1 alpha2 : Q) (k w h1 w1 h2 w2 : nat) :
  has_shape (2 * k) w COVER -> (0 < k)%nat -> (0 < w)%nat ->
  has_shape h1 w1 P1 -> (0 < h1)%nat -> (0 < w1)%nat ->
  has_shape h2 w2 P2 -> (0 < h2)%nat -> (0 < w2)%nat ->
  exists E1 E12 E2,
    EmbedBackend.embedd_matrix COVER P1 alpha1 = Some E1
    /\ EmbedBackend.embedd_matrix E1 P2 alpha2 = Some E12
    /\ EmbedBackend.embedd_matrix COVER P2 alpha2 = Some E2
    /\ plane_equiv E12 E2.
Proof.
  intros HC Hk Hw H1 Hh1 Hw1 H2 Hh2 Hw2.
  destruct (RouteFacts.embedd_matrix_some_shape COVER P1 alpha1 k w h1 w1)
    as (E1 & Ee1 & S1); try assumption.
  pose proof (EmbedFacts.embedd_matrix_eq COVER P1 alpha1 k w h1 w1
                HC Hk Hw H1 Hh1 Hw1) as F1. cbv zeta in F1.
  pose proof (EmbedFacts.embedd_matrix_eq E1 P2 alpha2 k w h2 w2
                S1 Hk Hw H2 Hh2 Hw2) as F12. cbv zeta in F12.
  pose proof (EmbedFacts.embedd_matrix_eq COVER P2 alpha2 k w h2 w2
                HC Hk Hw H2 Hh2 Hw2) as F2. cbv zeta in F2.
  exists E1. do 2 eexists. split; [exact Ee1|]. split; [exact F12|].
  split; [exact F2|].
  rewrite (RoundTripFacts.smoothed_payload_shape_only E1 COVER P2 k w S1 HC Hk).
  pose proof (EmbedFacts.smoothed_payload_shape COVER P1 k w h1 w1
                HC Hk Hw H1 Hh1 Hw1) as HB1.
  set (base := pmap2 (fun e o => (e + o) / 2) (evens COVER) (odds COVER)) in *.
  set (s1 := pmap (fun v => v * alpha1) (EmbedBackend.smoothed_payload COVER P1)) in *.
  assert (Hbase : has_shape k w base) by (unfold base; auto with shape).
  assert (Hs1 : has_shape k w s1) by (unfold s1; auto with shape).
  assert (Hb' : plane_equiv (pmap2 (fun e o => (e + o) / 2) (evens E1) (odds E1)) base).
  { rewrite Ee1 in F1. injection F1 as ->.
    destruct (RecoverFacts.evens_interleave (pmap2 Qplus base s1) (pmap2 Qminus base s1))
      as [-> ->].
    { unfold pmap2. now rewrite !length_map2. }
    apply (RecoverFacts.plane_equiv_get _ _ k w); auto with shape.
    intros i j Hi Hj.
    rewrite (get_pmap2 _ _ _ i j k w) by auto with shape.
    rewrite (get_pmap2 Qplus base s1 i j k w), (get_pmap2 Qminus base s1 i j k w)
      by assumption.
    field. }
  assert (Hsig : plane_equiv
            (pmap (fun v => v * alpha2) (EmbedBackend.smoothed_payload COVER P2))
            (pmap (fun v => v * alpha2) (EmbedBackend.smoothed_payload COVER P2)))
    by reflexivity.
  apply KernelFacts.plane_equiv_interleave; apply KernelFacts.plane_equiv_pmap2;
    try assumption; intros x x' y y' -> ->; reflexivity.
Qed.

Lemma embedd_matrix_overwrites_witness :
  exists E1 E12 E2,
    EmbedBackend.embedd_matrix (cv := Reference.opencv)
      Samples.cover_a Samples.payload_1x3 (1 # 4) = Some E1
    /\ EmbedBackend.embedd_matrix (cv := Reference.opencv)
         E1 Samples.payload_2x2 EmbedBackend.ALPHA = Some E12
    /\ EmbedBackend.embedd_matrix (cv := Reference.opencv)
         Samples.cover_a Samples.payload_2x2 EmbedBackend.ALPHA = Some E2
    /\ plane_equiv E12 E2.
Proof.
  apply (embedd_matrix_overwrites_earlier_embedding
           (cvs := ReferenceFacts.opencv_spec)
           Samples.cover_a Samples.payload_1x3 Samples.payload_2x2
           (1 # 4) EmbedBackend.ALPHA 1 3 1 3 2 2);
    try lia; literal_shape.
Defined.

(** X3. Embedding keeps the sum of all samples of the plane, hence its mean
    brightness: what is added to the even rows is taken from the odd rows. *)
Theorem embedd_matrix_preserves_sum {cv : OpenCV} {cvs : OpenCVSpec cv}
    (COVER WATERMARK : plane Q) (alpha : Q) (k w h' w' : nat) :
  has_shape (2 * k) w COVER -> (0 < k)%nat -> (0 < w)%nat ->
  has_shape h' w' WATERMARK -> (0 < h')%nat -> (0 < w')%nat ->
  exists out,
    EmbedBackend.embedd_matrix COVER WATERMARK alpha = Some out
    /\ plane_sum out == plane_sum COVER.
Proof.
  intros HC Hk Hw HW Hh' Hw'.
  pose proof (EmbedFacts.embedd_matrix_eq COVER WATERMARK alpha k w h' w'
                HC Hk Hw HW Hh' Hw') as F. cbv zeta in F.
  pose proof (EmbedFacts.smoothed_payload_shape COVER WATERMARK k w h' w'
                HC Hk Hw HW Hh' Hw') as HB.
  eexists. split; [exact F|].
  set (base := pmap2 (fun e o => (e + o) / 2) (evens COVER) (odds COVER)).
  set (s := pmap (fun v => v * alpha) (EmbedBackend.smoothed_payload COVER WATERMARK)).
  assert (Hbase : has_shape k w base) by (unfold base; auto with shape).
  assert (Hs : has_shape k w s) by (unfold s; auto with shape).
  rewrite KernelFacts.plane_sum_interleave by (unfold pmap2; now rewrite !length_map2).
  rewrite (KernelFacts.plane_sum_pmap2_linear Qplus 1 1 base s k w),
          (KernelFacts.plane_sum_pmap2_linear Qminus 1 (-1) base s k w);
    try assumption; try (intros; ring).
  unfold base.
  rewrite (KernelFacts.plane_sum_pmap2_linear _ (1 # 2) (1 # 2) _ _ k w);
    auto with shape; try (intros; field).
  rewrite (KernelFacts.plane_sum_evens_odds COVER). ring.
Qed.

Lemma embedd_matrix_preserves_sum_witness :
  exists out,
    EmbedBackend.embedd_matrix (cv := Reference.opencv)
      Samples.cover_b Samples.payload_2x2 EmbedBackend.ALPHA = Some out
    /\ plane_sum out == plane_sum Samples.cover_b.
Proof.
  apply (embedd_matrix_preserves_sum (cvs := ReferenceFacts.opencv_spec)
           Samples.cover_b Samples.payload_2x2 EmbedBackend.ALPHA 1 3 2 2);
    try lia; literal_shape.
Defined.

(** X4. The raw difference signal of an embedded plane, read with alpha',
    is the smoothed payload scaled by alpha / alpha'; with alpha' = alpha
    it is the smoothed payload itself. *)
Theorem wm_float_of_embedded_plane {cv : OpenCV} {cvs : OpenCVSpec cv}
    (COVER WATERMARK : plane Q) (alpha alpha' : Q) (k w h' w' : nat) :
  has_shape (2 * k) w COVER -> (0 < k)%nat -> (0 < w)%nat ->
  has_shape h' w' WATERMARK -> (0 < h')%nat -> (0 < w')%nat ->
  ~ alpha' == 0 ->
  exists E,
    EmbedBackend.embedd_matrix COVER WATERMARK alpha = Some E
    /\ plane_equiv (ExtractBackend.wm_float E alpha')
         (pmap (Qmult (alpha / alpha'))
               (EmbedBackend.smoothed_payload COVER WATERMARK)).
Proof.
  intros HC Hk Hw HW Hh' Hw' Ha.
  pose proof (EmbedFacts.embedd_matrix_eq COVER WATERMARK alpha k w h' w'
                HC Hk Hw HW Hh' Hw') as F. cbv zeta in F.
  pose proof (EmbedFacts.smoothed_payload_shape COVER WATERMARK k w h' w'
                HC Hk Hw HW Hh' Hw') as HB.
  eexists. split; [exact F|].
  set (B := EmbedBackend.smoothed_payload COVER WATERMARK) in *.
  set (base := pmap2 (fun e o => (e + o) / 2) (evens COVER) (odds COVER)).
  set (s := pmap (fun v => v * alpha) B).
  assert (Hbase : has_shape k w base) by (unfold base; auto with shape).
  assert (Hs : has_shape k w s) by (unfold s; auto with shape).
  set (EMB := interleave (pmap2 Qplus base s) (pmap2 Qminus base s)).
  assert (HE : has_shape (2 * k) w EMB) by (unfold EMB; auto with shape).
  assert (Hcrop : ExtractBackend.cropped EMB = EMB).
  { unfold ExtractBackend.cropped. destruct HE as [-> _].
    now rewrite RecoverFacts.odd_double. }
  unfold ExtractBackend.wm_float. rewrite Hcrop.
  destruct (RecoverFacts.evens_interleave (pmap2 Qplus base s) (pmap2 Qminus base s))
    as [Ee Eo].
  { unfold pmap2. now rewrite !length_map2. }
  unfold EMB. rewrite Ee, Eo.
  apply (RecoverFacts.plane_equiv_get _ _ k w); auto with shape.
  intros i j Hi Hj.
  rewrite (get_pmap2 _ _ _ i j k w) by auto with shape.
  rewrite (get_pmap2 Qplus base s i j k w), (get_pmap2 Qminus base s i j k w)
    by assumption.
  unfold s. rewrite (get_pmap _ B i j k w), (get_pmap (Qmult (alpha / alpha')) B i j k w)
    by assumption.
  field. exact Ha.
Qed.

Lemma wm_float_of_embedded_plane_witness :
  exists E,
    EmbedBackend.embedd_matrix (cv := Reference.opencv)
      Samples.cover_a Samples.payload_2x2 EmbedBackend.ALPHA = Some E
    /\ plane_equiv (ExtractBackend.wm_float E (14 # 100))
         (pmap (Qmult (EmbedBackend.ALPHA / (14 # 100)))
               (EmbedBackend.smoothed_payload (cv := Reference.opencv)
                  Samples.cover_a Samples.payload_2x2)).
Proof.
  apply (wm_float_of_embedded_plane (cvs := ReferenceFacts.opencv_spec)
           Samples.cover_a Samples.payload_2x2 EmbedBackend.ALPHA (14 # 100) 1 3 2 2);
    try lia; try literal_shape.
  vm_compute. discriminate.
Defined.

(** ** Colour transforms and the embedding route *)

Module ColourExtraFacts.
Import EmbedBackend.

Lemma forward_gray x :
  gray x -> pixel_eq (dot_T forward_matrix x) (ch0 x, 0, 0).
Proof.
  destruct x as [[r g] b]. unfold gray, pixel_eq, dot_T, dot3, forward_matrix.
  cbv [ch0 ch1 ch2 fst snd]. intros [H1 H2]. rewrite <- H2, <- H1.
  repeat split; ring.
Qed.

Lemma roundtrip_gray x :
  gray x -> pixel_eq (dot_T inverse_matrix (dot_T forward_matrix x)) x.
Proof.
  destruct x as [[r g] b]. unfold gray, pixel_eq, dot_T, dot3, forward_matrix, inverse_matrix.
  cbv [ch0 ch1 ch2 fst snd]. intros [H1 H2]. rewrite <- H2, <- H1.
  repeat split; ring.
Qed.

Lemma Forall2_pmap_left {A B} (R : B -> A -> Prop) (P : A -> Prop) (f : A -> B) p :
  (forall x, P x -> R (f x) x) ->
  Forall (Forall P) p -> Forall2 (Forall2 R) (pmap f p) p.
Proof.
  intros H Hp. induction Hp as [|r p Hr _ IH]; simpl; constructor; auto.
  induction Hr; simpl; constructor; auto.
Qed.

Lemma Qtrunc_nonneg q : 0 <= q -> Qtrunc q = Qfloor q.
Proof. intros H. unfold Qtrunc. apply Qle_bool_iff in H. now rewrite H. Qed.

Lemma astype_uint8_in_range q :
  0 <= q -> q <= 255 -> astype_uint8 q = Qfloor q.
Proof.
  intros H0 H1. unfold astype_uint8. rewrite Qtrunc_nonneg by assumption.
  apply Z.mod_small. split.
  - change 0%Z with (Qfloor 0). now apply Qfloor_resp_le.
  - apply Qfloor_resp_le in H1. change (Qfloor 255) with 255%Z in H1. lia.
Qed.

Lemma clip_value q : qmin (qmax q 0) 255
                     = if Qle_bool q 0 then 0 else if Qle_bool q 255 then q else 255.
Proof.
  unfold qmin, qmax. destruct (Qle_bool q 0) eqn:E0; [reflexivity|].
  reflexivity.
Qed.

Lemma clip_uint8_bounds q : (0 <= clip_uint8 q <= 255)%Z.
Proof.
  unfold clip_uint8. pose proof (NormalizeFacts.astype_uint8_range (qmin (qmax q 0) 255)).
  lia.
Qed.

End ColourExtraFacts.

(** X5. On a gray image (three equal channels in every pixel) the forward
    transform gives the common value as luma and zero chroma, and the round
    trip through both transforms is exact. *)
Theorem gray_image_roundtrip_exact (img : image Q) :
  Forall (Forall gray) img ->
  Forall2 (Forall2 (fun y x => EmbedBackend.pixel_eq y (ch0 x, 0, 0)))
          (EmbedBackend.rgb_to_ycbcr_lossless img) img
  /\ Forall2 (Forall2 EmbedBackend.pixel_eq)
       (EmbedBackend.ycbcr_to_rgb_lossless (EmbedBackend.rgb_to_ycbcr_lossless img))
       img.
Proof.
  intros H. split.
  - unfold EmbedBackend.rgb_to_ycbcr_lossless.
    apply (ColourExtraFacts.Forall2_pmap_left _ gray); [|exact H].
    apply ColourExtraFacts.forward_gray.
  - rewrite ColourFacts.roundtrip_pmap.
    apply (ColourFacts.Forall2_pmap_self _ gray); [|exact H].
    apply ColourExtraFacts.roundtrip_gray.
Qed.

Lemma gray_image_roundtrip_exact_witness :
  Forall2 (Forall2 EmbedBackend.pixel_eq)
    (EmbedBackend.ycbcr_to_rgb_lossless
       (EmbedBackend.rgb_to_ycbcr_lossless [[(7, 7, 7); (200, 200, 200)]]))
    [[(7, 7, 7); (200, 200, 200)]].
Proof.
  apply (gray_image_roundtrip_exact [[(7, 7, 7); (200, 200, 200)]]).
  repeat constructor.
Defined.

(** X6. The inverse transform is additive in luma with weight 1 on every
    channel: raising the luma of a pixel by [d] raises each of its three
    output channels by exactly [d], whatever the chroma.  The embedded
    signal therefore reaches R, G and B unchanged. *)
Theorem luma_shift_reaches_every_channel (y cb cr d : Q) :
  let before := EmbedBackend.dot_T EmbedBackend.inverse_matrix (y, cb, cr) in
  let after := EmbedBackend.dot_T EmbedBackend.inverse_matrix (y + d, cb, cr) in
  EmbedBackend.pixel_eq after (ch0 before + d, ch1 before + d, ch2 before + d).
Proof.
  unfold EmbedBackend.pixel_eq, EmbedBackend.dot_T, EmbedBackend.dot3,
    EmbedBackend.inverse_matrix.
  cbv [ch0 ch1 ch2 fst snd]. repeat split; ring.
Qed.

(** X7. [np.clip(x, 0, 255).astype(np.uint8)] saturates instead of wrapping:
    a sample at or below 0 becomes 0, a sample at or above 255 becomes 255,
    a sample in between is rounded down, and the conversion is monotone. *)
Theorem clip_uint8_saturates (q q' : Q) :
  (q <= 0 -> EmbedBackend.clip_uint8 q = 0%Z)
  /\ (255 <= q -> EmbedBackend.clip_uint8 q = 255%Z)
  /\ (0 <= q -> q <= 255 -> EmbedBackend.clip_uint8 q = Qfloor q)
  /\ (0 <= EmbedBackend.clip_uint8 q <= 255)%Z
  /\ (q <= q' -> (EmbedBackend.clip_uint8 q <= EmbedBackend.clip_uint8 q')%Z).
Proof.
  assert (V : forall x, 0 <= qmin (qmax x 0) 255 <= 255
                        /\ (x <= 0 -> qmin (qmax x 0) 255 == 0)
                        /\ (255 <= x -> qmin (qmax x 0) 255 == 255)
                        /\ (0 <= x -> x <= 255 -> qmin (qmax x 0) 255 == x)).
  { intros x. rewrite ColourExtraFacts.clip_value.
    destruct (Qle_bool x 0) eqn:E0.
    - apply Qle_bool_iff in E0. repeat split; intros; lra.
    - assert (~ x <= 0) by (rewrite <- Qle_bool_iff, E0; discriminate).
      destruct (Qle_bool x 255) eqn:E1.
      + apply Qle_bool_iff in E1. repeat split; intros; lra.
      + assert (~ x <= 255) by (rewrite <- Qle_bool_iff, E1; discriminate).
        repeat split; intros; lra. }
  assert (C : forall x, EmbedBackend.clip_uint8 x = Qfloor (qmin (qmax x 0) 255)).
  { intros x. unfold EmbedBackend.clip_uint8.
    destruct (V x) as ([] & _). now apply ColourExtraFacts.astype_uint8_in_range. }
  destruct (V q) as ([Vl Vu] & V0 & V255 & Vmid).
  repeat split.
  - intros H. rewrite C, (Qfloor_comp _ _ (V0 H)). reflexivity.
  - intros H. rewrite C, (Qfloor_comp _ _ (V255 H)). reflexivity.
  - intros H0 H1. rewrite C. apply Qfloor_comp. now apply Vmid.
  - rewrite C. change 0%Z with (Qfloor 0). now apply Qfloor_resp_le.
  - rewrite C. change 255%Z with (Qfloor 255). now apply Qfloor_resp_le.
  - intros Hle. rewrite !C. apply Qfloor_resp_le.
    rewrite !ColourExtraFacts.clip_value.
    destruct (Qle_bool q 0) eqn:E0, (Qle_bool q' 0) eqn:E0';
    destruct (Qle_bool q 255) eqn:E1, (Qle_bool q' 255) eqn:E1';
      repeat match goal with
             | H : Qle_bool _ _ = true |- _ => apply Qle_bool_iff in H
             | H : Qle_bool ?a ?b = false |- _ =>
                 assert (~ a <= b) by (rewrite <- Qle_bool_iff, H; discriminate);
                 clear H
             end; lra.
Qed.

Lemma clip_uint8_saturates_witness :
  EmbedBackend.clip_uint8 (- (3 # 2)) = 0%Z
  /\ EmbedBackend.clip_uint8 (2561 # 10) = 255%Z
  /\ EmbedBackend.clip_uint8 (1279 # 10) = 127%Z.
Proof.
  destruct (clip_uint8_saturates (- (3 # 2)) 0) as (H0 & _).
  destruct (clip_uint8_saturates (2561 # 10) 0) as (_ & H255 & _).
  destruct (clip_uint8_saturates (1279 # 10) 0) as (_ & _ & Hmid & _).
  split; [apply H0; vm_compute; discriminate|].
  split; [apply H255; vm_compute; discriminate|].
  rewrite Hmid; [reflexivity | vm_compute; discriminate | vm_compute; discriminate].
Defined.

(** X8. On a valid cover and watermark the [/embed] route answers with an
    image, never with an error: the image has the cover's shape
    (512, 512, 3) and every sample is in 0..255. *)
Theorem embed_watermark_valid_output {cv : OpenCV} {cvs : OpenCVSpec cv}
    (image_np watermark_np : image Z) :
  has_shape 512 512 image_np -> has_shape 32 32 watermark_np ->
  exists embedded_image,
    EmbedBackend.embed_watermark image_np watermark_np
    = EmbedBackend.SendPng embedded_image
    /\ has_shape 512 512 embedded_image
    /\ shape3 embedded_image = (512, 512, 3)%nat
    /\ Forall (Forall (fun px => (0 <= ch0 px <= 255)%Z /\ (0 <= ch1 px <= 255)%Z
                                 /\ (0 <= ch2 px <= 255)%Z)) embedded_image.
Proof.
  intros HI HW.
  destruct (RouteFacts.embedded_ycbcr_eq image_np watermark_np 256 512 32 32)
    as (y & _ & Hy & E); try assumption; try lia.
  change (2 * 256)%nat with 512%nat in *.
  set (forward := EmbedBackend.rgb_to_ycbcr_lossless (to_float_img image_np)) in *.
  assert (HF : has_shape 512 512 forward).
  { unfold forward, EmbedBackend.rgb_to_ycbcr_lossless, to_float_img. auto with shape. }
  pose proof (RouteFacts.has_shape_set_channel0 forward y 512 512 HF Hy) as HS.
  eexists. split; [|split; [|split]].
  - unfold EmbedBackend.embed_watermark, EmbedBackend.is_valid_image.
    rewrite (IdenticalFacts.shape3_has_shape image_np 512 512 HI ltac:(lia)).
    rewrite (IdenticalFacts.shape3_has_shape watermark_np 32 32 HW ltac:(lia)).
    simpl existsb. simpl negb. cbv iota. rewrite E. reflexivity.
  - unfold EmbedBackend.ycbcr_to_rgb_lossless. auto with shape.
  - apply IdenticalFacts.shape3_has_shape; [|lia].
    unfold EmbedBackend.ycbcr_to_rgb_lossless. auto with shape.
  - unfold pmap. rewrite Forall_map. apply Forall_forall. intros r _.
    rewrite Forall_map. apply Forall_forall. intros px _. cbn [ch0 ch1 ch2 fst snd].
    pose proof (ColourExtraFacts.clip_uint8_bounds (ch0 px)).
    pose proof (ColourExtraFacts.clip_uint8_bounds (ch1 px)).
    pose proof (ColourExtraFacts.clip_uint8_bounds (ch2 px)). lia.
Qed.

Lemma embed_watermark_valid_output_witness :
  exists embedded_image,
    EmbedBackend.embed_watermark (cv := Reference.opencv)
      (Reference.solid 512 512 (10, 20, 30)%Z) (Reference.solid 32 32 (9, 9, 9)%Z)
    = EmbedBackend.SendPng embedded_image
    /\ shape3 embedded_image = (512, 512, 3)%nat.
Proof.
  destruct (embed_watermark_valid_output (cvs := ReferenceFacts.opencv_spec)
              (Reference.solid 512 512 (10, 20, 30)%Z) (Reference.solid 32 32 (9, 9, 9)%Z)
              (has_shape_solid 512 512 _) (has_shape_solid 32 32 _))
    as (out & E & _ & S & _).
  exists out. split; assumption.
Defined.

(** ** The recovery kernel, further *)

Module RecoverExtraFacts.
Import ExtractBackend NormalizeFacts.

Lemma length_removelast {A} (l : list A) : length (removelast l) = (length l - 1)%nat.
Proof.
  induction l as [|x l IH]; [reflexivity|].
  destruct l as [|y l]; [reflexivity|].
  change (removelast (x :: y :: l)) with (x :: removelast (y :: l)).
  simpl length in *. rewrite IH. lia.
Qed.

Lemma removelast_map {A B} (f : A -> B) l : removelast (map f l) = map f (removelast l).
Proof.
  induction l as [|x l IH]; [reflexivity|].
  destruct l as [|y l]; [reflexivity|].
  change (removelast (map f (x :: y :: l))) with (f x :: removelast (map f (y :: l))).
  rewrite IH. reflexivity.
Qed.

Lemma cropped_pmap (f : Q -> Q) p : cropped (pmap f p) = pmap f (cropped p).
Proof.
  unfold cropped, drop_last, pmap. rewrite length_map.
  destruct (Nat.odd (length p)); [apply removelast_map | reflexivity].
Qed.

Lemma evens_map {A B} (f : A -> B) l : evens (map f l) = map f (evens l).
Proof.
  induction l as [| x | x y l IH] using list_ind2; try reflexivity.
  simpl map. rewrite !evens_cons2. simpl. now rewrite IH.
Qed.

Lemma odds_map {A B} (f : A -> B) l : odds (map f l) = map f (odds l).
Proof. unfold odds. destruct l; [reflexivity|]. simpl. apply evens_map. Qed.





Lemma pmap_ext_in {A B} (f g : A -> B) (p : plane A) :
  (forall x, In x (concat p) -> f x = g x) -> pmap f p = pmap g p.
Proof.
  intros H. unfold pmap. apply map_ext_in. intros r Hr.
  apply map_ext_in. intros x Hx. apply H. apply in_concat. exists r. split; assumption.
Qed.

End RecoverExtraFacts.

(** X10. Odd-height tolerance: on a plane with an odd number of rows, at
    least three, recovery returns what it returns on the plane without its
    last row. *)
Theorem recover_odd_height_drops_last_row (channel_data : plane Q) (alpha : Q) :
  Nat.odd (length channel_data) = true -> (3 <= length channel_data)%nat ->
  ExtractBackend.recover_watermark_channel channel_data alpha
  = ExtractBackend.recover_watermark_channel (drop_last channel_data) alpha.
Proof.
  intros Hodd Hlen.
  assert (Hl : length (drop_last channel_data) = (length channel_data - 1)%nat)
    by apply RecoverExtraFacts.length_removelast.
  assert (Hev : Nat.odd (length (drop_last channel_data)) = false).
  { rewrite Hl. apply Nat.odd_spec in Hodd. destruct Hodd as [m Hm]. rewrite Hm.
    replace (2 * m + 1 - 1)%nat with (2 * m)%nat by lia. apply RecoverFacts.odd_double. }
  unfold ExtractBackend.recover_watermark_channel, ExtractBackend.cropped.
  rewrite Hodd, Hev.
  replace (Nat.eqb (length channel_data - 1) 0) with false
    by (symmetry; apply Nat.eqb_neq; lia).
  reflexivity.
Qed.

Lemma recover_odd_height_drops_last_row_witness :
  ExtractBackend.recover_watermark_channel [[4; 0; 3]; [0; 0; 1]; [9; 9; 9]] (7 # 100)
  = ExtractBackend.recover_watermark_channel
      (drop_last [[4; 0; 3]; [0; 0; 1]; [9; 9; 9]]) (7 # 100).
Proof.
  apply recover_odd_height_drops_last_row; [reflexivity | simpl; lia].
Defined.

(** X11. On a well-formed plane with at least one row, recovery fails
    (returns [None]) exactly when the plane has a single row; otherwise it
    returns a plane of half the height (rounded down) and the same width. *)
Theorem recover_fails_only_on_single_row (channel_data : plane Q) (alpha : Q) (h w : nat) :
  has_shape h w channel_data -> (1 <= h)%nat ->
  (ExtractBackend.recover_watermark_channel channel_data alpha = None <-> h = 1%nat)
  /\ (h <> 1%nat ->
      exists out, ExtractBackend.recover_watermark_channel channel_data alpha = Some out
                  /\ has_shape (h / 2) w out).
Proof.
  intros H Hh. split; [split|].
  - intros E. destruct (Nat.eq_dec h 1) as [|Hn]; [assumption|].
    destruct (RecoverFacts.recover_some channel_data alpha h w H Hn) as [R _].
    rewrite R in E. discriminate E.
  - intros ->. apply RecoverFacts.recover_none. apply H.
  - intros Hn. destruct (RecoverFacts.recover_some channel_data alpha h w H Hn) as [R S].
    eexists. split; [exact R | exact S].
Qed.

Lemma recover_fails_only_on_single_row_witness :
  ExtractBackend.recover_watermark_channel [[4; 0; 3]] (7 # 100) = None.
Proof.
  apply (recover_fails_only_on_single_row [[4; 0; 3]] (7 # 100) 1 3);
    [literal_shape | lia | reflexivity].
Defined.

(** ** The normalised plane as a contrast stretch *)

Module StretchFacts.
Import ExtractBackend.


End StretchFacts.



(** ** Recovery under a brightness offset *)

Module OffsetFacts.
Import ExtractBackend.

(** In the exact model a constant added to every sample cancels in
    [even - odd]. *)
Lemma recover_offset (channel_data : plane Q) (alpha offset : Q) (h w : nat) :
  has_shape h w channel_data ->
  recover_watermark_channel (pmap (Qplus offset) channel_data) alpha
  = recover_watermark_channel channel_data alpha.
Proof.
  intros H.
  assert (H' : has_shape h w (pmap (Qplus offset) channel_data)) by auto with shape.
  destruct (Nat.eq_dec h 1) as [->|Hn].
  - rewrite !RecoverFacts.recover_none; [reflexivity | apply H | apply H'].
  - destruct (RecoverFacts.recover_some _ alpha h w H Hn) as [R _].
    destruct (RecoverFacts.recover_some _ alpha h w H' Hn) as [R' _].
    rewrite R, R'. f_equal. apply NormalizeFacts.pmap_astype_comp.
    apply NormalizeFacts.normalize_comp.
    unfold wm_float. rewrite RecoverExtraFacts.cropped_pmap.
    unfold pmap at 1 2. rewrite RecoverExtraFacts.evens_map, RecoverExtraFacts.odds_map.
    fold (pmap (Qplus offset) (evens (cropped channel_data))).
    fold (pmap (Qplus offset) (odds (cropped channel_data))).
    pose proof (RecoverFacts.has_shape_cropped _ _ _ H) as Hc.
    pose proof (has_shape_evens _ _ _ Hc) as He.
    pose proof (has_shape_odds _ _ _ Hc) as Ho.
    apply (RecoverFacts.plane_equiv_get _ _ (h / 2) w); auto with shape.
    intros i j Hi Hj.
    rewrite !(get_pmap2 _ _ _ i j (h / 2) w) by auto with shape.
    rewrite !(get_pmap _ _ i j (h / 2) w) by assumption.
    unfold Qdiv. ring.
Qed.

(** The float plane of an integer plane with an integer added. *)
Lemma to_float_offset (channel_data : plane Z) (offset : Z) :
  to_float (pmap (Z.add offset) channel_data)
  = pmap (Qplus (inject_Z offset)) (to_float channel_data).
Proof.
  unfold to_float. rewrite !RecoverFacts.pmap_pmap.
  apply RecoverExtraFacts.pmap_ext_in. intros v _. apply inject_Z_plus.
Qed.

End OffsetFacts.

(** X13. Recovery does not see a brightness offset on a plane of integer
    samples: adding one integer to every sample leaves the recovered 8-bit
    plane unchanged, provided the samples before and after are integers that
    binary32 holds exactly (as all 8-bit and 16-bit samples are).  On such
    planes [even - odd] has the same real value with and without the
    offset, so the source computes the same floats from there on. *)
Theorem recover_ignores_brightness_offset
    (channel_data : plane Z) (alpha : Q) (offset : Z) (h w : nat) :
  has_shape h w channel_data ->
  Forall (Forall (fun v => float32_exact v /\ float32_exact (offset + v))) channel_data ->
  ExtractBackend.recover_watermark_channel
    (to_float (pmap (Z.add offset) channel_data)) alpha
  = ExtractBackend.recover_watermark_channel (to_float channel_data) alpha.
Proof.
  intros H _. rewrite OffsetFacts.to_float_offset.
  apply (OffsetFacts.recover_offset _ alpha _ h w). unfold to_float. auto with shape.
Qed.

Lemma recover_ignores_brightness_offset_witness :
  ExtractBackend.recover_watermark_channel
    (to_float (pmap (Z.add 40) [[4; 0; 3]; [0; 0; 1]]%Z)) (7 # 100)
  = ExtractBackend.recover_watermark_channel
      (to_float [[4; 0; 3]; [0; 0; 1]]%Z) (7 # 100).
Proof.
  apply (recover_ignores_brightness_offset [[4; 0; 3]; [0; 0; 1]]%Z (7 # 100) 40 2 3).
  - literal_shape.
  - repeat constructor; unfold float32_exact; simpl; lia.
Defined.

(** ** The extraction route, further *)

Module ExtractExtraFacts.
Import ExtractBackend.

Section WithOpenCV.
Context {cv : OpenCV} {cvs : OpenCVSpec cv}.
Variable imencode_color : image Z -> bool.
Variable imencode_gray : plane Z -> bool.

(** The answer of the route on a decoded image: a single row fails all
    three recoveries; two or more rows reach the PNG encoder with a
    32 x 32 colour image. *)
Lemma extract_decoded_answer image_file image_bgr h w :
  imdecode image_file = Some image_bgr -> filename image_file <> ""%string ->
  has_shape h w image_bgr -> (0 < h)%nat -> (0 < w)%nat ->
  let answer := extract_watermark imencode_color imencode_gray (Some image_file) in
  (h = 1%nat
   /\ answer = Error500 "Failed to extract watermark."
                 ["Y channel recovery failed."%string;
                  "Cr channel recovery failed."%string;
                  "Cb channel recovery failed."%string])
  \/ ((2 <= h)%nat
      /\ exists final_watermark,
           has_shape 32 32 final_watermark
           /\ answer = if imencode_color final_watermark
                       then SendColor final_watermark
                       else Error500 "Failed to encode extracted watermark" []).
Proof.
  intros Hdec Hname HI Hh Hw answer.
  set (image_ycrcb := cvtColor_BGR2YCrCb image_bgr).
  assert (HY : has_shape h w image_ycrcb) by now apply BGR2YCrCb_shape.
  assert (H0 : has_shape h w (to_float (channel0 image_ycrcb)))
    by (unfold to_float, channel0; auto with shape).
  assert (H1 : has_shape h w (to_float (channel1 image_ycrcb)))
    by (unfold to_float, channel1; auto with shape).
  assert (H2 : has_shape h w (to_float (channel2 image_ycrcb)))
    by (unfold to_float, channel2; auto with shape).
  unfold answer, extract_watermark. rewrite Hdec.
  destruct (String.eqb_spec (filename image_file) ""); [contradiction|].
  fold image_ycrcb.
  destruct (Nat.eq_dec h 1) as [Hone|Hone].
  - left. split; [exact Hone|].
    rewrite !RecoverFacts.recover_none by (destruct H0, H1, H2; lia).
    reflexivity.
  - right. split; [lia|].
    destruct (RecoverFacts.recover_some _ ALPHA h w H0 Hone) as [R0 S0].
    destruct (RecoverFacts.recover_some _ ALPHA h w H1 Hone) as [R1 S1].
    destruct (RecoverFacts.recover_some _ ALPHA h w H2 Hone) as [R2 S2].
    rewrite R0, R1, R2.
    rewrite <- (ExtractFacts.has_shape_unique_shape _ _ _ _ S0 S1).
    rewrite <- (ExtractFacts.has_shape_unique_shape _ _ _ _ S0 S2).
    rewrite !shape2_eqb_refl. simpl negb. cbv iota.
    assert (Hpos : (0 < h / 2)%nat) by (apply Nat.div_str_pos; lia).
    destruct (YCrCb2BGR_total _ (h / 2) w
                (ExtractFacts.has_shape_merge3 _ _ _ _ _ S0 S1 S2) Hpos Hw)
      as (bgr & Ebgr & Sbgr).
    rewrite Ebgr.
    exists (cv2_resize_u8 bgr (32, 32)%nat). split; [|reflexivity].
    apply (resize_u8_shape bgr (h / 2) w); try assumption; lia.
Qed.

End WithOpenCV.

Lemma get_absent {A} (key : string) (files : list (string * A)) :
  (forall v, ~ In (key, v) files) -> Flask.get key files = None.
Proof.
  induction files as [|[k v] files IH]; intros H; [reflexivity|].
  simpl. destruct (String.eqb_spec k key) as [->|_].
  - exfalso. apply (H v). now left.
  - apply IH. intros v' Hin. apply (H v'). now right.
Qed.

End ExtractExtraFacts.

(** X14. Channel recovery in the [/extract] route is all or nothing: on a
    decoded image the "Failed to extract watermark." error arises exactly
    for a one-row image and then names all three channels; the route never
    reports a partial failure, a merge error or a 400 for such an upload. *)
Theorem extract_channel_failure_is_total {cv : OpenCV} {cvs : OpenCVSpec cv}
    (imencode_color : image Z -> bool) (imencode_gray : plane Z -> bool)
    (image_file : ExtractBackend.upload) (image_bgr : image Z) (h w : nat) :
  ExtractBackend.imdecode image_file = Some image_bgr ->
  ExtractBackend.filename image_file <> ""%string ->
  has_shape h w image_bgr -> (0 < h)%nat -> (0 < w)%nat ->
  let answer :=
    ExtractBackend.extract_watermark imencode_color imencode_gray (Some image_file) in
  let all_three := ["Y channel recovery failed."%string;
                    "Cr channel recovery failed."%string;
                    "Cb channel recovery failed."%string] in
  (h = 1%nat ->
     answer = ExtractBackend.Error500 "Failed to extract watermark." all_three)
  /\ (forall details,
        answer = ExtractBackend.Error500 "Failed to extract watermark." details ->
        h = 1%nat /\ details = all_three)
  /\ answer <> ExtractBackend.Error500 "Image processing error" []
  /\ (forall msg, answer <> ExtractBackend.Error400 msg).
Proof.
  intros Hdec Hname HI Hh Hw answer all_three.
  destruct (ExtractExtraFacts.extract_decoded_answer imencode_color imencode_gray
              image_file image_bgr h w Hdec Hname HI Hh Hw)
    as [[Hone E]|[Htwo (fw & _ & E)]]; fold answer in E; rewrite E.
  - split; [reflexivity|]. split; [|split].
    + intros details [= <-]. split; [exact Hone | reflexivity].
    + discriminate.
    + discriminate.
  - split; [intros; lia|]. split; [|split].
    + intros details D. destruct (imencode_color fw); discriminate D.
    + destruct (imencode_color fw); discriminate.
    + intros msg. destruct (imencode_color fw); discriminate.
Qed.

Lemma extract_channel_failure_is_total_witness :
  ExtractBackend.extract_watermark (cv := Reference.opencv)
    (fun _ => true) (fun _ => true)
    (Some {| ExtractBackend.filename := "strip.png";
             ExtractBackend.imdecode := Some (Samples.ramp 1 4) |})
  = ExtractBackend.Error500 "Failed to extract watermark."
      ["Y channel recovery failed."%string;
       "Cr channel recovery failed."%string;
       "Cb channel recovery failed."%string].
Proof.
  apply (extract_channel_failure_is_total (cvs := ReferenceFacts.opencv_spec)
           (fun _ => true) (fun _ => true)
           {| ExtractBackend.filename := "strip.png";
              ExtractBackend.imdecode := Some (Samples.ramp 1 4) |}
           (Samples.ramp 1 4) 1 4);
    try reflexivity; try lia; try discriminate.
  apply has_shape_ramp.
Defined.

(** X15. The [/extract] route reads the upload under the form key
    ["image"] only: a request without that key is answered 400 "No image
    file uploaded", whatever else it carries.  The request of
    [test_integration.py], which posts the file as ["embedded_image"], is
    such a request, so it is not answered with the status 200 the test
    expects. *)
Theorem extract_request_requires_image_key {cv : OpenCV}
    (imencode_color : image Z -> bool) (imencode_gray : plane Z -> bool)
    (files : list (string * ExtractBackend.upload)) :
  (forall u, ~ In ("image"%string, u) files) ->
  extract_request imencode_color imencode_gray files
  = ExtractBackend.Error400 "No image file uploaded"
  /\ status_code (extract_request imencode_color imencode_gray files) = 400%nat.
Proof.
  intros H. unfold extract_request.
  rewrite (ExtractExtraFacts.get_absent "image" files H). split; reflexivity.
Qed.

Lemma extract_request_requires_image_key_witness :
  status_code (extract_request (cv := Reference.opencv) (fun _ => true) (fun _ => true)
                 (integration_extract_files Samples.marked_png)) = 400%nat.
Proof.
  apply (extract_request_requires_image_key (cv := Reference.opencv)
           (fun _ => true) (fun _ => true)
           (integration_extract_files Samples.marked_png)).
  intros u [E|[]]. discriminate E.
Defined.

(** ** The verifier, further *)

Module VerifyExtraFacts.
Import VerifyBackend.

Lemma sq_diff_nonneg x y : 0 <= sq_diff x y.
Proof.
  unfold sq_diff.
  change (0 <= (inject_Z x - inject_Z y) * (inject_Z x - inject_Z y)).
  generalize (inject_Z x - inject_Z y). intros a. nra.
Qed.

Lemma sq_diff_zero x y : sq_diff x y == 0 -> x = y.
Proof.
  unfold sq_diff.
  change ((inject_Z x - inject_Z y) * (inject_Z x - inject_Z y) == 0 -> x = y).
  intros H.
  assert (E : inject_Z x - inject_Z y == 0).
  { destruct (Qmult_integral _ _ H); assumption. }
  assert (E' : inject_Z x == inject_Z y).
  { revert E. generalize (inject_Z x) (inject_Z y). intros a b E. lra. }
  exact (proj1 (inject_Z_injective x y) E').
Qed.

Lemma qsum_sq_nonneg l m : 0 <= qsum (map2 sq_diff l m).
Proof.
  revert m. induction l as [|x l IH]; intros [|y m]; simpl; try lra.
  pose proof (sq_diff_nonneg x y). pose proof (IH m). lra.
Qed.

Lemma qsum_sq_zero l m :
  length l = length m -> (qsum (map2 sq_diff l m) == 0 <-> l = m).
Proof.
  revert m. induction l as [|x l IH]; intros [|y m] H; simpl in H; try lia.
  - simpl. split; reflexivity.
  - simpl. pose proof (sq_diff_nonneg x y). pose proof (qsum_sq_nonneg l m). split.
    + intros E. assert (E1 : sq_diff x y == 0) by lra.
      assert (E2 : qsum (map2 sq_diff l m) == 0) by lra.
      apply sq_diff_zero in E1. apply IH in E2; [|lia]. congruence.
    + intros [= -> ->]. assert (E : qsum (map2 sq_diff m m) == 0) by (apply IH; auto).
      rewrite E. unfold sq_diff. simpl. ring.
Qed.

Lemma map2_sym {A B} (f g : A -> A -> B) l m :
  (forall x y, f x y = g y x) -> map2 f l m = map2 g m l.
Proof.
  intros H. revert m. induction l as [|x l IH]; intros [|y m]; simpl; auto.
  now rewrite H, IH.
Qed.

Lemma qsum_comp l l' : Forall2 Qeq l l' -> qsum l == qsum l'.
Proof. induction 1 as [|x y l l' Hx _ IH]; simpl; [reflexivity | now rewrite Hx, IH]. Qed.

Lemma length_flatten img : length (flatten img) = (3 * length (concat img))%nat.
Proof.
  unfold flatten. induction (concat img) as [|px l IH]; [reflexivity|].
  simpl. rewrite IH. lia.
Qed.

Lemma length_concat_shape {A} (p : list (list A)) h w :
  has_shape h w p -> length (concat p) = (h * w)%nat.
Proof.
  intros [Hl Hr]. subst h. induction Hr as [|r p Hw _ IH]; [reflexivity|].
  simpl. rewrite length_app, IH, Hw. reflexivity.
Qed.

(** The mean squared error in terms of the flattened samples. *)
Lemma mse_eq a b :
  mean_squared_error a b
  = qsum (map2 sq_diff (flatten a) (flatten b))
    / inject_Z (Z.of_nat (length (map2 sq_diff (flatten a) (flatten b)))).
Proof. reflexivity. Qed.

Lemma mse_zero_iff a b h w :
  has_shape h w a -> has_shape h w b ->
  (mean_squared_error a b == 0 <-> flatten a = flatten b).
Proof.
  intros Ha Hb.
  assert (L : length (flatten a) = length (flatten b)).
  { rewrite !length_flatten, (length_concat_shape a h w Ha),
      (length_concat_shape b h w Hb). reflexivity. }
  rewrite mse_eq, <- (qsum_sq_zero _ _ L), length_map2, <- L, Nat.min_id.
  set (s := qsum _). set (n := inject_Z _).
  assert (Hn : 0 <= n) by (unfold n; change 0 with (inject_Z 0); rewrite <- Zle_Qle; lia).
  destruct (Qeq_dec n 0) as [E|E].
  - (* no samples at all: both lists are empty *)
    assert (E0 : length (flatten a) = 0%nat).
    { unfold n in E. change 0 with (inject_Z 0) in E.
      apply (proj1 (inject_Z_injective _ _)) in E. lia. }
    assert (Ea : flatten a = []) by now apply length_zero_iff_nil.
    assert (Eb : flatten b = []) by (apply length_zero_iff_nil; lia).
    unfold s. rewrite Ea, Eb. simpl. rewrite E. split; reflexivity.
  - split; intros H.
    + setoid_replace s with (s / n * n) by (field; exact E). rewrite H. ring.
    + rewrite H. field. exact E.
Qed.

Lemma mse_nonneg a b : 0 <= mean_squared_error a b.
Proof.
  rewrite mse_eq. set (d := map2 sq_diff _ _).
  pose proof (qsum_sq_nonneg (flatten a) (flatten b)) as Hs. fold d in Hs.
  assert (Hn : 0 <= inject_Z (Z.of_nat (length d)))
    by (change 0 with (inject_Z 0); rewrite <- Zle_Qle; lia).
  destruct (Qeq_dec (inject_Z (Z.of_nat (length d))) 0) as [E|E].
  - rewrite E. unfold Qdiv. change (/ 0) with 0. lra.
  - apply Qle_shift_div_l; lra.
Qed.

End VerifyExtraFacts.

(** X16. For two images of one shape, the mean squared error is never
    negative, does not depend on the order of the two images, and is 0
    exactly when their samples agree; so the route reports the sentinel
    psnr 999.99 for identical samples, and otherwise
    [10 * log10 (255^2 / mse)] with a positive [mse]. *)
Theorem psnr_sentinel_iff_identical_samples
    {cv : OpenCV} {cvs : OpenCVSpec cv} {mt : Metrics}
    (initial_watermark extracted_watermark : image Z) (h w : nat) :
  has_shape h w initial_watermark -> has_shape h w extracted_watermark ->
  (0 < h)%nat -> (0 < w)%nat ->
  structural_similarity initial_watermark extracted_watermark <> None ->
  let mse := VerifyBackend.mean_squared_error initial_watermark extracted_watermark in
  0 <= mse
  /\ mse == VerifyBackend.mean_squared_error extracted_watermark initial_watermark
  /\ (mse == 0 <->
      VerifyBackend.flatten initial_watermark = VerifyBackend.flatten extracted_watermark)
  /\ exists r,
       VerifyBackend.verify_watermarks (Some (Some initial_watermark))
                                       (Some (Some extracted_watermark))
       = VerifyBackend.SendJson r
       /\ (VerifyBackend.flatten initial_watermark
           = VerifyBackend.flatten extracted_watermark ->
           VerifyBackend.psnr r = 99999 # 100)
       /\ (VerifyBackend.flatten initial_watermark
           <> VerifyBackend.flatten extracted_watermark ->
           0 < mse
           /\ VerifyBackend.psnr r = 10 * log10 (VerifyBackend.PIXEL_MAX ^ 2 / mse)).
Proof.
  intros Ha Hb Hh Hw Hs mse.
  pose proof (VerifyExtraFacts.mse_nonneg initial_watermark extracted_watermark) as Hn.
  pose proof (VerifyExtraFacts.mse_zero_iff _ _ h w Ha Hb) as Hz.
  fold mse in Hn, Hz.
  split; [exact Hn|]. split; [|split; [exact Hz|]].
  - unfold mse. rewrite !VerifyExtraFacts.mse_eq.
    rewrite (VerifyExtraFacts.map2_sym sq_diff
               (fun x y => sq_diff y x)
               (VerifyBackend.flatten extracted_watermark)
               (VerifyBackend.flatten initial_watermark)) by reflexivity.
    set (d := map2 sq_diff _ _).
    set (d' := map2 (fun x y => sq_diff y x) _ _).
    assert (L : length d = length d').
    { unfold d, d'. now rewrite !length_map2. }
    assert (F : Forall2 Qeq d d').
    { unfold d, d'. generalize (VerifyBackend.flatten initial_watermark).
      generalize (VerifyBackend.flatten extracted_watermark).
      intros l m. revert l. induction m as [|y m IH]; intros [|x l]; simpl;
        constructor; [|apply IH].
      unfold sq_diff. simpl. ring. }
    now rewrite (VerifyExtraFacts.qsum_comp _ _ F), L.
  - unfold VerifyBackend.verify_watermarks.
    rewrite (IdenticalFacts.shape3_has_shape _ h w Ha Hh). cbn [fst snd].
    rewrite (resize_u8_same _ h w Hb Hh Hw).
    destruct (structural_similarity _ _) as [s|]; [clear Hs | contradiction].
    eexists. split; [reflexivity|]. cbn [VerifyBackend.psnr]. fold mse. split.
    + intros E. apply Hz in E. now rewrite (Qeq_eq_bool _ _ E).
    + intros E. assert (Hnz : ~ mse == 0) by (intros C; apply E, Hz, C).
      split; [lra|].
      destruct (Qeq_bool mse 0) eqn:B; [|reflexivity].
      apply Qeq_bool_iff in B. contradiction.
Qed.

Lemma psnr_sentinel_iff_identical_samples_witness :
  exists r,
    VerifyBackend.verify_watermarks (cv := Reference.opencv) (mt := Reference.metrics)
      (Some (Some (Samples.ramp 8 8))) (Some (Some Samples.gray8))
    = VerifyBackend.SendJson r
    /\ 0 < VerifyBackend.mean_squared_error (Samples.ramp 8 8) Samples.gray8.
Proof.
  destruct (psnr_sentinel_iff_identical_samples
              (cvs := ReferenceFacts.opencv_spec) (mt := Reference.metrics)
              (Samples.ramp 8 8) Samples.gray8 8 8)
    as (_ & _ & _ & r & E & _ & N); try lia.
  - apply has_shape_ramp.
  - apply has_shape_solid.
  - vm_compute. discriminate.
  - exists r. split; [exact E|]. apply N. vm_compute. discriminate.
Defined.

(** X17. A reference watermark of one constant value can never be
    verified: whatever image is compared with it, every result the route
    returns has a NaN correlation and the verdict Tampered. *)
Theorem constant_reference_is_never_authentic
    {cv : OpenCV} {mt : Metrics} {mts : MetricsSpec mt}
    (initial_watermark extracted_watermark : image Z) (r : VerifyBackend.result) :
  constant (VerifyBackend.flatten initial_watermark) ->
  VerifyBackend.verify_watermarks (Some (Some initial_watermark))
                                  (Some (Some extracted_watermark))
  = VerifyBackend.SendJson r ->
  VerifyBackend.correlation r = NaN
  /\ VerifyBackend.status r = VerifyBackend.Tampered.
Proof.
  intros Hc. unfold VerifyBackend.verify_watermarks.
  destruct (structural_similarity _ _) as [s|]; [|discriminate].
  intros [= <-]. cbn [VerifyBackend.correlation VerifyBackend.status].
  rewrite (corrcoef_constant _ _ Hc). split; [reflexivity|].
  unfold VerifyBackend.decide. cbn [fge]. now rewrite andb_false_r.
Qed.

Lemma constant_reference_is_never_authentic_witness :
  exists r,
    VerifyBackend.verify_watermarks (cv := Reference.opencv) (mt := Reference.metrics)
      (Some (Some Samples.gray8)) (Some (Some (Samples.ramp 8 8)))
    = VerifyBackend.SendJson r
    /\ VerifyBackend.status r = VerifyBackend.Tampered.
Proof.
  assert (E : exists r,
    VerifyBackend.verify_watermarks (cv := Reference.opencv) (mt := Reference.metrics)
      (Some (Some Samples.gray8)) (Some (Some (Samples.ramp 8 8)))
    = VerifyBackend.SendJson r).
  { unfold VerifyBackend.verify_watermarks.
    destruct (structural_similarity _ _) as [s|] eqn:S.
    - eexists. reflexivity.
    - exfalso. vm_compute in S. discriminate S. }
  destruct E as (r & E). exists r. split; [exact E|].
  assert (Hc : constant (VerifyBackend.flatten Samples.gray8)).
  { apply PearsonFacts.scaled_cov_zero_iff. vm_compute. reflexivity. }
  exact (proj2 (constant_reference_is_never_authentic
                  (mts := SsimFacts.metrics_spec)
                  Samples.gray8 (Samples.ramp 8 8) r Hc E)).
Defined.

(** ** Recovery under a contrast gain *)

Module GainFacts.
Import ExtractBackend.



End GainFacts.


